(** * text2iac email bridge: classification, extraction and routing

    A shallow embedding of [src/email-bridge/src/email_processor.py] and
    [src/email-bridge/src/email_monitor.py], and the properties of the
    ingestion pipeline proved (or refuted) over it.

    Conventions of the embedding.
    - A Python [str] is a [string]: a sequence of 8-bit characters.
      [str.lower] is modelled on the ASCII letters, [str.strip] on the
      ASCII white space; characters above 127 are left alone. The model
      is exact on ASCII text ([PyStr.is_ascii]): a statement that would
      not hold of Python's functions on other text says so in a
      hypothesis.
    - A header value is a [string] too: [msg.get] gives a [str] for a
      header that is ASCII text ([Mime.ascii_headers]); the [Header]
      object it gives for raw 8-bit bytes is not modelled, and a
      statement that depends on it says so in a hypothesis.
    - A Python [dict] used as a map is a [gmap]; message headers, whose
      order and duplicates matter, are an association list.
    - A coroutine of the processor is a computation in the monad [M]:
      it threads the mutable world (the record object, the database, the
      log of calls to the collaborators) and either returns or raises; the
      mutations made before a raise stay, as in Python.
    - The collaborators that are not part of the repository's sources (the
      database session, the API client, the template service) are driven
      by an explicit outcome per call site. *)

From stdpp Require Import base strings list gmap.
From Stdlib Require Import Strings.Ascii Strings.String Strings.Byte.

Local Open Scope string_scope.

(* ================================================================== *)
(** * Python strings *)
(* ================================================================== *)

Module PyStr.

(** [c.lower()] on one character: the letters [A]..[Z] move by 32. *)
Definition lower_ascii (c : ascii) : ascii :=
  let n := nat_of_ascii c in
  if (65 <=? n)%nat && (n <=? 90)%nat then ascii_of_nat (n + 32) else c.

(** [s.lower()], as it is on ASCII text. *)
Fixpoint lower (s : string) : string :=
  match s with
  | EmptyString => EmptyString
  | String c s' => String (lower_ascii c) (lower s')
  end.

(** [s.startswith(p)] *)
Fixpoint startswith (p s : string) : bool :=
  match p, s with
  | EmptyString, _ => true
  | String _ _, EmptyString => false
  | String a p', String b s' => Ascii.eqb a b && startswith p' s'
  end.

(** [p in s]: [p] occurs in [s] at some offset. *)
Fixpoint contains (p s : string) : bool :=
  startswith p s ||
  match s with
  | EmptyString => false
  | String _ s' => contains p s'
  end.

(** [s.endswith(p)]: some tail of [s] is [p]. *)
Fixpoint endswith (p s : string) : bool :=
  String.eqb s p ||
  match s with
  | EmptyString => false
  | String _ s' => endswith p s'
  end.

(** [c.isspace()] on the ASCII range: tab to carriage return, the four
    separators 28..31, and the blank. *)
Definition isspace (c : ascii) : bool :=
  let n := nat_of_ascii c in
  ((9 <=? n)%nat && (n <=? 13)%nat) || ((28 <=? n)%nat && (n <=? 32)%nat).

(** [s.lstrip()] *)
Fixpoint lstrip (s : string) : string :=
  match s with
  | EmptyString => EmptyString
  | String c s' => if isspace c then lstrip s' else s
  end.

(** [s.rstrip()] *)
Fixpoint rstrip (s : string) : string :=
  match s with
  | EmptyString => EmptyString
  | String c s' =>
      match rstrip s' with
      | EmptyString => if isspace c then EmptyString else String c EmptyString
      | r => String c r
      end
  end.

(** [s.strip()] *)
Definition strip (s : string) : string := rstrip (lstrip s).

(** [sep.join(l)] *)
Fixpoint join (sep : string) (l : list string) : string :=
  match l with
  | [] => EmptyString
  | [x] => x
  | x :: rest => x +:+ sep +:+ join sep rest
  end.

(** Every character of [s] is white space. *)
Fixpoint all_space (s : string) : bool :=
  match s with
  | EmptyString => true
  | String c s' => isspace c && all_space s'
  end.

(** [any(f(x) for x in l)] *)
Definition any {A} (f : A → bool) (l : list A) : bool := existsb f l.

(** [s.isascii()]: every character is below 128. On such a text
    [lower], [isspace] and [strip] above are those of Python; on other
    text [str.lower()] and [str.strip()] do more (the Kelvin sign lowers
    to "k", the no-break space is white space). *)
Fixpoint is_ascii (s : string) : bool :=
  match s with
  | EmptyString => true
  | String c s' => (nat_of_ascii c <? 128)%nat && is_ascii s'
  end.

End PyStr.

(* ================================================================== *)
(** * The closed enumerations of [models.email] *)
(* ================================================================== *)

(** Modelled from the spec: the module [models/email.py] is not among the
    sources; section 3 of the specification lists the members of
    [EmailType] (there: EmailCategory). *)
Inductive EmailType :=
  | STANDARD | AUTO_REPLY | BOUNCE | UNSUBSCRIBE | INFRA_REQUEST | OUTGOING.

(** Modelled from the spec: the members of [EmailStatus], section 3. *)
Inductive EmailStatus :=
  | RECEIVED | PROCESSED | FAILED | PENDING | SENT.

#[global] Instance EmailType_eq_dec : EqDecision EmailType.
Proof. solve_decision. Defined.

#[global] Instance EmailStatus_eq_dec : EqDecision EmailStatus.
Proof. solve_decision. Defined.

(* ================================================================== *)
(** * The classifier: [EmailProcessor._determine_email_type] *)
(* ================================================================== *)

Module Classifier.
Import PyStr.

Definition auto_reply_indicators : list string :=
  [ "auto-reply"; "automatic reply"; "auto reply"; "autoreply";
    "out of office"; "ooo"; "vacation"; "away"; "annual leave";
    "automatic response"; "auto response"; "auto-response" ].

Definition bounce_terms : list string :=
  [ "delivery failed"; "undeliverable"; "returned mail" ].

Definition infra_terms : list string :=
  [ "infra request"; "infrastructure request" ].

(** The [for indicator in auto_reply_indicators] loop: it returns from
    the function at the first indicator found; [None] is falling out of
    the loop. *)
Fixpoint auto_reply_loop (indicators : list string)
    (subject_lower body_lower : string) : option EmailType :=
  match indicators with
  | [] => None
  | indicator :: rest =>
      if contains indicator subject_lower || contains indicator body_lower
      then Some AUTO_REPLY
      else auto_reply_loop rest subject_lower body_lower
  end.

Definition _determine_email_type
    (subject body sender : string) (recipients : list string) : EmailType :=
  let subject_lower := lower subject in
  let body_lower := lower body in
  match auto_reply_loop auto_reply_indicators subject_lower body_lower with
  | Some t => t
  | None =>
      if any (fun term => contains term subject_lower) bounce_terms
      then BOUNCE
      else if contains "unsubscribe" body_lower || contains "opt-out" body_lower
      then UNSUBSCRIBE
      else if any (fun term => contains term subject_lower) infra_terms
      then INFRA_REQUEST
      else STANDARD
  end.

End Classifier.

(* ================================================================== *)
(** * What the specification says of matching *)
(* ================================================================== *)

Module Phrase.

(** [text] has an occurrence of [phrase], letter case apart: some
    segment of [text] is [phrase] once lowered. *)
Definition occurs_ci (phrase text : string) : Prop :=
  ∃ pre mid post, text = pre +:+ mid +:+ post ∧ PyStr.lower mid = phrase.

(** [text] has an occurrence of one of the [phrases]. *)
Definition mentions (phrases : list string) (text : string) : Prop :=
  ∃ p, p ∈ phrases ∧ occurs_ci p text.

(** [s] neither starts nor ends with white space. *)
Definition trimmed (s : string) : Prop :=
  (∀ c rest, s = String c rest → PyStr.isspace c = false) ∧
  (∀ pre c, s = pre +:+ String c EmptyString → PyStr.isspace c = false).

(** [s] is [v] without its leading and trailing white space. *)
Definition stripped_of (v s : string) : Prop :=
  ∃ lead trail,
    v = lead +:+ s +:+ trail ∧
    PyStr.all_space lead = true ∧ PyStr.all_space trail = true ∧ trimmed s.

(** [s] ends with [suffix]. *)
Definition has_suffix (suffix s : string) : Prop :=
  ∃ pre, s = pre +:+ suffix.

(** The phrases of section 4.3, written out: those of an automatic
    reply, of a delivery failure, of an unsubscribe request and of an
    infrastructure request. *)
Definition auto_reply_phrases : list string :=
  [ "auto-reply"; "automatic reply"; "auto reply"; "autoreply";
    "out of office"; "ooo"; "vacation"; "away"; "annual leave";
    "automatic response"; "auto response"; "auto-response" ].

Definition delivery_failure_phrases : list string :=
  [ "delivery failed"; "undeliverable"; "returned mail" ].

Definition unsubscribe_phrases : list string := [ "unsubscribe"; "opt-out" ].

Definition infra_request_phrases : list string :=
  [ "infra request"; "infrastructure request" ].

(** The ordered rules of the classifier, in the words of section 4.3:
    each rule applies only when no earlier one does. *)
Inductive classified (subject body : string) : EmailType → Prop :=
  | rule_auto_reply :
      mentions auto_reply_phrases subject ∨ mentions auto_reply_phrases body →
      classified subject body AUTO_REPLY
  | rule_bounce :
      ¬ (mentions auto_reply_phrases subject ∨ mentions auto_reply_phrases body) →
      mentions delivery_failure_phrases subject →
      classified subject body BOUNCE
  | rule_unsubscribe :
      ¬ (mentions auto_reply_phrases subject ∨ mentions auto_reply_phrases body) →
      ¬ mentions delivery_failure_phrases subject →
      mentions unsubscribe_phrases body →
      classified subject body UNSUBSCRIBE
  | rule_infra_request :
      ¬ (mentions auto_reply_phrases subject ∨ mentions auto_reply_phrases body) →
      ¬ mentions delivery_failure_phrases subject →
      ¬ mentions unsubscribe_phrases body →
      mentions infra_request_phrases subject →
      classified subject body INFRA_REQUEST
  | rule_standard :
      ¬ (mentions auto_reply_phrases subject ∨ mentions auto_reply_phrases body) →
      ¬ mentions delivery_failure_phrases subject →
      ¬ mentions unsubscribe_phrases body →
      ¬ mentions infra_request_phrases subject →
      classified subject body STANDARD.

End Phrase.

(* ================================================================== *)
(** * The request parser: [EmailProcessor._parse_infra_request] *)
(* ================================================================== *)

Module RequestParser.
Import PyStr.

(** The dictionary the parser returns; its keys are fixed. *)
Record InfraRequest := {
  title : string;
  description : string;
  requestor_email : string;
  priority : string;
  environment : string;
  meta_source : string;
  meta_original_subject : string;
}.

(** The two term dictionaries, in insertion order, which is the order
    [dict.items()] iterates in. *)
Definition priority_terms : list (string * list string) :=
  [ ("high", ["urgent"; "asap"; "high priority"; "blocking"]);
    ("low", ["low priority"; "when you can"; "not urgent"]) ].

Definition env_terms : list (string * list string) :=
  [ ("production", ["prod"; "production"; "live"]);
    ("staging", ["staging"; "pre-prod"; "preprod"]) ].

(** [for name, terms in buckets.items(): if any(...): field = name; break]
    The field keeps [current] when the loop ends without a match. *)
Fixpoint bucket_loop (buckets : list (string * list string))
    (subject body : string) (current : string) : string :=
  match buckets with
  | [] => current
  | (name, terms) :: rest =>
      if any (fun term => contains term (lower body) ||
                          contains term (lower subject)) terms
      then name
      else bucket_loop rest subject body current
  end.

(** The dictionary starts with the defaults ["normal"] and
    ["development"]; each loop overwrites its key at most once. *)
Definition _parse_infra_request (subject body sender : string) : InfraRequest :=
  {| title := subject;
     description := body;
     requestor_email := sender;
     priority := bucket_loop priority_terms subject body "normal";
     environment := bucket_loop env_terms subject body "development";
     meta_source := "email";
     meta_original_subject := subject |}.

(** Section 4.4 in its own words: a bucket is chosen when subject or
    body mentions one of its terms. *)
Definition either_mentions (terms : list string) (subject body : string) : Prop :=
  Phrase.mentions terms subject ∨ Phrase.mentions terms body.

Inductive priority_rule (subject body : string) : string → Prop :=
  | priority_high :
      either_mentions ["urgent"; "asap"; "high priority"; "blocking"] subject body →
      priority_rule subject body "high"
  | priority_low :
      ¬ either_mentions ["urgent"; "asap"; "high priority"; "blocking"] subject body →
      either_mentions ["low priority"; "when you can"; "not urgent"] subject body →
      priority_rule subject body "low"
  | priority_normal :
      ¬ either_mentions ["urgent"; "asap"; "high priority"; "blocking"] subject body →
      ¬ either_mentions ["low priority"; "when you can"; "not urgent"] subject body →
      priority_rule subject body "normal".

Inductive environment_rule (subject body : string) : string → Prop :=
  | environment_production :
      either_mentions ["prod"; "production"; "live"] subject body →
      environment_rule subject body "production"
  | environment_staging :
      ¬ either_mentions ["prod"; "production"; "live"] subject body →
      either_mentions ["staging"; "pre-prod"; "preprod"] subject body →
      environment_rule subject body "staging"
  | environment_development :
      ¬ either_mentions ["prod"; "production"; "live"] subject body →
      ¬ either_mentions ["staging"; "pre-prod"; "preprod"] subject body →
      environment_rule subject body "development".

End RequestParser.

(* ================================================================== *)
(** * MIME messages *)
(* ================================================================== *)

Module Mime.
Import PyStr.

Definition bytes := list byte.

(** What the accessors of [email.message.Message] give for one part:
    the header list, [get_content_type()], [get_content_charset()] and
    [get_filename()]. *)
Record PartInfo := {
  headers : list (string * string);
  content_type : string;
  content_charset : option string;
  filename : option string;
}.

#[local] Set Warnings "-register-all".

(** A part holds either its transfer-decoded payload or a list of
    sub-parts; [is_multipart()] is the second case. *)
Inductive Message :=
  | Leaf (info : PartInfo) (payload : bytes)
  | Multi (info : PartInfo) (parts : list Message).

Definition info (m : Message) : PartInfo :=
  match m with Leaf i _ => i | Multi i _ => i end.

Definition is_multipart (m : Message) : bool :=
  match m with Leaf _ _ => false | Multi _ _ => true end.

(** [msg.walk()]: the part, then the walks of its sub-parts in order. *)
Fixpoint walk (m : Message) : list Message :=
  m :: match m with
       | Leaf _ _ => []
       | Multi _ parts => flat_map walk parts
       end.

(** [msg.get(name, default)]: header names compare without case; the
    first header of that name wins. The value is a [str], as it is for a
    header that is ASCII text. *)
Fixpoint get_header (name : string) (hs : list (string * string)) : option string :=
  match hs with
  | [] => None
  | (k, v) :: rest =>
      if String.eqb (lower k) (lower name) then Some v else get_header name rest
  end.

Definition get (m : Message) (name fallback : string) : string :=
  default fallback (get_header name (headers (info m))).



End Mime.

(* ================================================================== *)
(** * Records, collaborators and the world the coroutines run in *)
(* ================================================================== *)

(** A value of the [metadata] dictionary of a record. *)
Inductive MetaValue :=
  | MNone
  | MStr (s : string)
  | MHeaders (hs : list (string * string))
  | MDict (d : gmap string string).

(** Modelled from the spec: the ORM class [Email] of [models/email.py] is
    not among the sources; the fields are those [process_email] and
    [_route_email] assign, with the types section 3 gives them
    (EmailRecord). [error] and [processed_at] start unset. *)
Record Email := {
  id : string;
  message_id : string;
  in_reply_to : option string;
  references : string;
  sender : string;
  recipients : string;
  subject : string;
  body : string;
  content_type : string;
  status : EmailStatus;
  email_type : EmailType;
  error : option string;
  metadata : gmap string MetaValue;
  processed_at : option nat;
}.

(** An entry of the [attachments] list built by the extractor. *)
Record Attachment := {
  att_filename : string;
  att_content_type : string;
  att_data : Mime.bytes;
  att_size : nat;
}.

(** Modelled from the spec: the ORM class [EmailAttachment]
    (AttachmentRecord of section 3), as [_process_attachments] fills it. *)
Record AttachmentRow := {
  row_email_id : string;
  row_filename : string;
  row_content_type : string;
  row_size : nat;
  row_storage_path : string;
}.

(** The result of a call: a value, or an exception, of which the code
    only ever uses [str(e)]. *)
Inductive Result (A : Type) :=
  | Ok (a : A)
  | Raise (text : string).
Arguments Ok {A} a.
Arguments Raise {A} text.

(** The calls made to the collaborators, in order. *)
Inductive Event :=
  | EvCreateRecord
  | EvCommit
  | EvApiCall (request : RequestParser.InfraRequest) (user_email : string)
  | EvGetTemplate (name : string)
  | EvRender (context : gmap string string).

(** The collaborators and the library calls whose code is outside the
    repository, as the outcome each call has.
    - [save_outcome] is the making of the row in [_save_email]
      ([Email(...)], [add] and the [commit], which succeeds as a whole
      or not at all) with the identifier the store gives the row;
      [refresh_outcome] is the [refresh] that follows the commit;
    - the three commits are those of [_process_attachments],
      [_route_email] and of the [except] block of [process_email];
    - [api_outcome] is [APIClient.create_infrastructure_request];
    - [get_template_outcome], [render_outcome] are the template service;
    - [decode] is [bytes.decode(charset, errors="replace")], which raises
      on a character set it does not know;
    - [html2text] is [HTML2Text.handle];
    - [generate_id n] is the value of the [n]-th call of [generate_id()];
    - [utcnow] is [datetime.utcnow()], [utcnow_iso] its [isoformat()],
      [utcnow_text] its [strftime];
    - [parse_outcome] is [email.message_from_bytes], [session_outcome]
      the opening of [async_session()], [settings_EMAIL_DOMAIN] the
      configured domain. *)
Record Env := {
  save_outcome : Result string;
  refresh_outcome : Result unit;
  attachment_row_outcome : Attachment → Result unit;
  attachments_commit : Result unit;
  api_outcome : RequestParser.InfraRequest → string → Result (gmap string string);
  get_template_outcome : string → Result string;
  render_outcome : string → gmap string string → Result (string * string);
  route_commit : Result unit;
  error_commit : Result unit;
  decode : string → Mime.bytes → Result string;
  html2text : string → string;
  generate_id : nat → string;
  utcnow : nat;
  utcnow_iso : string;
  utcnow_text : string;
  parse_outcome : Mime.bytes → Result Mime.Message;
  session_outcome : Result unit;
  settings_EMAIL_DOMAIN : string;
}.

(** The mutable world of one [process_email] call.
    - [db_email] is the record object, once [process_email] (or the
      caller of [_route_email]) holds it;
    - [stored] is the row as last committed, [stored_attachments] the
      committed attachment rows, [added_attachments] those added to the
      session and not committed yet;
    - [ids_drawn] counts the calls of [generate_id()];
    - [events] is the log of calls, latest last. *)
Record World := {
  db_email : option Email;
  stored : option Email;
  added_attachments : list AttachmentRow;
  stored_attachments : list AttachmentRow;
  ids_drawn : nat;
  events : list Event;
}.

(** ** The monad of coroutines *)

Definition M (A : Type) : Type := World → Result A * World.

Definition ret {A} (a : A) : M A := fun w => (Ok a, w).

Definition raise {A} (text : string) : M A := fun w => (Raise text, w).

Definition bind {A B} (c : M A) (k : A → M B) : M B :=
  fun w =>
    match c w with
    | (Ok a, w') => k a w'
    | (Raise text, w') => (Raise text, w')
    end.

(** [try: c  except Exception as e: handler(str(e))] *)
Definition try_except {A} (c : M A) (handler : string → M A) : M A :=
  fun w =>
    match c w with
    | (Ok a, w') => (Ok a, w')
    | (Raise text, w') => handler text w'
    end.

(** A call whose outcome the environment fixes. *)
Definition lift {A} (r : Result A) : M A := fun w => (r, w).

Definition modify (f : World → World) : M unit := fun w => (Ok tt, f w).

Definition gets {A} (f : World → A) : M A := fun w => (Ok (f w), w).

Declare Scope coroutine_scope.
Delimit Scope coroutine_scope with coroutine.
Notation "x <- c ;; k" := (bind c (fun x => k))
  (at level 100, c at next level, right associativity) : coroutine_scope.
Notation "c ;; k" := (bind c (fun _ => k))
  (at level 100, right associativity) : coroutine_scope.
Local Open Scope coroutine_scope.

Definition log_event (e : Event) : M unit :=
  modify (fun w =>
    {| db_email := db_email w; stored := stored w;
       added_attachments := added_attachments w;
       stored_attachments := stored_attachments w;
       ids_drawn := ids_drawn w; events := (events w ++ [e])%list |}).

(** [generate_id()]: the next value of the generator. *)
Definition draw_id (env : Env) : M string :=
  fun w =>
    (Ok (generate_id env (ids_drawn w)),
     {| db_email := db_email w; stored := stored w;
        added_attachments := added_attachments w;
        stored_attachments := stored_attachments w;
        ids_drawn := S (ids_drawn w); events := events w |}).

(** Reading the record object; on [None] Python raises at the first
    attribute access. *)
Definition no_attribute : string := "'NoneType' object has no attribute".

Definition read_email : M Email :=
  fun w =>
    match db_email w with
    | Some e => (Ok e, w)
    | None => (Raise no_attribute, w)
    end.

(** An assignment to an attribute of the record object. *)
Definition update_email (f : Email → Email) : M unit :=
  fun w =>
    match db_email w with
    | Some e =>
        (Ok tt,
         {| db_email := Some (f e); stored := stored w;
            added_attachments := added_attachments w;
            stored_attachments := stored_attachments w;
            ids_drawn := ids_drawn w; events := events w |})
    | None => (Raise no_attribute, w)
    end.

Definition set_status (s : EmailStatus) (e : Email) : Email :=
  {| id := id e; message_id := message_id e; in_reply_to := in_reply_to e;
     references := references e; sender := sender e; recipients := recipients e;
     subject := subject e; body := body e; content_type := content_type e;
     status := s; email_type := email_type e; error := error e;
     metadata := metadata e; processed_at := processed_at e |}.

Definition set_error (text : string) (e : Email) : Email :=
  {| id := id e; message_id := message_id e; in_reply_to := in_reply_to e;
     references := references e; sender := sender e; recipients := recipients e;
     subject := subject e; body := body e; content_type := content_type e;
     status := status e; email_type := email_type e; error := Some text;
     metadata := metadata e; processed_at := processed_at e |}.

Definition set_processed_at (t : nat) (e : Email) : Email :=
  {| id := id e; message_id := message_id e; in_reply_to := in_reply_to e;
     references := references e; sender := sender e; recipients := recipients e;
     subject := subject e; body := body e; content_type := content_type e;
     status := status e; email_type := email_type e; error := error e;
     metadata := metadata e; processed_at := Some t |}.

Definition set_metadata (k : string) (v : MetaValue) (e : Email) : Email :=
  {| id := id e; message_id := message_id e; in_reply_to := in_reply_to e;
     references := references e; sender := sender e; recipients := recipients e;
     subject := subject e; body := body e; content_type := content_type e;
     status := status e; email_type := email_type e; error := error e;
     metadata := <[k := v]> (metadata e); processed_at := processed_at e |}.

(** [db.add(email); await db.commit()]: when the commit goes through, the
    row takes the state of the object and the added attachment rows are
    stored; when it raises, the store keeps what it had. *)
Definition commit (outcome : Result unit) : M unit :=
  log_event EvCommit ;;
  lift outcome ;;
  modify (fun w =>
    {| db_email := db_email w; stored := db_email w;
       added_attachments := [];
       stored_attachments := (stored_attachments w ++ added_attachments w)%list;
       ids_drawn := ids_drawn w; events := events w |}).

(* ================================================================== *)
(** * The extractor: [EmailProcessor._extract_email_content] *)
(* ================================================================== *)

Module Extractor.
Import PyStr Mime.

Definition extension_map : gmap string string :=
  list_to_map
    [ ("text/plain", ".txt");
      ("text/html", ".html");
      ("application/json", ".json");
      ("application/pdf", ".pdf");
      ("image/jpeg", ".jpg");
      ("image/png", ".png");
      ("image/gif", ".gif");
      ("application/msword", ".doc");
      ("application/vnd.openxmlformats-officedocument.wordprocessingml.document", ".docx");
      ("application/vnd.ms-excel", ".xls");
      ("application/vnd.openxmlformats-officedocument.spreadsheetml.sheet", ".xlsx");
      ("application/vnd.ms-powerpoint", ".ppt");
      ("application/vnd.openxmlformats-officedocument.presentationml.presentation", ".pptx");
      ("application/zip", ".zip");
      ("application/x-rar-compressed", ".rar");
      ("application/x-gzip", ".gz");
      ("application/x-tar", ".tar") ].

Definition _get_extension (content_type : string) : string :=
  default ".bin" (extension_map !! content_type).

(** [ctype.split('/')[0]], which is [get_content_maintype()]. *)
Fixpoint maintype (ctype : string) : string :=
  match ctype with
  | EmptyString => EmptyString
  | String c rest =>
      if Ascii.eqb c "/"%char then EmptyString else String c (maintype rest)
  end.

(** [x or fallback] on an optional string: [None] and [""] are falsy. *)
Definition or_else (x : option string) (fallback : string) : string :=
  match x with
  | Some (String c r) => String c r
  | _ => fallback
  end.

Definition is_empty (s : string) : bool :=
  match s with EmptyString => true | _ => false end.

Definition is_text (content_type : string) : bool :=
  String.eqb content_type "text/plain" || String.eqb content_type "text/html".

(** The three variables the function returns. Inside the loop the
    variable [content_type] is also the loop's own: it is assigned from
    every part walked. *)
Definition Extracted : Type := string * string * list Attachment.

Definition no_len : string := "object of type 'NoneType' has no len()".

(** One iteration of [for part in msg.walk()]. *)
Definition extract_part (env : Env) (part : Message) (acc : Extracted)
    : M Extracted :=
  let '(body, _, attachments) := acc in
  let content_disposition := get part "Content-Disposition" "" in
  let content_type := content_type (info part) in
  if String.eqb (maintype content_type) "multipart" then
    ret (body, content_type, attachments)
  else if contains "attachment" (lower content_disposition) then
    filename <-
      match filename (info part) with
      | Some (String c r) => ret (String c r)
      | _ =>
          let ext := _get_extension content_type in
          fresh <- draw_id env ;;
          ret ("attachment_" +:+ fresh +:+ ext)
      end ;;
    match part with
    | Leaf _ attachment_data =>
        ret (body, content_type,
             (attachments ++
              [ {| att_filename := filename;
                   att_content_type := content_type;
                   att_data := attachment_data;
                   att_size := List.length attachment_data |} ])%list)
    | Multi _ _ => raise no_len
    end
  else if is_empty body && is_text content_type then
    match part with
    | Leaf i payload =>
        let charset := or_else (content_charset i) "utf-8" in
        match decode env charset payload with
        | Ok text =>
            let body :=
              if String.eqb content_type "text/html"
              then html2text env text else text in
            ret (body, content_type, attachments)
        | Raise _ => ret (body, content_type, attachments)
        end
    | Multi _ _ => ret (body, content_type, attachments)
    end
  else ret (body, content_type, attachments).

Fixpoint for_parts (env : Env) (parts : list Message) (acc : Extracted)
    : M Extracted :=
  match parts with
  | [] => ret acc
  | part :: rest =>
      acc' <- extract_part env part acc ;;
      for_parts env rest acc'
  end.

Definition _extract_email_content (env : Env) (msg : Message) : M Extracted :=
  match msg with
  | Multi _ _ => for_parts env (walk msg) ("", "text/plain", [])
  | Leaf i payload =>
      let charset := or_else (content_charset i) "utf-8" in
      match decode env charset payload with
      | Ok text =>
          let content_type := content_type i in
          let body :=
            if String.eqb content_type "text/html"
            then html2text env text else text in
          ret (body, content_type, [])
      | Raise _ => ret ("", "text/plain", [])
      end
  end.

(** ** What section 3 says of body selection *)

(** A part that may give the body: not a container, not an attachment,
    plain text or HTML. *)
Definition body_candidate (part : Message) : bool :=
  let ct := content_type (info part) in
  negb (String.eqb (maintype ct) "multipart") &&
  negb (contains "attachment" (lower (get part "Content-Disposition" ""))) &&
  is_text ct.

(** The first candidate in document order. *)
Definition body_source (msg : Message) : option Message :=
  List.find body_candidate (walk msg).

(** The body a candidate part gives, when it decodes. *)
Definition decoded_body (env : Env) (part : Message) : option string :=
  match part with
  | Leaf i payload =>
      match decode env (or_else (content_charset i) "utf-8") payload with
      | Ok text =>
          Some (if String.eqb (content_type i) "text/html"
                then html2text env text else text)
      | Raise _ => None
      end
  | Multi _ _ => None
  end.

End Extractor.

(* ================================================================== *)
(** * The processor: [EmailProcessor] *)
(* ================================================================== *)

Module Processor.
Import PyStr.

(** The fields of [EmailCreate], which [_save_email] turns into the
    record; the store gives the identifier. *)
Definition new_email (row_id message_id : string) (in_reply_to : option string)
    (references sender recipients subject body content_type : string)
    (email_type : EmailType) (hs : list (string * string)) : Email :=
  {| id := row_id;
     message_id := message_id;
     in_reply_to := in_reply_to;
     references := references;
     sender := sender;
     recipients := recipients;
     subject := subject;
     body := body;
     content_type := content_type;
     status := RECEIVED;
     email_type := email_type;
     error := None;
     metadata := {[ "headers" := MHeaders hs; "source_ip" := MStr "localhost" ]};
     processed_at := None |}.

(** [_save_email]: the row exists in the store once the commit went
    through; the object is returned after the refresh. When the commit
    raises nothing exists; when the refresh raises the row exists and
    no object is returned. *)
Definition _save_email (env : Env) (make : string → Email) : M Email :=
  log_event EvCreateRecord ;;
  row_id <- lift (save_outcome env) ;;
  modify (fun w =>
    {| db_email := db_email w; stored := Some (make row_id);
       added_attachments := added_attachments w;
       stored_attachments := stored_attachments w;
       ids_drawn := ids_drawn w; events := events w |}) ;;
  lift (refresh_outcome env) ;;
  ret (make row_id).

(** The assignment [db_email = ...] in [process_email]. *)
Definition assign_db_email (e : Email) : M unit :=
  modify (fun w =>
    {| db_email := Some e; stored := stored w;
       added_attachments := added_attachments w;
       stored_attachments := stored_attachments w;
       ids_drawn := ids_drawn w; events := events w |}).

Definition add_attachment_row (row : AttachmentRow) : M unit :=
  modify (fun w =>
    {| db_email := db_email w; stored := stored w;
       added_attachments := (added_attachments w ++ [row])%list;
       stored_attachments := stored_attachments w;
       ids_drawn := ids_drawn w; events := events w |}).

(** The loop of [_process_attachments]: a failure on one attachment is
    logged and the loop goes on. *)
Fixpoint for_attachments (env : Env) (email_id : string)
    (attachments : list Attachment) : M unit :=
  match attachments with
  | [] => ret tt
  | attachment :: rest =>
      try_except
        (lift (attachment_row_outcome env attachment) ;;
         add_attachment_row
           {| row_email_id := email_id;
              row_filename := att_filename attachment;
              row_content_type := att_content_type attachment;
              row_size := att_size attachment;
              row_storage_path :=
                "attachments/" +:+ email_id +:+ "/" +:+ att_filename attachment |})
        (fun _ => ret tt) ;;
      for_attachments env email_id rest
  end.

Definition _process_attachments (env : Env) (email_id : string)
    (attachments : list Attachment) : M unit :=
  for_attachments env email_id attachments ;;
  commit (attachments_commit env).

(** [response.get(key, fallback)] *)
Definition dict_get (d : gmap string string) (key fallback : string) : string :=
  default fallback (d !! key).

Definition _send_confirmation_email (env : Env)
    (request_data : gmap string string) : M unit :=
  try_except
    (log_event (EvGetTemplate "infra_request_confirmation") ;;
     template <- lift (get_template_outcome env "infra_request_confirmation") ;;
     email <- read_email ;;
     let context : gmap string string :=
       list_to_map
         [ ("request_id", dict_get request_data "id" "");
           ("title", dict_get request_data "title" "");
           ("description", dict_get request_data "description" "");
           ("status", dict_get request_data "status" "received");
           ("priority", dict_get request_data "priority" "normal");
           ("environment", dict_get request_data "environment" "development");
           ("created_at", dict_get request_data "created_at" (utcnow_iso env));
           ("user_email", sender email) ] in
     log_event (EvRender context) ;;
     _ <- lift (render_outcome env template context) ;;
     ret tt)
    (fun _ => ret tt).

Definition _send_unsubscribe_confirmation (env : Env) : M unit :=
  try_except
    (log_event (EvGetTemplate "unsubscribe_confirmation") ;;
     template <- lift (get_template_outcome env "unsubscribe_confirmation") ;;
     email <- read_email ;;
     let context : gmap string string :=
       list_to_map
         [ ("email", sender email);
           ("unsubscribe_date", utcnow_text env) ] in
     log_event (EvRender context) ;;
     _ <- lift (render_outcome env template context) ;;
     ret tt)
    (fun _ => ret tt).

(** [_handle_infra_request]: its [except] block logs and re-raises. *)
Definition _handle_infra_request (env : Env) (body : string) : M unit :=
  try_except
    (email <- read_email ;;
     let request_data :=
       RequestParser._parse_infra_request (subject email) body (sender email) in
     log_event (EvApiCall request_data (sender email)) ;;
     response <- lift (api_outcome env request_data (sender email)) ;;
     update_email
       (set_metadata "infra_request_id"
          (match response !! "id" with Some i => MStr i | None => MNone end)) ;;
     update_email (set_metadata "api_response" (MDict response)) ;;
     _send_confirmation_email env response)
    (fun text => raise text).

Definition _handle_unsubscribe (env : Env) : M unit :=
  _ <- read_email ;;
  _send_unsubscribe_confirmation env.

Definition _handle_standard_email : M unit :=
  _ <- read_email ;;
  ret tt.

(** The [if]/[elif]/[else] of [_route_email]: the handler of a category. *)
Definition handler_of (env : Env) (email_type : EmailType) (body : string)
    : M unit :=
  match email_type with
  | INFRA_REQUEST => _handle_infra_request env body
  | UNSUBSCRIBE => _handle_unsubscribe env
  | _ => _handle_standard_email
  end.

Definition _route_email (env : Env) (email_type : EmailType) (body : string)
    : M unit :=
  try_except
    (handler_of env email_type body ;;
     update_email (set_status PROCESSED))
    (fun text =>
       update_email (set_status FAILED) ;;
       update_email (set_error text)) ;;
  update_email (set_processed_at (utcnow env)) ;;
  commit (route_commit env).

(** The [try] block of [process_email]. *)
Definition process_email_body (env : Env) (msg : Mime.Message)
    (sender : string) (recipients : list string) : M (option Email) :=
  let subject := strip (Mime.get msg "Subject" "No Subject") in
  fresh <- draw_id env ;;
  let message_id := Mime.get msg "Message-ID" fresh in
  let in_reply_to := Mime.get_header "In-Reply-To" (Mime.headers (Mime.info msg)) in
  let references := Mime.get msg "References" "" in
  extracted <- Extractor._extract_email_content env msg ;;
  let '(body, content_type, attachments) := extracted in
  let email_type :=
    Classifier._determine_email_type subject body sender recipients in
  db_email <-
    _save_email env (fun row_id =>
      new_email row_id message_id in_reply_to references sender
        (join "," recipients) subject body content_type email_type
        (Mime.headers (Mime.info msg))) ;;
  assign_db_email db_email ;;
  (match attachments with
   | [] => ret tt
   | _ => _process_attachments env (id db_email) attachments
   end) ;;
  _route_email env email_type body ;;
  email <- read_email ;;
  ret (Some email).

(** The [except] block of [process_email]: it marks the record, when
    [db_email] is bound, tries to commit that, and returns [None]. *)
Definition process_email_except (env : Env) (text : string) : M (option Email) :=
  try_except
    (bound <- gets db_email ;;
     match bound with
     | Some _ =>
         update_email (set_status FAILED) ;;
         update_email (set_error text) ;;
         commit (error_commit env)
     | None => ret tt
     end)
    (fun _ => ret tt) ;;
  ret None.

(** A call starts with its local variable [db_email] unbound, whatever
    an earlier call left. *)
Definition unbind_db_email : M unit :=
  modify (fun w =>
    {| db_email := None; stored := stored w;
       added_attachments := added_attachments w;
       stored_attachments := stored_attachments w;
       ids_drawn := ids_drawn w; events := events w |}).

Definition process_email (env : Env) (msg : Mime.Message)
    (sender : string) (recipients : list string) : M (option Email) :=
  unbind_db_email ;;
  try_except
    (process_email_body env msg sender recipients)
    (process_email_except env).

End Processor.

(* ================================================================== *)
(** * The listener: [EmailHandler] of [email_monitor.py] *)
(* ================================================================== *)

Module Monitor.
Import PyStr.

(** The envelope of the SMTP session. *)
Record Envelope := {
  mail_from : string;
  rcpt_tos : list string;
  original_content : Mime.bytes;
}.

Definition reply_rejected : string := "550 Not relaying to that domain".
Definition reply_ok : string := "250 OK".
Definition reply_accepted : string := "250 Message accepted for delivery".
Definition reply_local_error : string :=
  "451 Requested action aborted: local error in processing".

(** [handle_RCPT]: the reply, and the envelope after the call. *)
Definition handle_RCPT (env : Env) (envelope : Envelope) (address : string)
    : string * Envelope :=
  if negb (endswith ("@" +:+ settings_EMAIL_DOMAIN env) address) then
    (reply_rejected, envelope)
  else
    (reply_ok,
     {| mail_from := mail_from envelope;
        rcpt_tos := (rcpt_tos envelope ++ [address])%list;
        original_content := original_content envelope |}).

(** [handle_DATA]: the value [process_email] returns is dropped. *)
Definition handle_DATA (env : Env) (envelope : Envelope) : M string :=
  try_except
    (msg <- lift (parse_outcome env (original_content envelope)) ;;
     lift (session_outcome env) ;;
     _ <- Processor.process_email env msg (mail_from envelope) (rcpt_tos envelope) ;;
     ret reply_accepted)
    (fun _ => ret reply_local_error).

(** A session: the envelope being filled, and the world the processor
    acts on. The commands are those the handler has hooks for. *)
Inductive Command :=
  | RCPT (address : string)
  | DATA.

Definition Session : Type := Envelope * World.

(** One command of the session, and the reply to it. An exception out
    of a hook is answered 500 by the SMTP library. *)
Definition step (env : Env) (s : Session) (c : Command) : string * Session :=
  let '(envelope, w) := s in
  match c with
  | RCPT address =>
      let '(reply, envelope') := handle_RCPT env envelope address in
      (reply, (envelope', w))
  | DATA =>
      match handle_DATA env envelope w with
      | (Ok reply, w') => (reply, (envelope, w'))
      | (Raise text, w') => ("500 Error: " +:+ text, (envelope, w'))
      end
  end.

(** The replies to a sequence of commands, and the session after it. *)
Fixpoint run (env : Env) (s : Session) (cs : list Command)
    : list string * Session :=
  match cs with
  | [] => ([], s)
  | c :: rest =>
      let '(reply, s') := step env s c in
      let '(replies, s'') := run env s' rest in
      (reply :: replies, s'')
  end.

(** The first digit of a reply: [5] is a permanent failure, [4] a
    temporary one, [2] success. *)
Definition reply_class (reply : string) : option ascii :=
  match reply with
  | String c _ => Some c
  | EmptyString => None
  end.

End Monitor.

(* ================================================================== *)
(** * Specifications of coroutines *)
(* ================================================================== *)

(** A session that has just been opened: no record object, nothing
    stored; [drawn] identifiers were generated before and [log] is the
    log so far. *)
Definition new_session (drawn : nat) (log : list Event) : World :=
  {| db_email := None; stored := None; added_attachments := [];
     stored_attachments := []; ids_drawn := drawn; events := log |}.

(** From a world in [P], the coroutine [c] either returns [a] in a world
    in [Q a], or raises [text] in a world in [E text]. *)
Definition triple {A} (P : World → Prop) (c : M A)
    (Q : A → World → Prop) (E : string → World → Prop) : Prop :=
  ∀ w, P w →
    match c w with
    | (Ok a, w') => Q a w'
    | (Raise text, w') => E text w'
    end.

(** [c] keeps [I], whether it returns or raises. *)
Definition keeps {A} (I : World → Prop) (c : M A) : Prop :=
  triple I c (fun _ => I) (fun _ => I).

(** A property of the pair (record object, stored row), as a property
    of the world. *)
Definition about_record (I : option Email → option Email → Prop) (w : World)
    : Prop :=
  I (db_email w) (stored w).

(** [I] is left alone by what the handlers do to the record: assigning
    [status], [error], [metadata] or [processed_at], and committing. *)
Record stable (I : option Email → option Email → Prop) : Prop := {
  stable_status : ∀ e row s, I (Some e) row → I (Some (set_status s e)) row;
  stable_error : ∀ e row t, I (Some e) row → I (Some (set_error t e)) row;
  stable_metadata :
    ∀ e row k v, I (Some e) row → I (Some (set_metadata k v e)) row;
  stable_processed_at :
    ∀ e row t, I (Some e) row → I (Some (set_processed_at t e)) row;
  stable_commit : ∀ o row, I o row → I o o;
}.

(** No record object and nothing stored. *)
Definition nothing_yet (d row : option Email) : Prop := d = None ∧ row = None.

(** The record object exists. *)
Definition object_bound (d row : option Email) : Prop := d ≠ None.

(** The record object and the stored row, where they exist, have the
    subject [x]. *)
Definition subject_is (x : string) (d row : option Email) : Prop :=
  (∀ e, d = Some e → subject e = x) ∧ (∀ e, row = Some e → subject e = x).

(** [c] returns: it raises from no world. *)
Definition never_raises {A} (c : M A) : Prop :=
  ∀ w, ∃ a w', c w = (Ok a, w').

(** The events [c] adds to the log from [w]. *)
Definition logged_by {A} (c : M A) (w : World) : list Event :=
  drop (List.length (events w)) (events (c w).2).

Definition is_api_call (e : Event) : bool :=
  match e with EvApiCall _ _ => true | _ => false end.

(** A call to the template service, which is all a confirmation
    notification consists of. *)
Definition is_notification (e : Event) : bool :=
  match e with EvGetTemplate _ | EvRender _ => true | _ => false end.

(** The text of a record's error is not the empty string. *)
Definition has_error_text (e : Email) : Prop :=
  ∃ text, error e = Some text ∧ text ≠ "".

(* ================================================================== *)
(** * Fixtures: the messages of the test suite and plain collaborators *)
(* ================================================================== *)

Module Fixtures.

(** A decoder for the fixtures: the bytes of an ASCII text, for the
    character sets the fixtures use; any other name is unknown. *)
Definition ascii_decode (charset : string) (data : Mime.bytes) : Result string :=
  if String.eqb charset "utf-8" || String.eqb charset "us-ascii"
  then Ok (string_of_list_byte data)
  else Raise ("unknown encoding: " +:+ charset).

(** Collaborators that all succeed. *)
Definition calm : Env :=
  {| save_outcome := Ok "1";
     refresh_outcome := Ok tt;
     attachment_row_outcome := fun _ => Ok tt;
     attachments_commit := Ok tt;
     api_outcome := fun _ _ =>
       Ok (list_to_map [("id", "req_123"); ("status", "received")]);
     get_template_outcome := fun name => Ok name;
     render_outcome := fun _ _ => Ok ("subject", "body");
     route_commit := Ok tt;
     error_commit := Ok tt;
     decode := ascii_decode;
     html2text := fun s => s;
     generate_id := fun n => "id";
     utcnow := 2;
     utcnow_iso := "2023-01-01T00:00:02";
     utcnow_text := "2023-01-01 00:00:02";
     parse_outcome := fun _ => Raise "not parsed";
     session_outcome := Ok tt;
     settings_EMAIL_DOMAIN := "example.com" |}.

(** [calm] with chosen outcomes for the store's create, the API call,
    the template lookup and the parser of the listener. *)
Definition with_outcomes (save : Result string)
    (api : Result (gmap string string)) (template : Result string)
    (parsed : Result Mime.Message) : Env :=
  {| save_outcome := save;
     refresh_outcome := refresh_outcome calm;
     attachment_row_outcome := attachment_row_outcome calm;
     attachments_commit := attachments_commit calm;
     api_outcome := fun _ _ => api;
     get_template_outcome := fun _ => template;
     render_outcome := render_outcome calm;
     route_commit := route_commit calm;
     error_commit := error_commit calm;
     decode := decode calm;
     html2text := html2text calm;
     generate_id := generate_id calm;
     utcnow := utcnow calm;
     utcnow_iso := utcnow_iso calm;
     utcnow_text := utcnow_text calm;
     parse_outcome := fun _ => parsed;
     session_outcome := session_outcome calm;
     settings_EMAIL_DOMAIN := settings_EMAIL_DOMAIN calm |}.

Definition text_part (content_type text : string) : Mime.Message :=
  Mime.Leaf
    {| Mime.headers :=
         [ ("Content-Type", content_type);
           ("MIME-Version", "1.0");
           ("Content-Transfer-Encoding", "7bit") ];
       Mime.content_type := content_type;
       Mime.content_charset := Some "us-ascii";
       Mime.filename := None |}
    (list_byte_of_string text).

Definition plain_text : string := "This is the plain text version".
Definition html_text : string := "<p>This is the HTML version</p>".

(** [multipart_email_message] of the test suite: a plain-text part,
    then an HTML part. *)
Definition multipart_email_message : Mime.Message :=
  Mime.Multi
    {| Mime.headers :=
         [ ("Content-Type", "multipart/mixed");
           ("MIME-Version", "1.0");
           ("From", "Test User <test@example.com>");
           ("To", "recipient@example.com");
           ("Subject", "Test Subject") ];
       Mime.content_type := "multipart/mixed";
       Mime.content_charset := None;
       Mime.filename := None |}
    [ text_part "text/plain" plain_text; text_part "text/html" html_text ].

(** A single-part message with the given subject line, if any. *)
Definition simple_message (subject_header : option string) (text : string)
    : Mime.Message :=
  Mime.Leaf
    {| Mime.headers :=
         ("Content-Type", "text/plain; charset=us-ascii") ::
         ("From", "Test User <test@example.com>") ::
         match subject_header with
         | Some v => [("Subject", v)]
         | None => []
         end;
       Mime.content_type := "text/plain";
       Mime.content_charset := Some "us-ascii";
       Mime.filename := None |}
    (list_byte_of_string text).

(** A record as [process_email] creates it, for calls of
    [_route_email] on their own. *)
Definition a_record (subject_line : string) (email_type : EmailType) : Email :=
  Processor.new_email "1" "<test-message-id@example.com>" None ""
    "user@example.com" "infra@example.com" subject_line "Need a new server"
    "text/plain" email_type [].

(** A record the routing handler has already gone through at time 1. *)
Definition processed_record : Email :=
  set_processed_at 1 (set_status PROCESSED (a_record "Hello" STANDARD)).

(** A world whose record object is [e], stored as it is. *)
Definition holding (e : Email) : World :=
  {| db_email := Some e; stored := Some e; added_attachments := [];
     stored_attachments := []; ids_drawn := 0; events := [] |}.

Definition infra_record : Email :=
  a_record "Infrastructure request: Database" INFRA_REQUEST.

(** The template service raises. *)
Definition template_missing : Env :=
  with_outcomes (Ok "1") (Ok (list_to_map [("id", "req_123")]))
    (Raise "template not found") (Raise "not parsed").

(** The API client raises, with a text and with none. *)
Definition api_down : Env :=
  with_outcomes (Ok "1") (Raise "API down") (Ok "t") (Raise "not parsed").

Definition api_down_silent : Env :=
  with_outcomes (Ok "1") (Raise "") (Ok "t") (Raise "not parsed").

(** The store's create raises, as in [test_process_email_error_handling];
    the listener parses the message of the test suite. *)
Definition store_down : Env :=
  with_outcomes (Raise "Database error") (Ok ∅) (Ok "t")
    (Ok (simple_message (Some "Test Subject") "This is a test email body")).

(** The API client raises for an infrastructure request the listener
    has parsed. *)
Definition api_down_at_listener : Env :=
  with_outcomes (Ok "1") (Raise "API down") (Ok "t")
    (Ok (simple_message (Some "Infra request: new server")
           "Please provision a new server")).

Definition an_envelope : Monitor.Envelope :=
  {| Monitor.mail_from := "test@example.com";
     Monitor.rcpt_tos := ["recipient@example.com"];
     Monitor.original_content := [] |}.

End Fixtures.

(* ================================================================== *)
(** * Authentication: [EmailAuthChecker] of [email_monitor.py] *)
(* ================================================================== *)

Module Auth.

(** What the SMTP library hands to the authenticator: nothing (a falsy
    value), an object without the attributes [login] and [password], or
    a login and a password as bytes. *)
Inductive AuthData :=
  | NoData
  | OtherData
  | LoginPassword (login password : Mime.bytes).

(** [AuthResult(success, handled=True, message=None)] *)
Record AuthResult := {
  success : bool;
  handled : bool;
  message : option string;
}.

(** The checker holds the configured pair; [decode] is [bytes.decode()],
    which is strict and raises on bytes that are not UTF-8. The second
    component is what [logger.warning] was given. *)
Definition EmailAuthChecker_call (decode : Mime.bytes → Result string)
    (self_username self_password : string) (auth_data : AuthData)
    : Result AuthResult * list string :=
  match auth_data with
  | NoData | OtherData =>
      (Ok {| success := false; handled := false; message := None |}, [])
  | LoginPassword login password =>
      match decode login with
      | Raise text => (Raise text, [])
      | Ok username =>
          match decode password with
          | Raise text => (Raise text, [])
          | Ok password =>
              if String.eqb username self_username &&
                 String.eqb password self_password
              then
                (Ok {| success := true; handled := true; message := None |}, [])
              else
                (Ok {| success := false; handled := true;
                       message := Some "535 Invalid credentials" |},
                 ["Failed authentication attempt for user: " +:+ username])
          end
      end
  end.

End Auth.

(* ================================================================== *)
(** * Notions for the parts of a message and the rows of a record *)
(* ================================================================== *)

Module Parts.
Import PyStr Mime.

(** The part is handled by the attachment branch of the loop: it is no
    container and its disposition mentions "attachment". *)
Definition is_attachment_part (part : Message) : bool :=
  negb (String.eqb (Extractor.maintype (content_type (info part))) "multipart") &&
  contains "attachment" (lower (get part "Content-Disposition" "")).

(** The parts of a multipart message the attachment branch handles, in
    document order. *)
Definition attachment_parts (msg : Message) : list Message :=
  List.filter is_attachment_part (walk msg).

Definition is_leaf (part : Message) : bool := negb (is_multipart part).

(** [not part.get_filename()] *)
Definition unnamed (part : Message) : bool :=
  match filename (info part) with
  | Some (String _ _) => false
  | _ => true
  end.

(** The entry [att] is what the loop appends for the part [part]. *)
Definition produced (env : Env) (att : Attachment) (part : Message) : Prop :=
  ∃ i data,
    part = Leaf i data ∧
    att_data att = data ∧
    att_size att = List.length data ∧
    att_content_type att = content_type i ∧
    att_filename att ≠ EmptyString ∧
    match filename i with
    | Some (String c r) => att_filename att = String c r
    | _ =>
        ∃ k, att_filename att =
               "attachment_" +:+ generate_id env k +:+
               Extractor._get_extension (content_type i)
    end.

(** The world [w] after [n] more calls of [generate_id()] and nothing
    else. *)
Definition after_ids (n : nat) (w : World) : World :=
  {| db_email := db_email w; stored := stored w;
     added_attachments := added_attachments w;
     stored_attachments := stored_attachments w;
     ids_drawn := n + ids_drawn w; events := events w |}.

End Parts.

Module Rows.

(** The row [_process_attachments] builds for an attachment. *)
Definition row_of (email_id : string) (attachment : Attachment) : AttachmentRow :=
  {| row_email_id := email_id;
     row_filename := att_filename attachment;
     row_content_type := att_content_type attachment;
     row_size := att_size attachment;
     row_storage_path :=
       "attachments/" +:+ email_id +:+ "/" +:+ att_filename attachment |}.

(** Building the row of this attachment does not raise. *)
Definition row_ok (env : Env) (attachment : Attachment) : bool :=
  match attachment_row_outcome env attachment with
  | Ok _ => true
  | Raise _ => false
  end.

(** The two records agree on everything the routing handler has no
    business with. *)
Definition same_message (e e' : Email) : Prop :=
  id e' = id e ∧ message_id e' = message_id e ∧
  in_reply_to e' = in_reply_to e ∧ references e' = references e ∧
  sender e' = sender e ∧ recipients e' = recipients e ∧
  subject e' = subject e ∧ body e' = body e ∧
  content_type e' = content_type e ∧ email_type e' = email_type e.

(** The context [_send_unsubscribe_confirmation] renders for the record. *)
Definition unsubscribe_context (env : Env) (e : Email) : gmap string string :=
  list_to_map [ ("email", sender e); ("unsubscribe_date", utcnow_text env) ].

(** The context [_send_confirmation_email] renders for the record and
    the response of the API. *)
Definition confirmation_context (env : Env) (response : gmap string string)
    (e : Email) : gmap string string :=
  list_to_map
    [ ("request_id", Processor.dict_get response "id" "");
      ("title", Processor.dict_get response "title" "");
      ("description", Processor.dict_get response "description" "");
      ("status", Processor.dict_get response "status" "received");
      ("priority", Processor.dict_get response "priority" "normal");
      ("environment", Processor.dict_get response "environment" "development");
      ("created_at", Processor.dict_get response "created_at" (utcnow_iso env));
      ("user_email", sender e) ].

(** The record after the routing handler has gone through an
    infrastructure request whose API call returned [response]. *)
Definition with_response (env : Env) (response : gmap string string) (e : Email)
    : Email :=
  set_processed_at (utcnow env)
    (set_status PROCESSED
       (set_metadata "api_response" (MDict response)
          (set_metadata "infra_request_id"
             (match response !! "id" with Some i => MStr i | None => MNone end)
             e))).

(** The record [process_email] creates for [msg], once the store has
    given [row_id] and the extraction [body] and [content_type];
    [drawn] identifiers were generated before the call. *)
Definition created (env : Env) (msg : Mime.Message) (sender : string)
    (recipients : list string) (drawn : nat)
    (row_id body content_type : string) : Email :=
  Processor.new_email row_id
    (Mime.get msg "Message-ID" (generate_id env drawn))
    (Mime.get_header "In-Reply-To" (Mime.headers (Mime.info msg)))
    (Mime.get msg "References" "")
    sender (PyStr.join "," recipients)
    (PyStr.strip (Mime.get msg "Subject" "No Subject"))
    body content_type
    (Classifier._determine_email_type
       (PyStr.strip (Mime.get msg "Subject" "No Subject"))
       body sender recipients)
    (Mime.headers (Mime.info msg)).

(** [e] stands for the message [msg]: it is a record created for it, up
    to what the routing handler changes. *)
Definition of_message (env : Env) (msg : Mime.Message) (sender : string)
    (recipients : list string) (drawn : nat) (e : Email) : Prop :=
  ∃ row_id body content_type,
    same_message (created env msg sender recipients drawn
                    row_id body content_type) e.

(** The record object and the stored row, where they exist, are in [P]. *)
Definition all_records (P : Email → Prop) (d row : option Email) : Prop :=
  (∀ e, d = Some e → P e) ∧ (∀ e, row = Some e → P e).

(** What [process_email] returns: a record that is the record object
    and the stored row, PROCESSED or FAILED, processed at [now]. *)
Definition returned_record (now : nat) (r : option Email) (w : World) : Prop :=
  ∃ e, r = Some e ∧ db_email w = Some e ∧ stored w = Some e ∧
       (status e = PROCESSED ∨ status e = FAILED) ∧
       processed_at e = Some now.

End Rows.

(* ================================================================== *)
(** * More messages and collaborators to run the code on *)
(* ================================================================== *)

Module Samples.

Definition container (content_type : string) (hs : list (string * string))
    (parts : list Mime.Message) : Mime.Message :=
  Mime.Multi
    {| Mime.headers := ("Content-Type", content_type) :: hs;
       Mime.content_type := content_type;
       Mime.content_charset := None;
       Mime.filename := None |}
    parts.

(** A text part marked as attachment, with the file name given or none. *)
Definition attached_text (name : option string) (text : string) : Mime.Message :=
  Mime.Leaf
    {| Mime.headers :=
         [ ("Content-Type", "text/plain");
           ("Content-Disposition", "attachment") ];
       Mime.content_type := "text/plain";
       Mime.content_charset := Some "us-ascii";
       Mime.filename := name |}
    (list_byte_of_string text).

(** [email_with_attachment] of the test suite: a text part, then a text
    part attached under the name "test.txt"; here a third part follows,
    attached under no name. *)
Definition email_with_attachment : Mime.Message :=
  container "multipart/mixed"
    [ ("From", "Test User <test@example.com>");
      ("Subject", "Test Subject") ]
    [ Fixtures.text_part "text/plain" "Email with attachment";
      attached_text (Some "test.txt") "This is a test attachment";
      attached_text None "More" ].

(** A message forwarded as an attachment: the attached part is of type
    message/rfc822 and holds the forwarded message as its sub-part. *)
Definition forwarded_as_attachment : Mime.Message :=
  container "multipart/mixed" [("Subject", "Fwd: hello")]
    [ Fixtures.text_part "text/plain" "See the attached message";
      container "message/rfc822" [("Content-Disposition", "attachment")]
        [ Fixtures.text_part "text/plain" "hello" ] ].

(** The listener parses a plain message; every collaborator succeeds. *)
Definition calm_listener : Env :=
  Fixtures.with_outcomes (Ok "1") (Ok ∅) (Ok "t")
    (Ok (Fixtures.simple_message (Some "Test Subject") "This is a test email body")).

(** The listener fails to parse what it received. *)
Definition deaf_listener : Env :=
  Fixtures.with_outcomes (Ok "1") (Ok ∅) (Ok "t") (Raise "not a message").

(** A decoder of bytes for the authenticator: every byte string is the
    text of its bytes. *)
Definition plain_decode (data : Mime.bytes) : Result string :=
  Ok (string_of_list_byte data).


(** The store commits the new row and fails to read it back. *)
Definition refresh_down : Env :=
  {| save_outcome := save_outcome Fixtures.calm;
     refresh_outcome := Raise "connection lost";
     attachment_row_outcome := attachment_row_outcome Fixtures.calm;
     attachments_commit := attachments_commit Fixtures.calm;
     api_outcome := api_outcome Fixtures.calm;
     get_template_outcome := get_template_outcome Fixtures.calm;
     render_outcome := render_outcome Fixtures.calm;
     route_commit := route_commit Fixtures.calm;
     error_commit := error_commit Fixtures.calm;
     decode := decode Fixtures.calm;
     html2text := html2text Fixtures.calm;
     generate_id := generate_id Fixtures.calm;
     utcnow := utcnow Fixtures.calm;
     utcnow_iso := utcnow_iso Fixtures.calm;
     utcnow_text := utcnow_text Fixtures.calm;
     parse_outcome := parse_outcome Fixtures.calm;
     session_outcome := session_outcome Fixtures.calm;
     settings_EMAIL_DOMAIN := settings_EMAIL_DOMAIN Fixtures.calm |}.

End Samples.

(* ================================================================== *)
(** * Terms that have other terms as segments *)
(* ================================================================== *)

Module Terms.

(** Every term of [terms] has a segment among [terms']. *)
Definition covered_by (terms' terms : list string) : bool :=
  forallb (fun p => PyStr.any (fun q => PyStr.contains q p) terms') terms.

End Terms.

(* ================================================================== *)
(** * Notions for the calls of [process_email] *)
(* ================================================================== *)

Module Calls.

(** What is known of the world [process_email] ends in once the record
    [e] is created, given the log [log] it started with: the stored row
    stands for the same message, and after the creation there were
    either the commit of the attachments that raised and the commit of
    the [except] block, or at most the commit of the attachments, the
    calls of the routing handler and at most the commit of the [except]
    block. *)
Definition after_creation (env : Env) (log : list Event) (e : Email)
    (body : string) (w : World) : Prop :=
  (∃ r, stored w = Some r ∧ Rows.same_message e r) ∧
  (events w = (log ++ [EvCreateRecord; EvCommit; EvCommit])%list ∨
   ∃ pre w3 post,
     db_email w3 = Some e ∧
     events w =
       (log ++ EvCreateRecord :: pre ++
        logged_by (Processor._route_email env (email_type e) body) w3 ++
        post)%list ∧
     (pre = [] ∨ pre = [EvCommit]) ∧ (post = [] ∨ post = [EvCommit])).

(** The call that creates the record. *)
Definition is_creation (e : Event) : bool :=
  match e with EvCreateRecord => true | _ => false end.

End Calls.

(* ================================================================== *)
(** * Notions for the body of a multipart message *)
(* ================================================================== *)

Module Bodies.

(** The texts the candidate parts give, in document order; a candidate
    that does not decode gives none. *)
Definition texts (env : Env) (parts : list Mime.Message) : list string :=
  omap (Extractor.decoded_body env) (List.filter Extractor.body_candidate parts).

(** The first of these texts that is not empty, and the empty string
    when there is none. *)
Definition first_text (env : Env) (parts : list Mime.Message) : string :=
  default ""
    (head (List.filter (fun s => negb (Extractor.is_empty s)) (texts env parts))).

End Bodies.

(* ================================================================== *)
(** * Facts about Python strings *)
(* ================================================================== *)

Section StringFacts.
Import PyStr Phrase.

Lemma startswith_spec (p s : string) :
  startswith p s = true ↔ ∃ post, s = p +:+ post.
Proof.
  revert s. induction p as [|a p IH]; intros s; simpl.
  - split; [intros _; by exists s | done].
  - destruct s as [|b s].
    + split; [done | intros [post H]; discriminate].
    + rewrite andb_true_iff, IH. split.
      * intros [Hab [post ->]]. apply Ascii.eqb_eq in Hab as ->. by exists post.
      * intros [post H]. injection H as -> ->.
        split; [apply Ascii.eqb_refl | by exists post].
Qed.

Lemma contains_spec (p s : string) :
  contains p s = true ↔ ∃ pre post, s = pre +:+ p +:+ post.
Proof.
  induction s as [|c s IH]; simpl.
  - rewrite orb_false_r, startswith_spec. split.
    + intros [post H]. by exists "", post.
    + intros (pre & post & H). destruct pre; [|discriminate]. by exists post.
  - rewrite orb_true_iff, startswith_spec, IH. split.
    + intros [[post H] | (pre & post & H)].
      * by exists "", post.
      * exists (String c pre), post. simpl. by rewrite H.
    + intros (pre & post & H). destruct pre as [|c' pre]; simpl in H.
      * left. by exists post.
      * right. injection H as _ H. by exists pre, post.
Qed.

Lemma lower_app (a b : string) : lower (a +:+ b) = lower a +:+ lower b.
Proof. induction a as [|c a IH]; simpl; [done | by rewrite IH]. Qed.

Lemma lower_split (s a b : string) :
  lower s = a +:+ b → ∃ a' b', s = a' +:+ b' ∧ lower a' = a ∧ lower b' = b.
Proof.
  revert s. induction a as [|c a IH]; intros s H; simpl in H.
  - by exists "", s.
  - destruct s as [|d s]; [discriminate|]. simpl in H. injection H as Hc H.
    destruct (IH _ H) as (a' & b' & -> & Ha & Hb).
    exists (String d a'), b'. simpl. by rewrite Hc, Ha.
Qed.

(** Looking for a phrase in the lowered text is looking for an
    occurrence of it, letter case apart. *)
Lemma contains_lower (p s : string) :
  contains p (lower s) = true ↔ occurs_ci p s.
Proof.
  rewrite contains_spec. split.
  - intros (pre & post & H).
    apply lower_split in H as (pre' & rest & -> & _ & H).
    apply lower_split in H as (mid & post' & -> & Hmid & _).
    by exists pre', mid, post'.
  - intros (pre & mid & post & -> & Hmid).
    exists (lower pre), (lower post). by rewrite !lower_app, Hmid.
Qed.

Lemma any_spec {A} (f : A → bool) (l : list A) :
  any f l = true ↔ ∃ x, x ∈ l ∧ f x = true.
Proof.
  unfold any. rewrite existsb_exists.
  split; intros (x & Hx & Hf); exists x; split; try done;
    by apply list_elem_of_In.
Qed.

Lemma any_contains_lower (terms : list string) (s : string) :
  any (fun term => contains term (lower s)) terms = true ↔ mentions terms s.
Proof.
  rewrite any_spec. unfold mentions.
  split; intros (p & Hp & H); exists p; split; try done;
    by apply contains_lower.
Qed.

Lemma any_contains_lower_false (terms : list string) (s : string) :
  any (fun term => contains term (lower s)) terms = false ↔ ¬ mentions terms s.
Proof.
  rewrite <- any_contains_lower. by destruct (any _ _).
Qed.

Lemma mentions_cons (p : string) (terms : list string) (s : string) :
  mentions (p :: terms) s ↔ occurs_ci p s ∨ mentions terms s.
Proof.
  unfold mentions. split.
  - intros (q & Hq & H). apply elem_of_cons in Hq as [-> | Hq]; [by left|].
    right. by exists q.
  - intros [H | (q & Hq & H)].
    + exists p. split; [apply elem_of_cons; by left | done].
    + exists q. split; [apply elem_of_cons; by right | done].
Qed.

Lemma mentions_nil (s : string) : ¬ mentions [] s.
Proof. intros (q & Hq & _). by apply elem_of_nil in Hq. Qed.

Lemma endswith_nil (p : string) : endswith p "" = (String.eqb "" p || false).
Proof. reflexivity. Qed.

Lemma endswith_cons (p : string) (c : ascii) (s : string) :
  endswith p (String c s) = (String.eqb (String c s) p || endswith p s).
Proof. reflexivity. Qed.

Lemma endswith_spec (p s : string) :
  endswith p s = true ↔ has_suffix p s.
Proof.
  unfold has_suffix. induction s as [|c s IH].
  - rewrite endswith_nil, orb_false_r, String.eqb_eq. split.
    + intros <-. by exists "".
    + intros [pre H]. destruct pre; simpl in H; [done | discriminate].
  - rewrite endswith_cons, orb_true_iff, String.eqb_eq, IH. split.
    + intros [<- | [pre ->]]; [by exists "" | by exists (String c pre)].
    + intros [pre H]. destruct pre as [|d pre]; simpl in H.
      * by left.
      * right. injection H as _ ->. by exists pre.
Qed.

End StringFacts.

(* ================================================================== *)
(** * The classifier *)
(* ================================================================== *)

Section ClassifierFacts.
Import PyStr Phrase Classifier.

Lemma auto_reply_loop_hit (indicators : list string) (subject body : string) :
  mentions indicators subject ∨ mentions indicators body →
  auto_reply_loop indicators (lower subject) (lower body) = Some AUTO_REPLY.
Proof.
  induction indicators as [|i rest IH]; simpl.
  - intros [H | H]; by apply mentions_nil in H.
  - rewrite !mentions_cons. intros H.
    destruct (contains i (lower subject)) eqn:Hs; [done|].
    destruct (contains i (lower body)) eqn:Hb; [done|]. simpl.
    apply IH.
    destruct H as [[H | H] | [H | H]]; try (by left); try (by right);
      apply contains_lower in H; congruence.
Qed.

Lemma auto_reply_loop_miss (indicators : list string) (subject body : string) :
  ¬ (mentions indicators subject ∨ mentions indicators body) →
  auto_reply_loop indicators (lower subject) (lower body) = None.
Proof.
  induction indicators as [|i rest IH]; simpl; [done|].
  rewrite !mentions_cons. intros H.
  destruct (contains i (lower subject)) eqn:Hs.
  { apply contains_lower in Hs. tauto. }
  destruct (contains i (lower body)) eqn:Hb.
  { apply contains_lower in Hb. tauto. }
  simpl. apply IH. tauto.
Qed.

Lemma auto_reply_loop_cases (indicators : list string) (subject body : string) :
  (auto_reply_loop indicators (lower subject) (lower body) = Some AUTO_REPLY ∧
   (mentions indicators subject ∨ mentions indicators body)) ∨
  (auto_reply_loop indicators (lower subject) (lower body) = None ∧
   ¬ (mentions indicators subject ∨ mentions indicators body)).
Proof.
  destruct (auto_reply_loop indicators (lower subject) (lower body)) as [t|] eqn:E.
  - left. assert (mentions indicators subject ∨ mentions indicators body) as H.
    { destruct (any (fun i => contains i (lower subject)) indicators) eqn:Hs.
      { left. by apply any_contains_lower. }
      destruct (any (fun i => contains i (lower body)) indicators) eqn:Hb.
      { right. by apply any_contains_lower. }
      apply any_contains_lower_false in Hs, Hb.
      rewrite auto_reply_loop_miss in E by tauto. discriminate. }
    split; [|done]. rewrite <- E. by apply auto_reply_loop_hit.
  - right. split; [done|]. intros H.
    apply auto_reply_loop_hit in H. congruence.
Qed.

Lemma unsubscribe_check (body : string) :
  contains "unsubscribe" (lower body) || contains "opt-out" (lower body) = true ↔
  mentions ["unsubscribe"; "opt-out"] body.
Proof.
  rewrite orb_true_iff, !contains_lower, !mentions_cons.
  pose proof (mentions_nil body). tauto.
Qed.

Lemma classified_functional (subject body : string) (t1 t2 : EmailType) :
  classified subject body t1 → classified subject body t2 → t1 = t2.
Proof. destruct 1; destruct 1; done. Qed.

Lemma determine_classified (subject body sender : string) (recipients : list string) :
  classified subject body (_determine_email_type subject body sender recipients).
Proof.
  unfold _determine_email_type.
  destruct (auto_reply_loop_cases auto_reply_indicators subject body)
    as [[-> Hauto] | [-> Hauto]].
  { by apply rule_auto_reply. }
  destruct (any _ bounce_terms) eqn:Hbounce.
  { apply rule_bounce; [done|]. by apply any_contains_lower. }
  apply any_contains_lower_false in Hbounce.
  destruct (contains "unsubscribe" (lower body) || contains "opt-out" (lower body))
    eqn:Hunsub.
  { apply rule_unsubscribe; try done. by apply unsubscribe_check. }
  assert (¬ mentions ["unsubscribe"; "opt-out"] body) as Hunsub'.
  { rewrite <- unsubscribe_check. congruence. }
  destruct (any _ infra_terms) eqn:Hinfra.
  { apply rule_infra_request; try done. by apply any_contains_lower. }
  apply any_contains_lower_false in Hinfra.
  by apply rule_standard.
Qed.

Lemma out_of_office_mentioned :
  mentions auto_reply_indicators "Auto: Out of Office".
Proof.
  apply any_contains_lower. reflexivity.
Qed.

End ClassifierFacts.

(** C1. Every message gets one category, a function of (subject, body,
    sender, recipients) alone: the category the ordered rules of section
    4.3 give (auto-reply phrase in subject or body, else delivery-failure
    phrase in the subject, else "unsubscribe" or "opt-out" in the body,
    else "infra request" or "infrastructure request" in the subject, else
    STANDARD), with the phrases as [Phrase] writes them out, matching by
    substring with letter case ignored, and no other; it is never
    OUTGOING; it does not depend on sender or recipients; the subject
    "Auto: Out of Office" is AUTO_REPLY whatever the body; and the
    subject "[Infra Request] Need new server" over a body that has none
    of the phrases is INFRA_REQUEST. *)
Theorem C1_classifier_ordered_rules
    (subject body sender : string) (recipients : list string) :
  let category := Classifier._determine_email_type subject body sender recipients in
  Phrase.classified subject body category ∧
  (∀ t, Phrase.classified subject body t → t = category) ∧
  category ≠ OUTGOING ∧
  (∀ sender' recipients',
     Classifier._determine_email_type subject body sender' recipients' = category) ∧
  (∀ body',
     Classifier._determine_email_type "Auto: Out of Office" body' sender recipients
     = AUTO_REPLY) ∧
  Classifier._determine_email_type "[Infra Request] Need new server"
    "Please provision a server for the team" sender recipients
  = INFRA_REQUEST.
Proof.
  intros category.
  pose proof (determine_classified subject body sender recipients) as Hc.
  fold category in Hc.
  split; [done|]. split; [|split; [|split; [|split]]].
  - intros t Ht. by apply (classified_functional subject body).
  - by destruct Hc.
  - done.
  - intros body'.
    apply (classified_functional "Auto: Out of Office" body');
      [apply determine_classified|].
    apply Phrase.rule_auto_reply. left. apply out_of_office_mentioned.
  - reflexivity.
Qed.

(* ================================================================== *)
(** * The request parser *)
(* ================================================================== *)

Section RequestParserFacts.
Import PyStr Phrase RequestParser.

Lemma any_either (terms : list string) (subject body : string) :
  any (fun term => contains term (lower body) || contains term (lower subject)) terms
    = true ↔ either_mentions terms subject body.
Proof.
  rewrite any_spec. unfold either_mentions, mentions. split.
  - intros (p & Hp & H). apply orb_true_iff in H as [H | H];
      apply contains_lower in H; [right | left]; by exists p.
  - intros [(p & Hp & H) | (p & Hp & H)]; exists p; split; try done;
      apply orb_true_iff; [right | left]; by apply contains_lower.
Qed.

Lemma any_either_false (terms : list string) (subject body : string) :
  any (fun term => contains term (lower body) || contains term (lower subject)) terms
    = false ↔ ¬ either_mentions terms subject body.
Proof. rewrite <- any_either. by destruct (any _ _). Qed.

Lemma priority_follows_rule (subject body : string) :
  priority_rule subject body (bucket_loop priority_terms subject body "normal").
Proof.
  unfold priority_terms. cbn [bucket_loop].
  destruct (any _ ["urgent"; "asap"; "high priority"; "blocking"]) eqn:Hhigh.
  { apply priority_high. by apply any_either. }
  apply any_either_false in Hhigh.
  destruct (any _ ["low priority"; "when you can"; "not urgent"]) eqn:Hlow.
  { apply priority_low; [done|]. by apply any_either. }
  apply any_either_false in Hlow. by apply priority_normal.
Qed.

Lemma environment_follows_rule (subject body : string) :
  environment_rule subject body (bucket_loop env_terms subject body "development").
Proof.
  unfold env_terms. cbn [bucket_loop].
  destruct (any _ ["prod"; "production"; "live"]) eqn:Hprod.
  { apply environment_production. by apply any_either. }
  apply any_either_false in Hprod.
  destruct (any _ ["staging"; "pre-prod"; "preprod"]) eqn:Hstaging.
  { apply environment_staging; [done|]. by apply any_either. }
  apply any_either_false in Hstaging. by apply environment_development.
Qed.

Lemma priority_rule_functional (subject body p1 p2 : string) :
  priority_rule subject body p1 → priority_rule subject body p2 → p1 = p2.
Proof. destruct 1; destruct 1; done. Qed.

Lemma environment_rule_functional (subject body e1 e2 : string) :
  environment_rule subject body e1 → environment_rule subject body e2 → e1 = e2.
Proof. destruct 1; destruct 1; done. Qed.

Lemma urgent_subject_is_urgent (body : string) :
  either_mentions ["urgent"; "asap"; "high priority"; "blocking"]
    "[URGENT] Need production database" body.
Proof. left. apply any_contains_lower. reflexivity. Qed.

Lemma urgent_subject_is_production (body : string) :
  either_mentions ["prod"; "production"; "live"]
    "[URGENT] Need production database" body.
Proof. left. apply any_contains_lower. reflexivity. Qed.

End RequestParserFacts.

(** C7. The request parser returns the subject as title, the whole body
    as description and the sender as requestor; the priority is the one
    the rule "high, else low, else normal" of section 4.4 gives, and the
    environment the one the rule "production, else staging, else
    development" gives, each by substring match with letter case ignored
    over subject and body, and no other; the subject
    "[URGENT] Need production database" gives priority "high" and
    environment "production" with any body. Subject and body are taken
    to be ASCII text, on which [PyStr.lower] is [str.lower()]. *)
Theorem C7_request_parser_fields (subject body sender : string) :
  PyStr.is_ascii subject = true → PyStr.is_ascii body = true →
  let request := RequestParser._parse_infra_request subject body sender in
  RequestParser.title request = subject ∧
  RequestParser.description request = body ∧
  RequestParser.requestor_email request = sender ∧
  RequestParser.priority_rule subject body (RequestParser.priority request) ∧
  (∀ p, RequestParser.priority_rule subject body p →
        p = RequestParser.priority request) ∧
  RequestParser.environment_rule subject body (RequestParser.environment request) ∧
  (∀ e, RequestParser.environment_rule subject body e →
        e = RequestParser.environment request) ∧
  (∀ body',
     let urgent :=
       RequestParser._parse_infra_request
         "[URGENT] Need production database" body' sender in
     RequestParser.priority urgent = "high" ∧
     RequestParser.environment urgent = "production").
Proof.
  intros _ _.
  cbn zeta. cbn [RequestParser._parse_infra_request RequestParser.title
    RequestParser.description RequestParser.requestor_email
    RequestParser.priority RequestParser.environment].
  pose proof (priority_follows_rule subject body) as Hp.
  pose proof (environment_follows_rule subject body) as He.
  repeat split; try done.
  - intros p H. by apply (priority_rule_functional subject body).
  - intros e H. by apply (environment_rule_functional subject body).
  - apply (priority_rule_functional "[URGENT] Need production database" body');
      [apply priority_follows_rule|].
    apply RequestParser.priority_high, urgent_subject_is_urgent.
  - apply (environment_rule_functional "[URGENT] Need production database" body');
      [apply environment_follows_rule|].
    apply RequestParser.environment_production, urgent_subject_is_production.
Qed.

(** A request of the test suite: an urgent subject and a body that asks
    for staging; the subject decides both fields. *)
Lemma C7_request_parser_fields_witness :
  RequestParser.priority
    (RequestParser._parse_infra_request "[URGENT] Need production database"
       "Please set it up on staging first" "test@example.com") = "high" ∧
  RequestParser.environment
    (RequestParser._parse_infra_request "[URGENT] Need production database"
       "Please set it up on staging first" "test@example.com") = "production".
Proof.
  destruct (C7_request_parser_fields "[URGENT] Need production database"
              "Please set it up on staging first" "test@example.com"
              eq_refl eq_refl)
    as (_ & _ & _ & _ & _ & _ & _ & Hurgent).
  exact (Hurgent "Please set it up on staging first").
Defined.

(* ================================================================== *)
(** * Recipient validation *)
(* ================================================================== *)

Section RecipientFacts.
Import PyStr Phrase Monitor.
Variable env : Env.

(** The suffix a recipient must have. *)
Let suffix : string := "@" +:+ settings_EMAIL_DOMAIN env.

Lemma handle_RCPT_accepts (envelope : Envelope) (address : string) :
  has_suffix suffix address →
  handle_RCPT env envelope address =
    (reply_ok,
     {| mail_from := mail_from envelope;
        rcpt_tos := (rcpt_tos envelope ++ [address])%list;
        original_content := original_content envelope |}).
Proof.
  intros H. apply endswith_spec in H. unfold handle_RCPT.
  fold suffix. by rewrite H.
Qed.

Lemma handle_RCPT_rejects (envelope : Envelope) (address : string) :
  ¬ has_suffix suffix address →
  handle_RCPT env envelope address = (reply_rejected, envelope).
Proof.
  intros H. unfold handle_RCPT. fold suffix.
  destruct (endswith suffix address) eqn:E; [|done].
  by apply endswith_spec in E.
Qed.

(** A run of RCPT commands: the world is not touched, each address is
    answered on its own, and the accepted ones are appended in order. *)
Lemma run_RCPT (addresses : list string) (envelope : Envelope) (w : World) :
  let result := run env (envelope, w) (RCPT <$> addresses) in
  result.2.2 = w ∧
  mail_from result.2.1 = mail_from envelope ∧
  original_content result.2.1 = original_content envelope ∧
  rcpt_tos result.2.1 =
    (rcpt_tos envelope ++ List.filter (endswith suffix) addresses)%list ∧
  result.1 =
    (fun a => if endswith suffix a then reply_ok else reply_rejected) <$> addresses.
Proof.
  revert envelope. induction addresses as [|a rest IH]; intros envelope.
  - simpl. by rewrite app_nil_r.
  - cbn [fmap list_fmap run step List.filter].
    change (list_fmap _ _ RCPT rest) with (RCPT <$> rest).
    destruct (endswith suffix a) eqn:E.
    + rewrite handle_RCPT_accepts by by apply endswith_spec.
      specialize (IH {| mail_from := mail_from envelope;
                        rcpt_tos := (rcpt_tos envelope ++ [a])%list;
                        original_content := original_content envelope |}).
      cbn zeta in IH.
      destruct (run env _ (RCPT <$> rest)) as [replies [envelope' w']].
      cbn in *. destruct IH as (Hw & Hm & Ho & Hr & Hreplies).
      rewrite Hr, <- app_assoc. by subst.
    + rewrite handle_RCPT_rejects
        by (rewrite <- endswith_spec; congruence).
      specialize (IH envelope). cbn zeta in IH.
      destruct (run env _ (RCPT <$> rest)) as [replies [envelope' w']].
      cbn in *. destruct IH as (Hw & Hm & Ho & Hr & Hreplies).
      by subst.
Qed.

End RecipientFacts.

(** C8. A proposed recipient is accepted exactly when it ends with "@"
    followed by the configured domain. An accepted recipient is answered
    "250 OK", a success, and appended to the envelope; any other is
    answered "550 Not relaying to that domain", a permanent failure, and
    leaves the envelope as it was. Neither touches the store, so no
    record exists after a rejection; and in a session of several RCPT
    commands each address is answered on its own, the accepted ones
    being kept in order whatever was rejected before them. *)
Theorem C8_recipient_validation
    (env : Env) (envelope : Monitor.Envelope) (w : World) (address : string)
    (addresses : list string) :
  let suffix := "@" +:+ settings_EMAIL_DOMAIN env in
  let accepted := PyStr.endswith suffix in
  (accepted address = true ↔ Phrase.has_suffix suffix address) ∧
  (Phrase.has_suffix suffix address →
     Monitor.step env (envelope, w) (Monitor.RCPT address) =
       ("250 OK",
        ({| Monitor.mail_from := Monitor.mail_from envelope;
            Monitor.rcpt_tos := (Monitor.rcpt_tos envelope ++ [address])%list;
            Monitor.original_content := Monitor.original_content envelope |},
         w)) ∧
     Monitor.reply_class "250 OK" = Some "2"%char) ∧
  (¬ Phrase.has_suffix suffix address →
     Monitor.step env (envelope, w) (Monitor.RCPT address) =
       ("550 Not relaying to that domain", (envelope, w)) ∧
     Monitor.reply_class "550 Not relaying to that domain" = Some "5"%char) ∧
  (let result := Monitor.run env (envelope, w) (Monitor.RCPT <$> addresses) in
   result.2.2 = w ∧
   Monitor.rcpt_tos result.2.1 =
     (Monitor.rcpt_tos envelope ++ List.filter accepted addresses)%list ∧
   result.1 =
     (fun a => if accepted a then "250 OK"
               else "550 Not relaying to that domain")
       <$> addresses).
Proof.
  cbn zeta. split; [apply endswith_spec|]. split; [|split].
  - intros H. cbn [Monitor.step]. by rewrite handle_RCPT_accepts.
  - intros H. cbn [Monitor.step]. by rewrite handle_RCPT_rejects.
  - pose proof (run_RCPT env addresses envelope w) as H. cbn zeta in H.
    by destruct H as (? & _ & _ & ? & ?).
Qed.

(* ================================================================== *)
(** * Rules for coroutines *)
(* ================================================================== *)

Section TripleRules.
Context {A B : Type}.

Lemma triple_bind (P : World → Prop) (c : M A) (k : A → M B)
    (R : A → World → Prop) Q E :
  triple P c R E → (∀ a, triple (R a) (k a) Q E) → triple P (bind c k) Q E.
Proof.
  intros Hc Hk w Hw. specialize (Hc w Hw). unfold bind.
  destruct (c w) as [[a|text] w']; [by apply Hk | done].
Qed.

Lemma triple_try_except (P : World → Prop) (c : M A) (handler : string → M A)
    (E' : string → World → Prop) Q E :
  triple P c Q E' → (∀ text, triple (E' text) (handler text) Q E) →
  triple P (try_except c handler) Q E.
Proof.
  intros Hc Hh w Hw. specialize (Hc w Hw). unfold try_except.
  destruct (c w) as [[a|text] w']; [done | by apply Hh].
Qed.

Lemma triple_weaken (P P' : World → Prop) (c : M A)
    (Q Q' : A → World → Prop) (E E' : string → World → Prop) :
  triple P' c Q' E' →
  (∀ w, P w → P' w) → (∀ a w, Q' a w → Q a w) → (∀ t w, E' t w → E t w) →
  triple P c Q E.
Proof.
  intros Hc HP HQ HE w Hw. specialize (Hc w (HP w Hw)).
  destruct (c w) as [[a|text] w']; [by apply HQ | by apply HE].
Qed.

End TripleRules.

(** ** Coroutines that keep what is known of the record *)

(** Most of the processor touches the world in three ways only: it
    assigns to the attributes [status], [error], [metadata] and
    [processed_at] of the record object, it commits, and it logs. A
    property [I] of the pair (record object, stored row) that these
    leave alone is kept by all of it. *)
Section Keeps.
Variable I : option Email → option Email → Prop.

#[local] Abbreviation known := (about_record I).

Hypothesis I_stable : stable I.

Let I_status := stable_status I I_stable.
Let I_error := stable_error I I_stable.
Let I_metadata := stable_metadata I I_stable.
Let I_processed_at := stable_processed_at I I_stable.
Let I_commit := stable_commit I I_stable.

Lemma keeps_ret {A} (a : A) : keeps known (ret a).
Proof. intros w Hw. exact Hw. Qed.

Lemma keeps_raise {A} (text : string) : keeps known (raise (A := A) text).
Proof. intros w Hw. exact Hw. Qed.

Lemma keeps_lift {A} (r : Result A) : keeps known (lift r).
Proof. intros w Hw. unfold lift. by destruct r. Qed.

Lemma keeps_bind {A B} (c : M A) (k : A → M B) :
  keeps known c → (∀ a, keeps known (k a)) →
  keeps known (bind c k).
Proof. intros Hc Hk. by eapply triple_bind. Qed.

Lemma keeps_try_except {A} (c : M A) (handler : string → M A) :
  keeps known c → (∀ text, keeps known (handler text)) →
  keeps known (try_except c handler).
Proof. intros Hc Hh. by eapply triple_try_except. Qed.

Lemma keeps_log_event (e : Event) : keeps known (log_event e).
Proof. intros w Hw. exact Hw. Qed.

Lemma keeps_draw_id (env : Env) : keeps known (draw_id env).
Proof. intros w Hw. exact Hw. Qed.

Lemma keeps_read_email : keeps known read_email.
Proof. intros w Hw. unfold read_email. by destruct (db_email w). Qed.

Lemma keeps_gets {A} (f : World → A) : keeps known (gets f).
Proof. intros w Hw. exact Hw. Qed.

Lemma keeps_set_status (s : EmailStatus) :
  keeps known (update_email (set_status s)).
Proof.
  intros w Hw. unfold update_email, about_record in *.
  destruct (db_email w) eqn:E; [by apply I_status | by rewrite E].
Qed.

Lemma keeps_set_error (t : string) :
  keeps known (update_email (set_error t)).
Proof.
  intros w Hw. unfold update_email, about_record in *.
  destruct (db_email w) eqn:E; [by apply I_error | by rewrite E].
Qed.

Lemma keeps_set_metadata (k : string) (v : MetaValue) :
  keeps known (update_email (set_metadata k v)).
Proof.
  intros w Hw. unfold update_email, about_record in *.
  destruct (db_email w) eqn:E; [by apply I_metadata | by rewrite E].
Qed.

Lemma keeps_set_processed_at (t : nat) :
  keeps known (update_email (set_processed_at t)).
Proof.
  intros w Hw. unfold update_email, about_record in *.
  destruct (db_email w) eqn:E; [by apply I_processed_at | by rewrite E].
Qed.

Lemma keeps_commit (outcome : Result unit) : keeps known (commit outcome).
Proof.
  unfold commit. apply keeps_bind; [apply keeps_log_event | intros _].
  apply keeps_bind; [apply keeps_lift | intros _].
  intros w Hw. unfold about_record in *. simpl. by eapply I_commit.
Qed.

Create HintDb keeps discriminated.
#[local] Hint Resolve keeps_ret keeps_raise keeps_lift keeps_log_event keeps_draw_id
  keeps_read_email keeps_gets keeps_set_status keeps_set_error
  keeps_set_metadata keeps_set_processed_at keeps_commit : keeps.

(** Takes a coroutine apart along its binds and handlers. *)
Ltac keeps_steps :=
  repeat
    first
      [ solve [eauto with keeps]
      | apply keeps_bind; [|intros ?]
      | apply keeps_try_except; [|intros ?] ].

Lemma keeps_extract_part (env : Env) (part : Mime.Message)
    (acc : Extractor.Extracted) :
  keeps known (Extractor.extract_part env part acc).
Proof.
  unfold Extractor.extract_part. destruct acc as [[b ct] atts].
  repeat case_match; keeps_steps.
Qed.

Lemma keeps_for_parts (env : Env) (parts : list Mime.Message)
    (acc : Extractor.Extracted) :
  keeps known (Extractor.for_parts env parts acc).
Proof.
  revert acc. induction parts as [|part rest IH]; intros acc; simpl.
  - apply keeps_ret.
  - apply keeps_bind; [apply keeps_extract_part | intros acc'; apply IH].
Qed.

Lemma keeps_extract_email_content (env : Env) (msg : Mime.Message) :
  keeps known (Extractor._extract_email_content env msg).
Proof.
  unfold Extractor._extract_email_content.
  destruct msg; [|apply keeps_for_parts].
  case_match; apply keeps_ret.
Qed.

Lemma keeps_add_attachment_row (row : AttachmentRow) :
  keeps known (Processor.add_attachment_row row).
Proof. intros w Hw. exact Hw. Qed.

Lemma keeps_for_attachments (env : Env) (email_id : string)
    (attachments : list Attachment) :
  keeps known (Processor.for_attachments env email_id attachments).
Proof.
  induction attachments as [|a rest IH]; simpl; [apply keeps_ret|].
  apply keeps_bind; [|intros _; apply IH].
  apply keeps_try_except; [|intros _; apply keeps_ret].
  apply keeps_bind; [apply keeps_lift | intros _].
  apply keeps_add_attachment_row.
Qed.

Lemma keeps_process_attachments (env : Env) (email_id : string)
    (attachments : list Attachment) :
  keeps known (Processor._process_attachments env email_id attachments).
Proof.
  unfold Processor._process_attachments.
  apply keeps_bind; [apply keeps_for_attachments | intros _; apply keeps_commit].
Qed.

Lemma keeps_send_confirmation_email (env : Env) (response : gmap string string) :
  keeps known (Processor._send_confirmation_email env response).
Proof. unfold Processor._send_confirmation_email. keeps_steps. Qed.

Lemma keeps_send_unsubscribe_confirmation (env : Env) :
  keeps known (Processor._send_unsubscribe_confirmation env).
Proof. unfold Processor._send_unsubscribe_confirmation. keeps_steps. Qed.

Lemma keeps_handle_infra_request (env : Env) (body : string) :
  keeps known (Processor._handle_infra_request env body).
Proof.
  unfold Processor._handle_infra_request. keeps_steps.
Qed.

Lemma keeps_route_email (env : Env) (email_type : EmailType) (body : string) :
  keeps known (Processor._route_email env email_type body).
Proof.
  assert (keeps known Processor._handle_standard_email) as Hstandard.
  { unfold Processor._handle_standard_email. keeps_steps. }
  assert (keeps known (Processor._handle_unsubscribe env)) as Hunsubscribe.
  { unfold Processor._handle_unsubscribe.
    apply keeps_bind; [apply keeps_read_email | intros _].
    apply keeps_send_unsubscribe_confirmation. }
  unfold Processor._route_email.
  apply keeps_bind; [|intros _; keeps_steps].
  apply keeps_try_except; [|intros text; keeps_steps].
  apply keeps_bind; [|intros _; apply keeps_set_status].
  unfold Processor.handler_of.
  destruct email_type; try done. apply keeps_handle_infra_request.
Qed.

Lemma process_email_except_keeps (env : Env) (text : string) :
  triple known (Processor.process_email_except env text)
    (fun _ => known) (fun _ _ => False).
Proof.
  unfold Processor.process_email_except.
  eapply triple_bind with (R := fun _ => known);
    [|intros ? w Hw; exact Hw].
  eapply triple_try_except with (E' := fun _ => known);
    [|intros ? w Hw; exact Hw].
  apply keeps_bind; [apply keeps_gets | intros bound].
  destruct bound; [|apply keeps_ret]. keeps_steps.
Qed.

End Keeps.

(** ** [process_email] in two phases *)

(** Until the record is created the world is in [I1]; once it is bound to
    [db_email] the world is in [I2]. *)
Section TwoPhases.
Variables I1 I2 : option Email → option Email → Prop.
Hypothesis I1_stable : stable I1.
Hypothesis I2_stable : stable I2.
Hypothesis I1_unbound : ∀ d row, I1 d row → I1 None row.

Variable env : Env.
Variable msg : Mime.Message.
Variables (sender : string) (recipients : list string).

(** Every record [process_email] may create for [msg] is in [I2] once
    stored and bound. *)
Hypothesis I2_created :
  ∀ row_id message_id in_reply_to references body content_type email_type,
    let e :=
      Processor.new_email row_id message_id in_reply_to references sender
        (PyStr.join "," recipients)
        (PyStr.strip (Mime.get msg "Subject" "No Subject"))
        body content_type email_type (Mime.headers (Mime.info msg)) in
    I2 (Some e) (Some e).

(** And it is in [I2] as a stored row, when the refresh that follows
    the commit raises and no object is bound. *)
Hypothesis I2_stored :
  ∀ row_id message_id in_reply_to references body content_type email_type d row,
    let e :=
      Processor.new_email row_id message_id in_reply_to references sender
        (PyStr.join "," recipients)
        (PyStr.strip (Mime.get msg "Subject" "No Subject"))
        body content_type email_type (Mime.headers (Mime.info msg)) in
    I1 d row → I2 d (Some e).

Lemma save_email_cases (make : string → Email) (w : World) :
  match Processor._save_email env make w with
  | (Ok e, w1) =>
      ∃ row_id, save_outcome env = Ok row_id ∧ e = make row_id ∧
                stored w1 = Some e ∧ db_email w1 = db_email w ∧
                refresh_outcome env = Ok tt
  | (Raise text, w1) =>
      db_email w1 = db_email w ∧
      ((save_outcome env = Raise text ∧ stored w1 = stored w) ∨
       (∃ row_id, save_outcome env = Ok row_id ∧
                  refresh_outcome env = Raise text ∧
                  stored w1 = Some (make row_id)))
  end.
Proof.
  unfold Processor._save_email, bind, log_event, modify, lift, ret.
  destruct (save_outcome env) as [row_id|text]; simpl; [|by auto].
  destruct (refresh_outcome env) as [[]|text]; simpl.
  - by exists row_id.
  - split; [done|]. right. by exists row_id.
Qed.

Lemma bound_then_rest {A} (e : Email) (rest : unit → M A) :
  I2 (Some e) (Some e) → (∀ u, keeps (about_record I2) (rest u)) →
  triple (fun w => stored w = Some e)
    (bind (Processor.assign_db_email e) rest)
    (fun _ => about_record I2) (fun _ => about_record I2).
Proof.
  intros He Hrest. eapply triple_bind; [|intros ?; apply Hrest].
  intros w Hw. unfold about_record. simpl. by rewrite Hw.
Qed.

Lemma process_email_body_phases :
  triple (about_record I1)
    (Processor.process_email_body env msg sender recipients)
    (fun _ => about_record I2)
    (fun _ w => about_record I1 w ∨ about_record I2 w).
Proof.
  unfold Processor.process_email_body.
  eapply triple_bind.
  { eapply triple_weaken; [apply (keeps_draw_id I1) | done | | ].
    - intros a w Hw. exact Hw.
    - intros t w Hw. left. exact Hw. }
  intros fresh. eapply triple_bind.
  { eapply triple_weaken;
      [apply (keeps_extract_email_content I1) | done | | ].
    - intros a w Hw. exact Hw.
    - intros t w Hw. left. exact Hw. }
  intros [[body content_type] attachments] w Hw. unfold bind at 1.
  match goal with
  | |- context [Processor._save_email env ?make w] =>
      pose proof (save_email_cases make w) as Hsave;
      destruct (Processor._save_email env make w) as [[e|text] w1]
  end.
  - destruct Hsave as (row_id & _ & -> & Hstored & _).
    match goal with
    | |- context [bind (Processor.assign_db_email ?e) ?rest w1] =>
        assert (∀ u, keeps (about_record I2) (rest u)) as Hrest;
        [| pose proof (bound_then_rest e rest (I2_created _ _ _ _ _ _ _)
                         Hrest w1 Hstored) as H;
           destruct (bind (Processor.assign_db_email e) rest w1)
             as [[a|t] w2]; [exact H | by right] ]
    end.
    intros ?. apply (keeps_bind I2).
    { case_match; [apply keeps_ret | by apply keeps_process_attachments]. }
    intros ?. apply (keeps_bind I2); [by apply keeps_route_email | intros ?].
    apply (keeps_bind I2); [apply keeps_read_email | intros ?; apply keeps_ret].
  - destruct Hsave as (Hd & [(_ & Hs) | (row_id & _ & _ & Hs)]).
    + left. unfold about_record in *. by rewrite Hd, Hs.
    + right. unfold about_record in *. rewrite Hd, Hs.
      by eapply I2_stored.
Qed.

Lemma process_email_phases :
  triple (about_record I1)
    (Processor.process_email env msg sender recipients)
    (fun _ w => about_record I1 w ∨ about_record I2 w)
    (fun _ _ => False).
Proof.
  unfold Processor.process_email.
  eapply triple_bind with (R := fun _ => about_record I1).
  { intros w Hw. by apply I1_unbound in Hw. }
  intros _. eapply triple_try_except.
  { eapply triple_weaken; [apply process_email_body_phases | done | | done].
    intros a w Hw. right. exact Hw. }
  intros text w [Hw | Hw].
  - pose proof (process_email_except_keeps I1 I1_stable env text w Hw) as H.
    destruct (Processor.process_email_except env text w) as [[a|t] w'];
      [by left | done].
  - pose proof (process_email_except_keeps I2 I2_stable env text w Hw) as H.
    destruct (Processor.process_email_except env text w) as [[a|t] w'];
      [by right | done].
Qed.

End TwoPhases.

(* ================================================================== *)
(** * The stored subject *)
(* ================================================================== *)

Section StripFacts.
Import PyStr Phrase.

Lemma append_String (c : ascii) (a b : string) :
  String c a +:+ b = String c (a +:+ b).
Proof. reflexivity. Qed.

Lemma append_empty (b : string) : "" +:+ b = b.
Proof. reflexivity. Qed.

Lemma lstrip_spec (s : string) :
  ∃ lead, s = lead +:+ lstrip s ∧ all_space lead = true ∧
          ∀ c rest, lstrip s = String c rest → isspace c = false.
Proof.
  induction s as [|c s (lead & Hs & Hlead & Hhead)]; simpl.
  - by exists "".
  - destruct (isspace c) eqn:Hc.
    + exists (String c lead). simpl. rewrite Hc, Hlead, append_String, <- Hs.
      done.
    + exists "". repeat split. intros c' rest [= <- _]. done.
Qed.

Lemma rstrip_spec (s : string) :
  ∃ trail, s = rstrip s +:+ trail ∧ all_space trail = true ∧
           ∀ pre c, rstrip s = pre +:+ String c "" → isspace c = false.
Proof.
  induction s as [|c s (trail & Hs & Htrail & Hlast)]; simpl.
  - exists "". repeat split. intros [|? ?] c; discriminate.
  - destruct (rstrip s) as [|d r] eqn:Hr.
    + rewrite append_empty in Hs. subst trail. destruct (isspace c) eqn:Hc.
      * exists (String c s). simpl. rewrite Hc, Htrail. repeat split.
        intros [|? ?] c'; discriminate.
      * exists s. repeat split; [done|].
        intros [|? [|? ?]] c'; rewrite ?append_String, ?append_empty;
          intros [= ]; by subst.
    + exists trail. rewrite append_String, <- Hs. repeat split; [done|].
      intros [|c0 pre] c'; rewrite ?append_String, ?append_empty.
      * intros [= ].
      * intros [= _ H]. by eapply Hlast.
Qed.

Lemma rstrip_head (s : string) :
  (∀ c rest, s = String c rest → isspace c = false) →
  ∀ c rest, rstrip s = String c rest → isspace c = false.
Proof.
  destruct s as [|d s]; simpl; [done|]. intros H c rest.
  specialize (H d s eq_refl). rewrite H.
  destruct (rstrip s); intros [= <- _]; done.
Qed.

Lemma strip_spec (v : string) : stripped_of v (strip v).
Proof.
  unfold strip.
  destruct (lstrip_spec v) as (lead & Hv & Hlead & Hhead).
  destruct (rstrip_spec (lstrip v)) as (trail & Hl & Htrail & Hlast).
  exists lead, trail. repeat split; try done.
  - by rewrite <- Hl.
  - by apply rstrip_head.
Qed.

End StripFacts.

Section StableFacts.

Lemma nothing_yet_stable : stable nothing_yet.
Proof. split; unfold nothing_yet; intros; intuition congruence. Qed.

Lemma object_bound_stable : stable object_bound.
Proof. by split. Qed.

Lemma subject_is_stable (x : string) : stable (subject_is x).
Proof.
  split; unfold subject_is.
  - intros e row s [Hd Hr]. split; [|done]. intros ? [= <-]. simpl. by apply Hd.
  - intros e row s [Hd Hr]. split; [|done]. intros ? [= <-]. simpl. by apply Hd.
  - intros e row k v [Hd Hr]. split; [|done]. intros ? [= <-]. simpl. by apply Hd.
  - intros e row s [Hd Hr]. split; [|done]. intros ? [= <-]. simpl. by apply Hd.
  - by intros o row [Hd _].
Qed.

End StableFacts.

(** C10. The record stored for a message has as subject the value of
    the Subject header without its leading and trailing white space; for
    a message with no Subject header it is exactly "No Subject". The
    header value is taken to be ASCII text, for which [msg.get] gives a
    [str] and [strip] removes the white space of [PyStr.isspace]. *)
Theorem C10_stored_subject
    (env : Env) (msg : Mime.Message) (sender : string) (recipients : list string)
    (drawn : nat) (log : list Event) (r : Email) :
  PyStr.is_ascii (Mime.get msg "Subject" "No Subject") = true →
  stored (Processor.process_email env msg sender recipients
            (new_session drawn log)).2 = Some r →
  subject r = PyStr.strip (Mime.get msg "Subject" "No Subject") ∧
  (Mime.get_header "Subject" (Mime.headers (Mime.info msg)) = None →
   subject r = "No Subject") ∧
  (∀ v, Mime.get_header "Subject" (Mime.headers (Mime.info msg)) = Some v →
        subject r = PyStr.strip v ∧ Phrase.stripped_of v (subject r)).
Proof.
  intros _ Hr.
  set (x := PyStr.strip (Mime.get msg "Subject" "No Subject")).
  assert (subject r = x) as Hx.
  { assert (∀ d row, subject_is x d row → subject_is x None row) as Hunbound
      by (by intros d row [_ Hrow]).
    pose proof (process_email_phases (subject_is x) (subject_is x)
                  (subject_is_stable x) (subject_is_stable x) Hunbound
                  env msg sender recipients) as H.
    assert (about_record (subject_is x) (new_session drawn log)) as Hnew
      by (by split).
    apply H in Hnew;
      [clear H
      | by intros; split; intros ? [= <-]
      | by intros ? ? ? ? ? ? ? d row e [Hd _]; split; [|intros ? [= <-]] ].
    destruct (Processor.process_email _ _ _ _ _) as [[a|t] w']; [|done].
    simpl in Hr. destruct Hnew as [[_ H] | [_ H]]; by apply H. }
  split; [done|]. rewrite Hx. unfold x, Mime.get. split.
  - by intros ->.
  - intros v ->. split; [done|]. apply strip_spec.
Qed.

(** The message of the test suite with its subject line taken away is
    stored under "No Subject". *)
Lemma C10_stored_subject_witness :
  ∃ r,
    stored (Processor.process_email Fixtures.calm
              (Fixtures.simple_message None "This is a test email body")
              "test@example.com" ["recipient@example.com"]
              (new_session 0 [])).2 = Some r ∧
    subject r = "No Subject".
Proof.
  eexists. split; [vm_compute; reflexivity|].
  eapply (C10_stored_subject Fixtures.calm
            (Fixtures.simple_message None "This is a test email body")
            "test@example.com" ["recipient@example.com"] 0 []).
  - reflexivity.
  - vm_compute. reflexivity.
  - reflexivity.
Defined.

(* ================================================================== *)
(** * [process_email] never lets an exception out *)
(* ================================================================== *)

Section ProcessEmailFacts.
Variable env : Env.

(** What the [except] block does from a world [w]. *)
Lemma process_email_except_result (text : string) (w : World) :
  ∃ w', Processor.process_email_except env text w = (Ok None, w') ∧
    match db_email w with
    | Some e =>
        db_email w' = Some (set_error text (set_status FAILED e)) ∧
        match error_commit env with
        | Ok _ => stored w' = db_email w'
        | Raise _ => stored w' = stored w
        end
    | None => w' = w
    end.
Proof.
  unfold Processor.process_email_except, try_except, bind, gets, commit,
    update_email, bind, log_event, modify, lift, ret.
  destruct w as [[e|] row added kept drawn log]; simpl.
  - destruct (error_commit env) as [[]|t]; simpl; eexists;
      (split; [reflexivity|]); simpl; split; done.
  - by eexists.
Qed.

Lemma process_email_never_raises (msg : Mime.Message) (sender : string)
    (recipients : list string) :
  never_raises (Processor.process_email env msg sender recipients).
Proof.
  intros w.
  pose proof (process_email_phases (fun _ _ => True) (fun _ _ => True)
                ltac:(by split) ltac:(by split) ltac:(done)
                env msg sender recipients ltac:(done) ltac:(done) w I) as H.
  destruct (Processor.process_email env msg sender recipients w)
    as [[a|t] w']; [by exists a, w' | done].
Qed.




End ProcessEmailFacts.



(** The store commits the new row and fails to read it back: the call
    returns [None] after the one call to the store, and the row is there,
    RECEIVED, with no record object bound to it. *)
Lemma refresh_failure_leaves_the_row :
  Processor.process_email Samples.refresh_down
    (Fixtures.simple_message (Some "Test Subject") "This is a test email body")
    "test@example.com" ["recipient@example.com"] (new_session 0 [])
  = (Ok None,
     {| db_email := None;
        stored :=
          Some (Rows.created Samples.refresh_down
                  (Fixtures.simple_message (Some "Test Subject")
                     "This is a test email body")
                  "test@example.com" ["recipient@example.com"] 0
                  "1" "This is a test email body" "text/plain");
        added_attachments := []; stored_attachments := [];
        ids_drawn := 1; events := [EvCreateRecord] |}).
Proof. vm_compute. reflexivity. Qed.

(* ================================================================== *)
(** * The routing handler *)
(* ================================================================== *)

(** Unfolds the coroutines of the routing handler down to the outcomes
    of the collaborators. *)
Ltac unfold_coroutines :=
  repeat progress unfold Processor._route_email, Processor.handler_of,
    Processor._handle_infra_request, Processor._handle_unsubscribe,
    Processor._handle_standard_email, Processor._send_confirmation_email,
    Processor._send_unsubscribe_confirmation,
    try_except, bind, commit, read_email, update_email, log_event, modify,
    gets, lift, raise, ret.

(** Takes the cases of every outcome the goal still waits for. *)
Ltac split_outcomes :=
  repeat (simpl; unfold_coroutines;
    match goal with
    | |- context [match ?r with Ok _ => _ | Raise _ => _ end] =>
        destruct r as [?|?] eqn:?
    end); simpl.

Section RouteFacts.
Variable env : Env.

(** Whatever the category and whatever the handler does, the record
    leaves the routing handler PROCESSED or FAILED, with the time of this
    call as [processed_at]. *)
Lemma route_email_sets (email_type : EmailType) (body : string)
    (w : World) (e : Email) :
  db_email w = Some e →
  ∃ e', db_email (Processor._route_email env email_type body w).2 = Some e' ∧
        (status e' = PROCESSED ∨ status e' = FAILED) ∧
        processed_at e' = Some (utcnow env).
Proof.
  destruct w as [d row added kept drawn log]. simpl. intros ->.
  destruct email_type; unfold_coroutines; split_outcomes;
    eexists; (split; [reflexivity|]); simpl; auto.
Qed.

Lemma logged_by_app {A} (c : M A) (w : World) (new : list Event) :
  events (c w).2 = (events w ++ new)%list → logged_by c w = new.
Proof. unfold logged_by. intros ->. apply drop_app_length. Qed.

(** The infrastructure request when the API call raises. *)
Lemma route_infra_request_api_raises (body : string) (w : World) (e : Email)
    (text : string) :
  db_email w = Some e →
  api_outcome env
    (RequestParser._parse_infra_request (subject e) body (sender e))
    (sender e) = Raise text →
  db_email (Processor._route_email env INFRA_REQUEST body w).2 =
    Some (set_processed_at (utcnow env) (set_error text (set_status FAILED e))) ∧
  logged_by (Processor._route_email env INFRA_REQUEST body) w =
    [ EvApiCall (RequestParser._parse_infra_request (subject e) body (sender e))
        (sender e);
      EvCommit ].
Proof.
  destruct w as [d row added kept drawn log]. simpl. intros -> Hapi.
  split; [|apply logged_by_app];
    unfold_coroutines; simpl; rewrite Hapi; split_outcomes;
    rewrite <- ?app_assoc; reflexivity.
Qed.

(** The infrastructure request when the API call returns: the record is
    PROCESSED whatever becomes of the confirmation. *)
Lemma route_infra_request_api_returns (body : string) (w : World) (e : Email)
    (response : gmap string string) :
  db_email w = Some e →
  api_outcome env
    (RequestParser._parse_infra_request (subject e) body (sender e))
    (sender e) = Ok response →
  (∃ e', db_email (Processor._route_email env INFRA_REQUEST body w).2 = Some e' ∧
         status e' = PROCESSED ∧ error e' = error e) ∧
  List.filter is_api_call
    (logged_by (Processor._route_email env INFRA_REQUEST body) w) =
    [ EvApiCall (RequestParser._parse_infra_request (subject e) body (sender e))
        (sender e) ].
Proof.
  destruct w as [d row added kept drawn log]. simpl. intros -> Hapi.
  split.
  - unfold_coroutines. simpl. rewrite Hapi. split_outcomes;
      eexists; (split; [reflexivity|]); by simpl.
  - assert (∃ new,
      events (Processor._route_email env INFRA_REQUEST body
                {| db_email := Some e; stored := row;
                   added_attachments := added; stored_attachments := kept;
                   ids_drawn := drawn; events := log |}).2 =
        (log ++ EvApiCall
                  (RequestParser._parse_infra_request (subject e) body (sender e))
                  (sender e) :: new)%list ∧
      List.filter is_api_call new = []) as (new & Hnew & Hfilter).
    { unfold_coroutines. simpl. rewrite Hapi. split_outcomes;
        rewrite <- ?app_assoc; eexists; (split; [reflexivity|]); reflexivity. }
    erewrite logged_by_app by exact Hnew. simpl. by rewrite Hfilter.
Qed.

End RouteFacts.

(** C3, as amended. For an infrastructure request the API is called
    once. When that call raises, the routing handler catches the
    exception and the record becomes FAILED with the exception text as
    its error. When the call returns, the record becomes PROCESSED and
    its error is left as it was, whatever the confirmation step does: an
    exception raised there is caught inside that step. *)
Theorem C3_infra_request_failures
    (env : Env) (body : string) (w : World) (e : Email) :
  db_email w = Some e →
  let request :=
    RequestParser._parse_infra_request (subject e) body (sender e) in
  let run := Processor._route_email env INFRA_REQUEST body in
  List.filter is_api_call (logged_by run w) = [EvApiCall request (sender e)] ∧
  match api_outcome env request (sender e) with
  | Raise text =>
      ∃ e', db_email (run w).2 = Some e' ∧
            status e' = FAILED ∧ error e' = Some text
  | Ok response =>
      ∃ e', db_email (run w).2 = Some e' ∧
            status e' = PROCESSED ∧ error e' = error e
  end.
Proof.
  intros Hbound request run.
  destruct (api_outcome env request (sender e)) as [response|text] eqn:Hapi.
  - destruct (route_infra_request_api_returns env body w e response Hbound Hapi)
      as [Hrecord Hlog]. by split.
  - destruct (route_infra_request_api_raises env body w e text Hbound Hapi)
      as [Hrecord Hlog]. split.
    + unfold run. by rewrite Hlog.
    + eexists. split; [exact Hrecord | by simpl].
Qed.

(** An infrastructure request whose API call goes through is PROCESSED. *)
Lemma C3_infra_request_failures_witness :
  ∃ e',
    db_email
      (Processor._route_email Fixtures.calm INFRA_REQUEST "Need a new server"
         (Fixtures.holding Fixtures.infra_record)).2
      = Some e' ∧
    status e' = PROCESSED.
Proof.
  destruct (C3_infra_request_failures Fixtures.calm "Need a new server"
              (Fixtures.holding Fixtures.infra_record) Fixtures.infra_record
              eq_refl) as [_ (e' & He' & Hs & _)].
  exists e'. by split.
Defined.

(** C3, as stated, fails: the template service raises during the
    confirmation step of an infrastructure request, and the record ends
    PROCESSED with no error. *)
Lemma C3_confirmation_failure_is_swallowed :
  get_template_outcome Fixtures.template_missing "infra_request_confirmation"
    = Raise "template not found" ∧
  ∃ e',
    db_email
      (Processor._route_email Fixtures.template_missing INFRA_REQUEST
         "Need a new server" (Fixtures.holding Fixtures.infra_record)).2
      = Some e' ∧
    status e' = PROCESSED ∧ status e' ≠ FAILED ∧ error e' = None.
Proof.
  split; [reflexivity|]. eexists. split; [vm_compute; reflexivity|].
  by repeat split.
Qed.

(** C4, as amended. When the API call of an infrastructure request
    raises, the record becomes FAILED, its error is the text of the
    exception (not empty when that text is not), and no confirmation
    notification is attempted: the template service is not called. *)
Theorem C4_api_failure
    (env : Env) (body : string) (w : World) (e : Email) (text : string) :
  db_email w = Some e →
  api_outcome env
    (RequestParser._parse_infra_request (subject e) body (sender e))
    (sender e) = Raise text →
  let run := Processor._route_email env INFRA_REQUEST body in
  (∃ e', db_email (run w).2 = Some e' ∧
         status e' = FAILED ∧ error e' = Some text ∧
         (text ≠ "" → has_error_text e')) ∧
  List.filter is_notification (logged_by run w) = [].
Proof.
  intros Hbound Hapi run.
  destruct (route_infra_request_api_raises env body w e text Hbound Hapi)
    as [Hrecord Hlog].
  split.
  - eexists. split; [exact Hrecord|]. repeat split.
    intros Htext. by exists text.
  - unfold run. by rewrite Hlog.
Qed.

(** The API is down for an infrastructure request. *)
Lemma C4_api_failure_witness :
  ∃ e',
    db_email
      (Processor._route_email Fixtures.api_down INFRA_REQUEST
         "Need a new server" (Fixtures.holding Fixtures.infra_record)).2
      = Some e' ∧
    status e' = FAILED ∧ error e' = Some "API down".
Proof.
  destruct (C4_api_failure Fixtures.api_down "Need a new server"
              (Fixtures.holding Fixtures.infra_record) Fixtures.infra_record
              "API down" eq_refl eq_refl) as [(e' & He' & Hs & Herr & _) _].
  by exists e'.
Defined.

(** C4, as stated, fails: the API call raises an exception whose text is
    empty, and the error of the FAILED record is the empty string. *)
Lemma C4_empty_exception_text :
  ∃ e',
    db_email
      (Processor._route_email Fixtures.api_down_silent INFRA_REQUEST
         "Need a new server" (Fixtures.holding Fixtures.infra_record)).2
      = Some e' ∧
    status e' = FAILED ∧ error e' = Some "" ∧ ¬ has_error_text e'.
Proof.
  eexists. split; [vm_compute; reflexivity|]. repeat split.
  intros (text & Herr & Htext). simpl in Herr. congruence.
Qed.

(** C5, on the code. The routing handler never leaves a record
    RECEIVED: after it the status is PROCESSED or FAILED, whatever the
    status was before and whether the handler run succeeds or fails. But
    the processed timestamp is not set once: every call assigns it, with
    no test of the value that is there, so that a record which has a
    timestamp gets the time of the later call in its place. *)
Theorem C5_route_email_terminal
    (env : Env) (email_type : EmailType) (body : string) (w : World) (e : Email) :
  db_email w = Some e →
  ∃ e', db_email (Processor._route_email env email_type body w).2 = Some e' ∧
        (status e' = PROCESSED ∨ status e' = FAILED) ∧
        status e' ≠ RECEIVED ∧
        processed_at e' = Some (utcnow env) ∧
        (∀ t, processed_at e = Some t → t ≠ utcnow env →
              processed_at e' ≠ processed_at e).
Proof.
  intros Hbound.
  destruct (route_email_sets env email_type body w e Hbound)
    as (e' & He' & Hs & Ht).
  exists e'. repeat split; try done.
  - by destruct Hs as [-> | ->].
  - intros t Hset Hlater. rewrite Ht, Hset. congruence.
Qed.

(** A record PROCESSED at time 1 goes through the routing handler again
    at time 2: it stays out of RECEIVED, and its processed timestamp,
    which was set, is set again. *)
Lemma C5_route_email_terminal_witness :
  processed_at Fixtures.processed_record = Some 1 ∧
  utcnow Fixtures.calm = 2 ∧
  ∃ e',
    db_email
      (Processor._route_email Fixtures.calm STANDARD "Need a new server"
         (Fixtures.holding Fixtures.processed_record)).2 = Some e' ∧
    status e' ≠ RECEIVED ∧
    processed_at e' = Some 2 ∧
    processed_at e' ≠ processed_at Fixtures.processed_record.
Proof.
  split; [reflexivity|]. split; [reflexivity|].
  destruct (C5_route_email_terminal Fixtures.calm STANDARD "Need a new server"
              (Fixtures.holding Fixtures.processed_record)
              Fixtures.processed_record eq_refl)
    as (e' & He' & _ & Hs & Ht & Hover).
  exists e'. split; [exact He'|]. split; [exact Hs|]. split; [exact Ht|].
  apply (Hover 1); [reflexivity | discriminate].
Defined.

(* ================================================================== *)
(** * The reply to DATA *)
(* ================================================================== *)

(** C6, on the code. Once the message is parsed and the session is open,
    the reply to DATA is the success reply 250, whatever fails while the
    message is processed: [process_email] never raises, and what it
    returns is not looked at. *)
Theorem C6_data_reply_ignores_failures
    (env : Env) (envelope : Monitor.Envelope) (w : World) (msg : Mime.Message) :
  parse_outcome env (Monitor.original_content envelope) = Ok msg →
  session_outcome env = Ok tt →
  (Monitor.handle_DATA env envelope w).1 = Ok Monitor.reply_accepted ∧
  Monitor.reply_class Monitor.reply_accepted = Some "2"%char.
Proof.
  intros Hparse Hsession. split; [|reflexivity].
  unfold Monitor.handle_DATA, try_except, bind, lift.
  rewrite Hparse, Hsession.
  destruct (process_email_never_raises env msg (Monitor.mail_from envelope)
              (Monitor.rcpt_tos envelope) w) as (a & w' & ->).
  reflexivity.
Qed.

(** The store is down: the message is answered 250 and no record of it
    exists. The API is down: the record is FAILED and the message is
    answered 250 all the same. *)
Lemma C6_data_reply_ignores_failures_witness :
  ((Monitor.handle_DATA Fixtures.store_down Fixtures.an_envelope
      (new_session 0 [])).1 = Ok Monitor.reply_accepted ∧
   stored (Monitor.handle_DATA Fixtures.store_down Fixtures.an_envelope
             (new_session 0 [])).2 = None) ∧
  ((Monitor.handle_DATA Fixtures.api_down_at_listener Fixtures.an_envelope
      (new_session 0 [])).1 = Ok Monitor.reply_accepted ∧
   (status <$> stored (Monitor.handle_DATA Fixtures.api_down_at_listener
                         Fixtures.an_envelope (new_session 0 [])).2,
    error <$> stored (Monitor.handle_DATA Fixtures.api_down_at_listener
                        Fixtures.an_envelope (new_session 0 [])).2)
   = (Some FAILED, Some (Some "API down"))).
Proof.
  split; (split; [|vm_compute; reflexivity]).
  - eapply (C6_data_reply_ignores_failures Fixtures.store_down
              Fixtures.an_envelope (new_session 0 []));
      reflexivity.
  - eapply (C6_data_reply_ignores_failures Fixtures.api_down_at_listener
              Fixtures.an_envelope (new_session 0 []));
      reflexivity.
Defined.

(* ================================================================== *)
(** * The extractor on multipart messages *)
(* ================================================================== *)

Section ExtractorFacts.
Import Extractor.
Variable env : Env.

(** Each iteration leaves in [content_type] the type of its own part. *)
Lemma extract_part_content_type (part : Mime.Message) (acc : Extracted)
    (w w' : World) (b ct : string) (atts : list Attachment) :
  extract_part env part acc w = (Ok (b, ct, atts), w') →
  ct = Mime.content_type (Mime.info part).
Proof.
  destruct acc as [[b0 ct0] atts0]. unfold extract_part, bind, draw_id, ret, raise.
  repeat case_match; intros ?; by simplify_eq.
Qed.

(** So the loop ends with the type of the last part walked. *)
Lemma for_parts_content_type (parts : list Mime.Message) (acc : Extracted)
    (w w' : World) (b ct : string) (atts : list Attachment) (p : Mime.Message) :
  for_parts env parts acc w = (Ok (b, ct, atts), w') →
  last parts = Some p →
  ct = Mime.content_type (Mime.info p).
Proof.
  revert acc w. induction parts as [|part rest IH]; intros acc w; [done|].
  cbn [for_parts]. unfold bind at 1.
  destruct (extract_part env part acc w) as [[[[b1 ct1] atts1]|t] w1] eqn:Hpart;
    [|done].
  destruct rest as [|next rest].
  - simpl. intros [= -> -> -> ->] [= <-].
    by eapply extract_part_content_type.
  - intros Hrest Hlast. eapply IH; [exact Hrest|]. exact Hlast.
Qed.

(** A part that is no candidate leaves an empty body empty. *)
Lemma extract_part_skips (part : Mime.Message) (acc : Extracted)
    (w w' : World) (b : string) (ct : string) (atts : list Attachment) :
  body_candidate part = false →
  extract_part env part acc w = (Ok (b, ct, atts), w') →
  b = acc.1.1.
Proof.
  destruct acc as [[b0 ct0] atts0]. unfold body_candidate. intros Hc.
  unfold extract_part, bind, draw_id, ret, raise.
  destruct (String.eqb (maintype _) "multipart") eqn:Hcontainer.
  { intros ?. by simplify_eq. }
  destruct (PyStr.contains "attachment" _) eqn:Hattachment.
  { repeat case_match; intros ?; by simplify_eq. }
  simpl in Hc. rewrite Hc, andb_false_r. intros ?. by simplify_eq.
Qed.

(** A candidate that decodes gives the body, when none is selected yet. *)
Lemma extract_part_selects (part : Mime.Message) (ct0 : string)
    (atts0 : list Attachment) (w w' : World) (b ct : string)
    (atts : list Attachment) (chosen : string) :
  body_candidate part = true →
  decoded_body env part = Some chosen →
  extract_part env part ("", ct0, atts0) w = (Ok (b, ct, atts), w') →
  b = chosen.
Proof.
  unfold body_candidate, decoded_body. intros Hc Hd.
  apply andb_true_iff in Hc as [Hc Htext].
  apply andb_true_iff in Hc as [Hcontainer Hattachment].
  apply negb_true_iff in Hcontainer, Hattachment.
  unfold extract_part. rewrite Hcontainer, Hattachment, Htext. simpl.
  destruct part as [i payload|]; [|done].
  simpl in *. destruct (decode env _ payload); [|done].
  injection Hd as <-. by intros [= <- _ _ _].
Qed.

(** A body that is selected is not overwritten. *)
Lemma extract_part_keeps_body (part : Mime.Message) (acc : Extracted)
    (w w' : World) (b ct : string) (atts : list Attachment) :
  is_empty acc.1.1 = false →
  extract_part env part acc w = (Ok (b, ct, atts), w') →
  b = acc.1.1.
Proof.
  destruct acc as [[b0 ct0] atts0]. simpl. intros Hb.
  unfold extract_part, bind, draw_id, ret, raise. rewrite Hb. simpl.
  repeat case_match; intros ?; by simplify_eq.
Qed.

Lemma for_parts_keeps_body (parts : list Mime.Message) (acc : Extracted)
    (w w' : World) (b ct : string) (atts : list Attachment) :
  is_empty acc.1.1 = false →
  for_parts env parts acc w = (Ok (b, ct, atts), w') →
  b = acc.1.1.
Proof.
  revert acc w. induction parts as [|part rest IH]; intros acc w Hb.
  - simpl. unfold ret. by intros [= -> _].
  - cbn [for_parts]. unfold bind at 1.
    destruct (extract_part env part acc w) as [[[[b1 ct1] atts1]|t] w1] eqn:Hpart;
      [|done].
    apply extract_part_keeps_body in Hpart as Hb1; [|done]. simpl in Hb1.
    intros Hrest. apply IH in Hrest; simpl; [|by rewrite Hb1].
    simpl in Hrest. congruence.
Qed.

(** The loop selects the body of the first candidate, when that part
    decodes to a text that is not empty. *)
Lemma for_parts_selects (parts : list Mime.Message) (ct0 : string)
    (atts0 : list Attachment) (w w' : World) (b ct : string)
    (atts : list Attachment) (part : Mime.Message) (chosen : string) :
  List.find body_candidate parts = Some part →
  decoded_body env part = Some chosen →
  is_empty chosen = false →
  for_parts env parts ("", ct0, atts0) w = (Ok (b, ct, atts), w') →
  b = chosen.
Proof.
  intros Hfind Hd Hchosen. revert ct0 atts0 w.
  induction parts as [|first rest IH]; intros ct0 atts0 w; [done|].
  cbn [for_parts]. unfold bind at 1.
  destruct (extract_part env first ("", ct0, atts0) w)
    as [[[[b1 ct1] atts1]|t] w1] eqn:Hpart; [|done].
  simpl in Hfind. destruct (body_candidate first) eqn:Hc.
  - injection Hfind as ->.
    apply (extract_part_selects _ _ _ _ _ _ _ _ chosen) in Hpart; [|done..].
    subst b1. intros Hrest.
    apply for_parts_keeps_body in Hrest; [done | by simpl].
  - apply extract_part_skips in Hpart; [|done]. simpl in Hpart. subst b1.
    by apply IH.
Qed.

End ExtractorFacts.

(** The extraction of a multipart message, when it returns: the body is
    that of the first candidate part in document order (if that part
    decodes to a text that is not empty), and the content type is that
    of the last part walked, whichever part gave the body. *)
Lemma extract_multipart (env : Env) (i : Mime.PartInfo) (parts : list Mime.Message)
    (w w' : World) (b ct : string) (atts : list Attachment) :
  Extractor._extract_email_content env (Mime.Multi i parts) w
    = (Ok (b, ct, atts), w') →
  (∀ p, last (Mime.walk (Mime.Multi i parts)) = Some p →
        ct = Mime.content_type (Mime.info p)) ∧
  (∀ part chosen,
     Extractor.body_source (Mime.Multi i parts) = Some part →
     Extractor.decoded_body env part = Some chosen →
     Extractor.is_empty chosen = false →
     b = chosen).
Proof.
  unfold Extractor._extract_email_content, Extractor.body_source. intros H.
  split.
  - intros p Hp. by eapply for_parts_content_type.
  - intros part chosen Hfind Hd Hchosen. by eapply for_parts_selects.
Qed.

(** C2, on the code. For the multipart message of the test suite, a
    plain-text part followed by an HTML part, the content type the
    extraction returns is "text/html", the type of the last part walked,
    while the body is the text of the plain-text part (when the decoder
    gives it). *)
Theorem C2_plain_then_html_content_type (env : Env) (w : World) :
  ∃ body,
    Extractor._extract_email_content env Fixtures.multipart_email_message w
      = (Ok (body, "text/html", []), w) ∧
    (decode env "us-ascii" (list_byte_of_string Fixtures.plain_text)
       = Ok Fixtures.plain_text →
     body = Fixtures.plain_text).
Proof.
  unfold Extractor._extract_email_content, Fixtures.multipart_email_message.
  cbn [Mime.walk flat_map app Extractor.for_parts Fixtures.text_part].
  unfold bind, Extractor.extract_part, ret. simpl.
  destruct (decode env "us-ascii" (list_byte_of_string Fixtures.plain_text))
    as [text|t] eqn:Hplain; simpl.
  - destruct text as [|c text]; simpl.
    + destruct (decode env "us-ascii" (list_byte_of_string Fixtures.html_text));
        eexists; (split; [reflexivity | intros H; discriminate H]).
    + eexists. split; [reflexivity|]. intros H. congruence.
  - destruct (decode env "us-ascii" (list_byte_of_string Fixtures.html_text));
      eexists; (split; [reflexivity | intros H; discriminate H]).
Qed.

(* ================================================================== *)
(** * The attachments of a message *)
(* ================================================================== *)

Section AttachmentFacts.
Import Extractor Parts.
Variable env : Env.

Lemma after_ids_0 (w : World) : after_ids 0 w = w.
Proof. by destruct w. Qed.

Lemma after_ids_add (n m : nat) (w : World) :
  after_ids m (after_ids n w) = after_ids (n + m) w.
Proof. unfold after_ids. simpl. f_equal. lia. Qed.

(** A part the attachment branch does not handle leaves the list and
    the world alone. *)
Lemma extract_part_other (part : Mime.Message) (acc : Extracted) (w : World) :
  is_attachment_part part = false →
  ∃ b, extract_part env part acc w
       = (Ok (b, Mime.content_type (Mime.info part), acc.2), w).
Proof.
  destruct acc as [[b0 ct0] atts0]. unfold is_attachment_part. intros H.
  unfold extract_part, ret.
  destruct (String.eqb (maintype _) "multipart") eqn:Hc; [by eexists|].
  simpl in H. rewrite H.
  repeat case_match; by eexists.
Qed.

(** The attachment branch on a leaf: one entry more, and one identifier
    drawn when the part has no file name. *)
Lemma extract_part_attachment_leaf (i : Mime.PartInfo) (data : Mime.bytes)
    (acc : Extracted) (w : World) :
  is_attachment_part (Mime.Leaf i data) = true →
  ∃ att,
    extract_part env (Mime.Leaf i data) acc w
      = (Ok (acc.1.1, Mime.content_type i, (acc.2 ++ [att])%list),
         after_ids (if unnamed (Mime.Leaf i data) then 1 else 0) w) ∧
    produced env att (Mime.Leaf i data).
Proof.
  destruct acc as [[b0 ct0] atts0]. unfold is_attachment_part. intros H.
  apply andb_true_iff in H as [Hc Ha]. apply negb_true_iff in Hc.
  unfold extract_part, unnamed. simpl in *. rewrite Hc, Ha.
  unfold bind, draw_id, ret.
  destruct (Mime.filename i) as [[|c r]|] eqn:Hf; simpl;
    eexists; (split; [rewrite ?after_ids_0; reflexivity|]).
  all: exists i, data; rewrite Hf; repeat split; try done.
  all: by eexists.
Qed.

(** The attachment branch on a part that holds sub-parts raises. *)
Lemma extract_part_attachment_multi (i : Mime.PartInfo) (parts : list Mime.Message)
    (acc : Extracted) (w : World) :
  is_attachment_part (Mime.Multi i parts) = true →
  extract_part env (Mime.Multi i parts) acc w
    = (Raise no_len,
       after_ids (if unnamed (Mime.Multi i parts) then 1 else 0) w).
Proof.
  destruct acc as [[b0 ct0] atts0]. unfold is_attachment_part. intros H.
  apply andb_true_iff in H as [Hc Ha]. apply negb_true_iff in Hc.
  unfold extract_part, unnamed. simpl in *. rewrite Hc, Ha.
  unfold bind, draw_id, ret, raise.
  destruct (Mime.filename i) as [[|c r]|] eqn:Hf; simpl;
    by rewrite ?after_ids_0.
Qed.

(** The loop over the parts: the entries appended are those of the
    attachment parts, in order, and an identifier is drawn for each of
    them that has no file name; the loop raises at the first attachment
    part that holds sub-parts. *)
Lemma for_parts_attachments (parts : list Mime.Message) (acc : Extracted)
    (w : World) :
  match for_parts env parts acc w with
  | (Ok (b, ct, atts), w') =>
      ∃ new, atts = (acc.2 ++ new)%list ∧
             Forall2 (produced env) new (List.filter is_attachment_part parts) ∧
             w' = after_ids
                    (List.length
                       (List.filter unnamed (List.filter is_attachment_part parts)))
                    w
  | (Raise text, w') =>
      text = no_len ∧
      Exists (fun p => is_leaf p = false) (List.filter is_attachment_part parts) ∧
      ∃ n, w' = after_ids n w ∧
           (n ≤ List.length
                  (List.filter unnamed (List.filter is_attachment_part parts)))%nat
  end.
Proof.
  revert acc w. induction parts as [|part rest IH]; intros acc w.
  - destruct acc as [[b ct] atts]. simpl. exists []. rewrite app_nil_r.
    by rewrite after_ids_0.
  - cbn [for_parts List.filter]. unfold bind at 1.
    destruct (is_attachment_part part) eqn:Hpart.
    + destruct part as [i data|i subparts].
      * destruct (extract_part_attachment_leaf i data acc w Hpart)
          as (att & -> & Hatt).
        specialize (IH (acc.1.1, Mime.content_type i, (acc.2 ++ [att])%list)
                       (after_ids (if unnamed (Mime.Leaf i data) then 1 else 0) w)).
        destruct (for_parts env rest _ _) as [[[[b ct] atts]|text] w'].
        -- destruct IH as (new & -> & Hnew & ->). exists (att :: new).
           cbn [snd]. rewrite <- app_assoc. split; [done|].
           split; [by constructor|]. rewrite after_ids_add. f_equal.
           cbn [List.filter]. by destruct (unnamed (Mime.Leaf i data)).
        -- destruct IH as (-> & Hex & n & -> & Hn). split; [done|].
           split; [by apply Exists_cons_tl|].
           eexists. split; [apply after_ids_add|].
           cbn [List.filter]. destruct (unnamed (Mime.Leaf i data)); simpl; lia.
      * rewrite (extract_part_attachment_multi i subparts acc w Hpart).
        split; [done|]. split; [by apply Exists_cons_hd|].
        eexists. split; [done|]. cbn [List.filter].
        destruct (unnamed (Mime.Multi i subparts)); simpl; lia.
    + destruct (extract_part_other part acc w Hpart) as (b & ->).
      specialize (IH (b, Mime.content_type (Mime.info part), acc.2) w).
      by destruct (for_parts env rest _ _) as [[[[b' ct] atts]|text] w'].
Qed.

Lemma produced_leaf (att : Attachment) (part : Mime.Message) :
  produced env att part → is_leaf part = true.
Proof. by intros (i & data & -> & _). Qed.

Lemma produced_all_leaves (atts : list Attachment) (parts : list Mime.Message) :
  Forall2 (produced env) atts parts →
  ¬ Exists (fun p => is_leaf p = false) parts.
Proof.
  induction 1 as [|att part atts parts Hatt _ IH]; intros Hex.
  - by apply Exists_nil in Hex.
  - apply Exists_cons in Hex as [Hleaf | Hex]; [|done].
    apply produced_leaf in Hatt. congruence.
Qed.

End AttachmentFacts.

(** X1. When the extraction of a multipart message returns, the
    attachments are, in document order, the parts that are no container
    and whose disposition mentions "attachment": each entry has the
    bytes, their length and the content type of its part, and a file
    name that is not empty, the part's own or "attachment_", a generated
    identifier and the extension of the content type; one identifier is
    drawn per attachment part without a file name. *)
Theorem X1_attachments_of_multipart
    (env : Env) (i : Mime.PartInfo) (parts : list Mime.Message) (w w' : World)
    (b ct : string) (atts : list Attachment) :
  Extractor._extract_email_content env (Mime.Multi i parts) w
    = (Ok (b, ct, atts), w') →
  Forall2 (Parts.produced env) atts (Parts.attachment_parts (Mime.Multi i parts)) ∧
  ids_drawn w' =
    (List.length (List.filter Parts.unnamed
                    (Parts.attachment_parts (Mime.Multi i parts)))
     + ids_drawn w)%nat.
Proof.
  unfold Extractor._extract_email_content, Parts.attachment_parts. intros H.
  pose proof (for_parts_attachments env (Mime.walk (Mime.Multi i parts))
                ("", "text/plain", []) w) as Hloop.
  rewrite H in Hloop. destruct Hloop as (new & -> & Hnew & ->). by split.
Qed.

(** The message of the test suite with two attachments, one unnamed. *)
Lemma X1_attachments_of_multipart_witness :
  ∃ b ct atts w',
    Extractor._extract_email_content Fixtures.calm Samples.email_with_attachment
      (new_session 0 []) = (Ok (b, ct, atts), w') ∧
    Forall2 (Parts.produced Fixtures.calm) atts
      (Parts.attachment_parts Samples.email_with_attachment) ∧
    att_filename <$> atts = ["test.txt"; "attachment_id.txt"] ∧
    ids_drawn w' = 1.
Proof.
  do 4 eexists. split; [vm_compute; reflexivity|].
  split; [|split; reflexivity].
  eapply (X1_attachments_of_multipart Fixtures.calm _ _ (new_session 0 [])).
  vm_compute. reflexivity.
Defined.

(** When the extraction raises. *)
Lemma extract_raises_iff (env : Env) (msg : Mime.Message) (w : World) :
  ((∃ text, (Extractor._extract_email_content env msg w).1 = Raise text) ↔
   Mime.is_multipart msg = true ∧
   Exists (fun p => Parts.is_leaf p = false) (Parts.attachment_parts msg)) ∧
  (∀ text, (Extractor._extract_email_content env msg w).1 = Raise text →
           text = Extractor.no_len).
Proof.
  destruct msg as [i payload|i parts].
  - unfold Extractor._extract_email_content, ret.
    split.
    + split; [|by intros [? _]]. intros [text H]. by case_match.
    + intros text H. by case_match.
  - unfold Extractor._extract_email_content, Parts.attachment_parts.
    pose proof (for_parts_attachments env (Mime.walk (Mime.Multi i parts))
                  ("", "text/plain", []) w) as Hloop.
    destruct (Extractor.for_parts env _ _ w) as [[[[b ct] atts]|text] w'];
      cbn [fst].
    + destruct Hloop as (new & _ & Hnew & _). split; [|done].
      split; [by intros [? ?]|]. intros [_ Hex].
      by apply produced_all_leaves in Hnew.
    + destruct Hloop as (-> & Hex & _). split; [|by intros ? [= <-]].
      split; [done | by eexists].
Qed.

(** What the extraction leaves of the world. *)
Lemma extract_frame (env : Env) (msg : Mime.Message) (w : World) :
  ∃ n, (Extractor._extract_email_content env msg w).2 = Parts.after_ids n w ∧
       (n ≤ List.length (List.filter Parts.unnamed (Parts.attachment_parts msg)))%nat.
Proof.
  destruct msg as [i payload|i parts].
  - exists 0. rewrite after_ids_0. split; [|lia].
    unfold Extractor._extract_email_content, ret. by case_match.
  - unfold Extractor._extract_email_content, Parts.attachment_parts.
    pose proof (for_parts_attachments env (Mime.walk (Mime.Multi i parts))
                  ("", "text/plain", []) w) as Hloop.
    destruct (Extractor.for_parts env _ _ w) as [[[[b ct] atts]|text] w'];
      cbn [snd].
    + destruct Hloop as (new & _ & _ & ->). by eexists.
    + destruct Hloop as (_ & _ & n & -> & Hn). by exists n.
Qed.

(** The body of [process_email] stops where the extraction raises. *)
Lemma process_email_body_extraction_raises (env : Env) (msg : Mime.Message)
    (sender : string) (recipients : list string) (w w' : World) (text : string) :
  Extractor._extract_email_content env msg (Parts.after_ids 1 w)
    = (Raise text, w') →
  Processor.process_email_body env msg sender recipients w = (Raise text, w').
Proof.
  intros H. unfold Processor.process_email_body, bind at 1.
  change (draw_id env w)
    with (Ok (generate_id env (ids_drawn w)), Parts.after_ids 1 w).
  cbv iota. unfold bind at 1. by rewrite H.
Qed.

(** X3. A multipart message with an attachment part that holds
    sub-parts is not recorded: [process_email] returns [None], the
    store's create is not called, and nothing is stored or logged. *)
Theorem X3_unreadable_attachment_drops_message
    (env : Env) (msg : Mime.Message) (sender : string) (recipients : list string)
    (drawn : nat) (log : list Event) :
  Mime.is_multipart msg = true →
  Exists (fun p => Parts.is_leaf p = false) (Parts.attachment_parts msg) →
  let outcome :=
    Processor.process_email env msg sender recipients (new_session drawn log) in
  outcome.1 = Ok None ∧ db_email outcome.2 = None ∧
  stored outcome.2 = None ∧ events outcome.2 = log.
Proof.
  intros Hmulti Hex outcome.
  set (w1 := Parts.after_ids 1 (new_session drawn log)).
  destruct (extract_raises_iff env msg w1) as [[_ Hraises] _].
  destruct (Hraises (conj Hmulti Hex)) as [text Htext].
  destruct (extract_frame env msg w1) as (n & Hworld & _).
  destruct (Extractor._extract_email_content env msg w1) as [r w'] eqn:Hextract.
  simpl in Htext, Hworld. subst r w'.
  apply (process_email_body_extraction_raises env msg sender recipients) in Hextract.
  assert (outcome = (Ok None, Parts.after_ids n w1)) as ->; [|done].
  unfold outcome, Processor.process_email, bind, try_except.
  change (Processor.unbind_db_email (new_session drawn log))
    with (Ok tt, new_session drawn log). cbv iota.
  by rewrite Hextract.
Qed.

(** A message forwarded as an attachment. *)
Lemma X3_unreadable_attachment_drops_message_witness :
  (Processor.process_email Fixtures.calm Samples.forwarded_as_attachment
     "test@example.com" ["recipient@example.com"] (new_session 0 [])).1
  = Ok None.
Proof.
  eapply (X3_unreadable_attachment_drops_message Fixtures.calm
            Samples.forwarded_as_attachment "test@example.com"
            ["recipient@example.com"] 0 []).
  - reflexivity.
  - vm_compute. apply Exists_cons_hd. reflexivity.
Defined.




(** X4. Whether it returns or raises, the extraction touches nothing of
    the world but the generator of identifiers: the record object, the
    store and the log are as before, and at most one identifier is drawn
    per attachment part without a file name. *)
Theorem X4_extraction_only_draws_ids (env : Env) (msg : Mime.Message) (w : World) :
  ∃ n, (Extractor._extract_email_content env msg w).2 = Parts.after_ids n w ∧
       (n ≤ List.length (List.filter Parts.unnamed (Parts.attachment_parts msg)))%nat.
Proof. apply extract_frame. Qed.

(* ================================================================== *)
(** * Extensions and attachment rows *)
(* ================================================================== *)

Section ExtensionFacts.
Import Extractor.

Lemma extension_map_dotted :
  map_Forall (fun _ ext => PyStr.startswith "." ext = true) extension_map.
Proof.
  unfold extension_map. apply map_Forall_to_list.
  rewrite map_to_list_to_map.
  - repeat constructor.
  - apply (bool_decide_unpack _). vm_compute. exact I.
Qed.

End ExtensionFacts.

(** X5. [_get_extension] gives, for every content type, an extension
    that starts with a dot: the one of the table for a type the table
    has, and ".bin" for any other type. *)
Theorem X5_extension_is_dotted (content_type : string) :
  (∃ rest, Extractor._get_extension content_type = String "."%char rest) ∧
  (Extractor.extension_map !! content_type = None →
   Extractor._get_extension content_type = ".bin") ∧
  (∀ ext, Extractor.extension_map !! content_type = Some ext →
          Extractor._get_extension content_type = ext).
Proof.
  unfold Extractor._get_extension.
  destruct (Extractor.extension_map !! content_type) as [ext|] eqn:Hext; simpl.
  - apply extension_map_dotted in Hext.
    apply startswith_spec in Hext as [rest ->].
    split; [by exists rest|]. split; [done|]. by intros ? [= <-].
  - split; [by eexists|]. split; [done|]. done.
Qed.

Section AttachmentRowFacts.
Import Processor Rows.
Variable env : Env.

(** The loop of [_process_attachments] adds the row of every attachment
    whose row can be built, in order, and stops at none. *)
Lemma for_attachments_rows (email_id : string) (attachments : list Attachment)
    (w : World) :
  for_attachments env email_id attachments w =
    (Ok tt,
     {| db_email := db_email w; stored := stored w;
        added_attachments :=
          (added_attachments w ++
           (row_of email_id <$> List.filter (row_ok env) attachments))%list;
        stored_attachments := stored_attachments w;
        ids_drawn := ids_drawn w; events := events w |}).
Proof.
  revert w. induction attachments as [|a rest IH]; intros w.
  - simpl. unfold ret. rewrite app_nil_r. by destruct w.
  - cbn [for_attachments List.filter]. unfold bind at 1, try_except, bind at 1.
    unfold lift, row_ok, add_attachment_row, modify, ret.
    destruct (attachment_row_outcome env a) as [[]|text]; rewrite IH; simpl.
    + by rewrite <- app_assoc.
    + done.
Qed.

End AttachmentRowFacts.

(** X6. [_process_attachments] stores, when its commit goes through, the
    row of every attachment whose row could be built, in the order of the
    attachments, after the rows stored before: a failure on one
    attachment keeps none of the others out. The row has the record's
    identifier, the attachment's file name, type and size, and the path
    "attachments/<id>/<file name>". When the commit raises, so does
    [_process_attachments], and no row is stored. *)
Theorem X6_attachment_rows
    (env : Env) (email_id : string) (attachments : list Attachment) (w : World) :
  let rows := Rows.row_of email_id <$> List.filter (Rows.row_ok env) attachments in
  let outcome := Processor._process_attachments env email_id attachments w in
  db_email outcome.2 = db_email w ∧
  match attachments_commit env with
  | Ok _ =>
      outcome.1 = Ok tt ∧
      stored_attachments outcome.2 =
        (stored_attachments w ++ added_attachments w ++ rows)%list ∧
      added_attachments outcome.2 = []
  | Raise text =>
      outcome.1 = Raise text ∧
      stored_attachments outcome.2 = stored_attachments w ∧
      added_attachments outcome.2 = (added_attachments w ++ rows)%list
  end.
Proof.
  cbn zeta. unfold Processor._process_attachments, commit, bind.
  rewrite for_attachments_rows.
  unfold log_event, modify, lift.
  by destruct (attachments_commit env) as [[]|text].
Qed.

(* ================================================================== *)
(** * What the routing handler does besides setting the status *)
(* ================================================================== *)

Section RouteEffects.
Variable env : Env.

(** The routing handler for a category with no handler of its own. *)
Lemma route_plain (email_type : EmailType) (body : string) (w : World) (e : Email) :
  email_type ≠ INFRA_REQUEST → email_type ≠ UNSUBSCRIBE →
  db_email w = Some e →
  db_email (Processor._route_email env email_type body w).2 =
    Some (set_processed_at (utcnow env) (set_status PROCESSED e)) ∧
  logged_by (Processor._route_email env email_type body) w = [EvCommit].
Proof.
  destruct w as [d row added kept drawn log]. simpl. intros Hi Hu ->.
  split; [|apply logged_by_app];
    destruct email_type; try done; unfold_coroutines; split_outcomes;
    reflexivity.
Qed.

Lemma route_unsubscribe (body : string) (w : World) (e : Email) :
  db_email w = Some e →
  db_email (Processor._route_email env UNSUBSCRIBE body w).2 =
    Some (set_processed_at (utcnow env) (set_status PROCESSED e)) ∧
  logged_by (Processor._route_email env UNSUBSCRIBE body) w =
    (EvGetTemplate "unsubscribe_confirmation" ::
     match get_template_outcome env "unsubscribe_confirmation" with
     | Ok _ => [EvRender (Rows.unsubscribe_context env e)]
     | Raise _ => []
     end ++ [EvCommit])%list.
Proof.
  destruct w as [d row added kept drawn log]. simpl. intros ->.
  split; [|apply logged_by_app];
    unfold_coroutines; split_outcomes; rewrite <- ?app_assoc; reflexivity.
Qed.

(** An infrastructure request whose API call returns. *)
Lemma route_infra_request_returns (body : string) (w : World) (e : Email)
    (response : gmap string string) :
  db_email w = Some e →
  api_outcome env
    (RequestParser._parse_infra_request (subject e) body (sender e))
    (sender e) = Ok response →
  db_email (Processor._route_email env INFRA_REQUEST body w).2 =
    Some (Rows.with_response env response e) ∧
  logged_by (Processor._route_email env INFRA_REQUEST body) w =
    (EvApiCall (RequestParser._parse_infra_request (subject e) body (sender e))
       (sender e) ::
     EvGetTemplate "infra_request_confirmation" ::
     match get_template_outcome env "infra_request_confirmation" with
     | Ok _ => [EvRender (Rows.confirmation_context env response e)]
     | Raise _ => []
     end ++ [EvCommit])%list.
Proof.
  destruct w as [d row added kept drawn log]. simpl. intros -> Hapi.
  split; [|apply logged_by_app];
    unfold_coroutines; simpl; rewrite Hapi; split_outcomes;
    rewrite <- ?app_assoc; reflexivity.
Qed.

(** The commit that ends the routing handler. *)
Lemma route_email_commit (email_type : EmailType) (body : string)
    (w : World) (e : Email) :
  db_email w = Some e →
  match route_commit env with
  | Ok _ =>
      (Processor._route_email env email_type body w).1 = Ok tt ∧
      stored (Processor._route_email env email_type body w).2 =
        db_email (Processor._route_email env email_type body w).2
  | Raise text =>
      (Processor._route_email env email_type body w).1 = Raise text ∧
      stored (Processor._route_email env email_type body w).2 = stored w
  end.
Proof.
  destruct w as [d row added kept drawn log]. simpl. intros ->.
  destruct (route_commit env) as [[]|text] eqn:Hcommit;
    destruct email_type; unfold_coroutines; rewrite ?Hcommit; split_outcomes;
    by rewrite ?Hcommit.
Qed.

End RouteEffects.

(** X7. For a category that is neither INFRA_REQUEST nor UNSUBSCRIBE
    (standard mail, auto-replies, bounces) the routing handler calls no
    collaborator but the store: it commits once, the record becomes
    PROCESSED with the time of the call, and nothing else of it
    changes. *)
Theorem X7_plain_categories_only_commit
    (env : Env) (email_type : EmailType) (body : string) (w : World) (e : Email) :
  email_type ≠ INFRA_REQUEST → email_type ≠ UNSUBSCRIBE →
  db_email w = Some e →
  db_email (Processor._route_email env email_type body w).2 =
    Some (set_processed_at (utcnow env) (set_status PROCESSED e)) ∧
  logged_by (Processor._route_email env email_type body) w = [EvCommit].
Proof. apply route_plain. Qed.

(** A bounce goes through the routing handler. *)
Lemma X7_plain_categories_only_commit_witness :
  logged_by (Processor._route_email Fixtures.api_down BOUNCE "Need a new server")
    (Fixtures.holding (Fixtures.a_record "Returned mail" BOUNCE)) = [EvCommit].
Proof.
  eapply (X7_plain_categories_only_commit Fixtures.api_down BOUNCE
            "Need a new server"
            (Fixtures.holding (Fixtures.a_record "Returned mail" BOUNCE))
            (Fixtures.a_record "Returned mail" BOUNCE));
    by vm_compute.
Defined.

(** X8. For an UNSUBSCRIBE record the routing handler looks up the
    template "unsubscribe_confirmation" once, renders it (with the
    sender's address and the date) only when the lookup succeeded, and
    commits; it never calls the infrastructure API, and the record
    becomes PROCESSED whatever the template service does. *)
Theorem X8_unsubscribe_effects (env : Env) (body : string) (w : World) (e : Email) :
  db_email w = Some e →
  let run := Processor._route_email env UNSUBSCRIBE body in
  db_email (run w).2 =
    Some (set_processed_at (utcnow env) (set_status PROCESSED e)) ∧
  logged_by run w =
    (EvGetTemplate "unsubscribe_confirmation" ::
     match get_template_outcome env "unsubscribe_confirmation" with
     | Ok _ => [EvRender (Rows.unsubscribe_context env e)]
     | Raise _ => []
     end ++ [EvCommit])%list ∧
  List.filter is_api_call (logged_by run w) = [].
Proof.
  intros Hbound run.
  destruct (route_unsubscribe env body w e Hbound) as [Hrecord Hlog].
  split; [done|]. split; [done|]. unfold run. rewrite Hlog.
  by destruct (get_template_outcome env "unsubscribe_confirmation").
Qed.

(** An unsubscribe request while the template is missing. *)
Lemma X8_unsubscribe_effects_witness :
  status <$>
    db_email
      (Processor._route_email Fixtures.template_missing UNSUBSCRIBE
         "please unsubscribe me"
         (Fixtures.holding (Fixtures.a_record "Stop" UNSUBSCRIBE))).2
  = Some PROCESSED.
Proof.
  destruct (X8_unsubscribe_effects Fixtures.template_missing
              "please unsubscribe me"
              (Fixtures.holding (Fixtures.a_record "Stop" UNSUBSCRIBE))
              (Fixtures.a_record "Stop" UNSUBSCRIBE) eq_refl) as [-> _].
  reflexivity.
Defined.

Section RouteFrame.
Variable env : Env.

(** What the routing handler leaves of a record. *)
Lemma route_email_frame (email_type : EmailType) (body : string)
    (w : World) (e : Email) :
  db_email w = Some e →
  ∃ e', db_email (Processor._route_email env email_type body w).2 = Some e' ∧
        Rows.same_message e e' ∧
        (email_type ≠ INFRA_REQUEST → metadata e' = metadata e).
Proof.
  destruct w as [d row added kept drawn log]. simpl. intros ->.
  destruct email_type; unfold_coroutines; split_outcomes;
    eexists; (split; [reflexivity|]); by split.
Qed.

End RouteFrame.

(** X9. The routing handler changes nothing of the message a record
    stands for: identifier, message id, threading fields, sender,
    recipients, subject, body, content type and category are after it
    what they were before, for every category and outcome; the metadata
    change for an infrastructure request only. *)
Theorem X9_route_keeps_the_message
    (env : Env) (email_type : EmailType) (body : string) (w : World) (e : Email) :
  db_email w = Some e →
  ∃ e', db_email (Processor._route_email env email_type body w).2 = Some e' ∧
        Rows.same_message e e' ∧
        (email_type ≠ INFRA_REQUEST → metadata e' = metadata e).
Proof. apply route_email_frame. Qed.

(** An infrastructure request while the API is down. *)
Lemma X9_route_keeps_the_message_witness :
  ∃ e',
    db_email
      (Processor._route_email Fixtures.api_down INFRA_REQUEST "Need a new server"
         (Fixtures.holding Fixtures.infra_record)).2 = Some e' ∧
    subject e' = "Infrastructure request: Database".
Proof.
  destruct (X9_route_keeps_the_message Fixtures.api_down INFRA_REQUEST
              "Need a new server" (Fixtures.holding Fixtures.infra_record)
              Fixtures.infra_record eq_refl) as (e' & He' & Hsame & _).
  exists e'. split; [done|]. by destruct Hsame as (_ & _ & _ & _ & _ & _ & -> & _).
Defined.

(** X10. After an infrastructure request whose API call returned, the
    metadata of the record hold the response under "api_response" and
    its "id" under "infra_request_id" (the null value when the response
    has none); every other key, "headers" and "source_ip" among them, is
    as before. *)
Theorem X10_response_in_metadata
    (env : Env) (body : string) (w : World) (e : Email)
    (response : gmap string string) :
  db_email w = Some e →
  api_outcome env
    (RequestParser._parse_infra_request (subject e) body (sender e))
    (sender e) = Ok response →
  ∃ e', db_email (Processor._route_email env INFRA_REQUEST body w).2 = Some e' ∧
        metadata e' !! "api_response" = Some (MDict response) ∧
        metadata e' !! "infra_request_id" =
          Some (match response !! "id" with Some i => MStr i | None => MNone end) ∧
        (∀ k, k ≠ "api_response" → k ≠ "infra_request_id" →
              metadata e' !! k = metadata e !! k).
Proof.
  intros Hbound Hapi.
  destruct (route_infra_request_returns env body w e response Hbound Hapi)
    as [Hrecord _].
  eexists. split; [exact Hrecord|]. simpl. split; [|split].
  - apply lookup_insert_eq.
  - rewrite lookup_insert_ne by done. apply lookup_insert_eq.
  - intros k H1 H2. by rewrite !lookup_insert_ne.
Qed.

(** The API answers with an identifier. *)
Lemma X10_response_in_metadata_witness :
  ∃ e',
    db_email
      (Processor._route_email Fixtures.calm INFRA_REQUEST "Need a new server"
         (Fixtures.holding Fixtures.infra_record)).2 = Some e' ∧
    metadata e' !! "infra_request_id" = Some (MStr "req_123") ∧
    metadata e' !! "source_ip" = Some (MStr "localhost").
Proof.
  destruct (X10_response_in_metadata Fixtures.calm "Need a new server"
              (Fixtures.holding Fixtures.infra_record) Fixtures.infra_record
              (list_to_map [("id", "req_123"); ("status", "received")])
              eq_refl eq_refl) as (e' & He' & _ & Hid & Hother).
  exists e'. split; [done|]. split.
  - rewrite Hid. reflexivity.
  - rewrite Hother by done. reflexivity.
Defined.

(** X11. The routing handler raises only from its final commit. When
    the commit goes through, the handler returns and the stored row is
    the record as the handler left it; when the commit raises, the
    handler raises that exception and the stored row is what it was,
    though the record object is already marked. *)
Theorem X11_route_commit
    (env : Env) (email_type : EmailType) (body : string) (w : World) (e : Email) :
  db_email w = Some e →
  let outcome := Processor._route_email env email_type body w in
  match route_commit env with
  | Ok _ => outcome.1 = Ok tt ∧ stored outcome.2 = db_email outcome.2
  | Raise text => outcome.1 = Raise text ∧ stored outcome.2 = stored w
  end.
Proof.
  intros Hbound outcome. exact (route_email_commit env email_type body w e Hbound).
Qed.

(** The routing handler with a store that works. *)
Lemma X11_route_commit_witness :
  stored
    (Processor._route_email Fixtures.calm STANDARD "Need a new server"
       (Fixtures.holding Fixtures.processed_record)).2
  = db_email
      (Processor._route_email Fixtures.calm STANDARD "Need a new server"
         (Fixtures.holding Fixtures.processed_record)).2.
Proof.
  apply (X11_route_commit Fixtures.calm STANDARD "Need a new server"
           (Fixtures.holding Fixtures.processed_record)
           Fixtures.processed_record eq_refl).
Defined.

(** X12. The confirmation of an infrastructure request is rendered from
    the response of the API, not from what the request parser found:
    once the API call has returned and the template is found, the log of
    the routing handler is the API call, the template lookup, one render
    and the commit, and the rendered context has the response's "id",
    "status", "priority" and "environment", with "", "received",
    "normal" and "development" for the keys the response lacks, and the
    sender of the record as "user_email". *)
Theorem X12_confirmation_context
    (env : Env) (body : string) (w : World) (e : Email)
    (response : gmap string string) (template : string) :
  db_email w = Some e →
  api_outcome env
    (RequestParser._parse_infra_request (subject e) body (sender e))
    (sender e) = Ok response →
  get_template_outcome env "infra_request_confirmation" = Ok template →
  let context := Rows.confirmation_context env response e in
  logged_by (Processor._route_email env INFRA_REQUEST body) w =
    [ EvApiCall (RequestParser._parse_infra_request (subject e) body (sender e))
        (sender e);
      EvGetTemplate "infra_request_confirmation";
      EvRender context;
      EvCommit ] ∧
  context !! "request_id" = Some (default "" (response !! "id")) ∧
  context !! "status" = Some (default "received" (response !! "status")) ∧
  context !! "priority" = Some (default "normal" (response !! "priority")) ∧
  context !! "environment" =
    Some (default "development" (response !! "environment")) ∧
  context !! "user_email" = Some (sender e).
Proof.
  intros Hbound Hapi Htemplate context.
  destruct (route_infra_request_returns env body w e response Hbound Hapi)
    as [_ Hlog].
  rewrite Htemplate in Hlog. split; [exact Hlog|].
  unfold context, Rows.confirmation_context, Processor.dict_get.
  by repeat split.
Qed.

(** An urgent request, and a response that names no priority. *)
Lemma X12_confirmation_context_witness :
  Rows.confirmation_context Fixtures.calm
    (list_to_map [("id", "req_123"); ("status", "received")])
    (Fixtures.a_record "[URGENT] infra request" INFRA_REQUEST) !! "priority"
  = Some "normal".
Proof.
  destruct (X12_confirmation_context Fixtures.calm "Need a new server"
              (Fixtures.holding
                 (Fixtures.a_record "[URGENT] infra request" INFRA_REQUEST))
              (Fixtures.a_record "[URGENT] infra request" INFRA_REQUEST)
              (list_to_map [("id", "req_123"); ("status", "received")])
              "infra_request_confirmation" eq_refl eq_refl eq_refl)
    as (_ & _ & _ & Hpriority & _).
  rewrite Hpriority. reflexivity.
Defined.

(* ================================================================== *)
(** * The record [process_email] creates, stores and returns *)
(* ================================================================== *)

Section Created.
Variables I1 I2 : option Email → option Email → Prop.
Hypothesis I2_stable : stable I2.
Variable Q : option Email → World → Prop.

Variable env : Env.
Variable msg : Mime.Message.
Variables (sender : string) (recipients : list string).
Variable drawn : nat.

Hypothesis I2_created :
  ∀ row_id body content_type,
    I2 (Some (Rows.created env msg sender recipients drawn row_id body content_type))
       (Some (Rows.created env msg sender recipients drawn row_id body content_type)).

(** What the routing handler and the [return] that follows it reach
    from a world in [I2]. *)
Hypothesis finish :
  ∀ email_type body,
    triple (about_record I2)
      (bind (Processor._route_email env email_type body)
            (fun _ => bind read_email (fun email => ret (Some email))))
      Q (fun _ => about_record I2).

(** The body of [process_email] returns in [Q]; it raises before the
    record exists, or with the record bound, or with the row stored and
    no object bound, which is what a refresh that raises leaves. *)
Lemma process_email_body_created (w : World) :
  about_record I1 w → ids_drawn w = drawn → db_email w = None →
  match Processor.process_email_body env msg sender recipients w with
  | (Ok r, w') => Q r w'
  | (Raise _, w') =>
      about_record I1 w' ∨ about_record I2 w' ∨
      (db_email w' = None ∧
       ∃ row_id body content_type,
         stored w' =
           Some (Rows.created env msg sender recipients drawn
                   row_id body content_type))
  end.
Proof.
  intros Hw Hids Hunbound.
  pose proof (keeps_extract_email_content (fun d _ => d = None)
                env msg (Parts.after_ids 1 w) Hunbound) as Hnone.
  unfold Processor.process_email_body, bind at 1.
  change (draw_id env w)
    with (Ok (generate_id env (ids_drawn w)), Parts.after_ids 1 w).
  cbv iota. rewrite Hids. unfold bind at 1.
  pose proof (keeps_extract_email_content I1 env msg (Parts.after_ids 1 w) Hw)
    as Hextract.
  destruct (Extractor._extract_email_content env msg (Parts.after_ids 1 w))
    as [[[[body content_type] attachments]|text] w1]; [|by left].
  unfold about_record in Hnone. unfold bind at 1.
  match goal with
  | |- context [Processor._save_email env ?make w1] =>
      pose proof (save_email_cases env make w1) as Hsave;
      destruct (Processor._save_email env make w1) as [[e|text] w2]
  end.
  - destruct Hsave as (row_id & _ & -> & Hstored & _).
    unfold bind at 1.
    change (Processor.assign_db_email ?e w2)
      with (Ok tt,
            {| db_email := Some e; stored := stored w2;
               added_attachments := added_attachments w2;
               stored_attachments := stored_attachments w2;
               ids_drawn := ids_drawn w2; events := events w2 |}).
    cbv iota.
    match goal with
    | |- context [bind ?atts ?rest ?w3] =>
        assert (about_record I2 w3) as Hw3
          by (unfold about_record; simpl; rewrite Hstored; apply I2_created);
        assert (keeps (about_record I2) atts) as Hatts;
          [destruct attachments;
             [apply keeps_ret | by apply keeps_process_attachments]|];
        specialize (Hatts w3 Hw3); unfold bind at 1;
        destruct (atts w3) as [[[]|text] w4]; [|by right; left]
    end.
    match goal with
    | |- context [bind (Processor._route_email env ?t ?b) ?k w4] =>
        pose proof (finish t b w4 Hatts) as Hfinish;
        destruct (bind (Processor._route_email env t b) k w4) as [[r|t'] w5];
        [exact Hfinish | by right; left]
    end.
  - destruct Hsave as (Hd & [(_ & Hs) | (row_id & _ & _ & Hs)]).
    + left. unfold about_record in *. by rewrite Hd, Hs.
    + right. right. split; [congruence|]. by exists row_id, body, content_type.
Qed.

Hypothesis I1_stable : stable I1.

Lemma process_email_created (log : list Event) :
  about_record I1 (new_session drawn log) →
  match Processor.process_email env msg sender recipients (new_session drawn log) with
  | (Ok r, w') =>
      (r = None ∧
       (about_record I1 w' ∨ about_record I2 w' ∨
        (db_email w' = None ∧
         ∃ row_id body content_type,
           stored w' =
             Some (Rows.created env msg sender recipients drawn
                     row_id body content_type)))) ∨
      Q r w'
  | (Raise _, _) => False
  end.
Proof.
  intros Hw. unfold Processor.process_email, bind, try_except.
  change (Processor.unbind_db_email (new_session drawn log))
    with (Ok tt, new_session drawn log). cbv iota.
  pose proof (process_email_body_created (new_session drawn log) Hw eq_refl
                eq_refl) as Hbody.
  destruct (Processor.process_email_body env msg sender recipients _)
    as [[r|text] w1]; [by right|].
  destruct (process_email_except_result env text w1) as (w' & Hresult & Hw').
  destruct Hbody as [H1 | [H2 | [Hd H3]]].
  - pose proof (process_email_except_keeps I1 I1_stable env text w1 H1) as H.
    rewrite Hresult in *. left. split; [done | by left].
  - pose proof (process_email_except_keeps I2 I2_stable env text w1 H2) as H.
    rewrite Hresult in *. left. split; [done | by right; left].
  - rewrite Hd in Hw'. subst w'. rewrite Hresult.
    left. split; [done|]. by right; right.
Qed.

End Created.

Section CreatedFacts.
Variable env : Env.

Lemma finish_returned (email_type : EmailType) (body : string) :
  triple (about_record object_bound)
    (bind (Processor._route_email env email_type body)
          (fun _ => bind read_email (fun email => ret (Some email))))
    (Rows.returned_record (utcnow env))
    (fun _ => about_record object_bound).
Proof.
  intros w Hw. destruct w as [[e|] row added kept drawn log]; [|done].
  clear Hw. unfold Rows.returned_record.
  destruct email_type; unfold_coroutines; split_outcomes;
    try done; eexists; (split; [reflexivity|]); simpl; auto.
Qed.

Lemma finish_keeps (I : option Email → option Email → Prop)
    (email_type : EmailType) (body : string) :
  stable I →
  triple (about_record I)
    (bind (Processor._route_email env email_type body)
          (fun _ => bind read_email (fun email => ret (Some email))))
    (fun _ => about_record I) (fun _ => about_record I).
Proof.
  intros HI. apply (keeps_bind I); [by apply keeps_route_email | intros _].
  apply (keeps_bind I); [apply keeps_read_email | intros ?; apply keeps_ret].
Qed.

Lemma of_message_stable (msg : Mime.Message) (sender : string)
    (recipients : list string) (drawn : nat) :
  stable (Rows.all_records (Rows.of_message env msg sender recipients drawn)).
Proof.
  split; unfold Rows.all_records.
  - intros e row s [Hd Hr]. split; [|done]. intros ? [= <-].
    destruct (Hd e eq_refl) as (row_id & b & ct & Hsame). by exists row_id, b, ct.
  - intros e row s [Hd Hr]. split; [|done]. intros ? [= <-].
    destruct (Hd e eq_refl) as (row_id & b & ct & Hsame). by exists row_id, b, ct.
  - intros e row k v [Hd Hr]. split; [|done]. intros ? [= <-].
    destruct (Hd e eq_refl) as (row_id & b & ct & Hsame). by exists row_id, b, ct.
  - intros e row s [Hd Hr]. split; [|done]. intros ? [= <-].
    destruct (Hd e eq_refl) as (row_id & b & ct & Hsame). by exists row_id, b, ct.
  - by intros o row [Hd _].
Qed.

(** Every record stored after [process_email] stands for the message. *)
Lemma stored_of_message (msg : Mime.Message) (sender : string)
    (recipients : list string) (drawn : nat) (log : list Event) (r : Email) :
  stored (Processor.process_email env msg sender recipients
            (new_session drawn log)).2 = Some r →
  Rows.of_message env msg sender recipients drawn r.
Proof.
  intros Hr.
  pose proof (process_email_created nothing_yet
                (Rows.all_records (Rows.of_message env msg sender recipients drawn))
                (of_message_stable msg sender recipients drawn)
                (fun _ => about_record
                   (Rows.all_records
                      (Rows.of_message env msg sender recipients drawn)))
                env msg sender recipients drawn) as H.
  specialize (H ltac:(intros row_id b ct; split; intros ? [= <-];
                      by exists row_id, b, ct)
                ltac:(intros; by apply finish_keeps, of_message_stable)
                nothing_yet_stable log ltac:(done)).
  destruct (Processor.process_email env msg sender recipients _)
    as [[a|t] w']; [|done]. simpl in Hr.
  destruct H as [[_ [[_ Hnone] | [[_ H] | [_ H]]]] | [_ H]];
    [congruence | by apply H | | by apply H].
  destruct H as (row_id & b & ct & H). rewrite H in Hr. injection Hr as <-.
  exists row_id, b, ct. by repeat split.
Qed.

End CreatedFacts.

(** X13. A record that [process_email] returns is the record object and
    the stored row at once: what the caller gets is what the store has.
    It is PROCESSED or FAILED, never RECEIVED, and its processed
    timestamp is the time of the call. *)
Theorem X13_returned_record_is_stored
    (env : Env) (msg : Mime.Message) (sender : string) (recipients : list string)
    (drawn : nat) (log : list Event) (e : Email) (w' : World) :
  Processor.process_email env msg sender recipients (new_session drawn log)
    = (Ok (Some e), w') →
  db_email w' = Some e ∧ stored w' = Some e ∧
  (status e = PROCESSED ∨ status e = FAILED) ∧
  processed_at e = Some (utcnow env).
Proof.
  intros Hresult.
  pose proof (process_email_created nothing_yet object_bound object_bound_stable
                (Rows.returned_record (utcnow env))
                env msg sender recipients drawn
                ltac:(done) (finish_returned env) nothing_yet_stable log
                ltac:(done)) as H.
  rewrite Hresult in H.
  destruct H as [[? _] | (e' & [= <-] & Hd & Hs & Hstatus & Ht)]; done.
Qed.

(** The message of the test suite through collaborators that work. *)
Lemma X13_returned_record_is_stored_witness :
  ∃ e w',
    Processor.process_email Fixtures.calm
      (Fixtures.simple_message (Some "Test Subject") "This is a test email body")
      "test@example.com" ["recipient@example.com"] (new_session 0 [])
      = (Ok (Some e), w') ∧
    stored w' = Some e ∧ status e = PROCESSED.
Proof.
  do 2 eexists. split; [vm_compute; reflexivity|].
  split; [|reflexivity].
  eapply (X13_returned_record_is_stored Fixtures.calm
            (Fixtures.simple_message (Some "Test Subject")
               "This is a test email body")
            "test@example.com" ["recipient@example.com"] 0 []).
  vm_compute. reflexivity.
Defined.

(** X14. Every record stored for a message has the envelope sender as
    sender, the envelope recipients joined by "," as recipients, and as
    category what the classifier gives for the record's own subject and
    body; that category is never OUTGOING. *)
Theorem X14_stored_envelope_and_category
    (env : Env) (msg : Mime.Message) (mail_from : string) (rcpt_tos : list string)
    (drawn : nat) (log : list Event) (r : Email) :
  stored (Processor.process_email env msg mail_from rcpt_tos
            (new_session drawn log)).2 = Some r →
  sender r = mail_from ∧
  recipients r = PyStr.join "," rcpt_tos ∧
  email_type r =
    Classifier._determine_email_type (subject r) (body r) mail_from rcpt_tos ∧
  email_type r ≠ OUTGOING.
Proof.
  intros Hr.
  destruct (stored_of_message env msg mail_from rcpt_tos drawn log r Hr)
    as (row_id & b & ct & Hsame).
  destruct Hsame as (_ & _ & _ & _ & Hsender & Hrecipients & Hsubject & Hbody
                     & _ & Htype).
  simpl in *. rewrite Hsender, Hrecipients, Htype, Hsubject, Hbody.
  repeat split.
  pose proof (determine_classified
                (PyStr.strip (Mime.get msg "Subject" "No Subject")) b
                mail_from rcpt_tos) as Hc.
  by destruct Hc.
Qed.

(** Two recipients of one message. *)
Lemma X14_stored_envelope_and_category_witness :
  ∃ r,
    stored (Processor.process_email Fixtures.calm
              (Fixtures.simple_message (Some "Test Subject")
                 "This is a test email body")
              "test@example.com" ["a@example.com"; "b@example.com"]
              (new_session 0 [])).2 = Some r ∧
    recipients r = "a@example.com,b@example.com".
Proof.
  eexists. split; [vm_compute; reflexivity|].
  eapply (X14_stored_envelope_and_category Fixtures.calm
            (Fixtures.simple_message (Some "Test Subject")
               "This is a test email body")
            "test@example.com" ["a@example.com"; "b@example.com"] 0 []).
  vm_compute. reflexivity.
Defined.

(** X15. Every record stored for a message has the Message-ID header as
    message id, and the identifier generated first in the call when the
    message has no such header; its in-reply-to is the In-Reply-To header
    or unset, and its references are the References header or the empty
    string. *)
Theorem X15_stored_threading_fields
    (env : Env) (msg : Mime.Message) (sender : string) (recipients : list string)
    (drawn : nat) (log : list Event) (r : Email) :
  stored (Processor.process_email env msg sender recipients
            (new_session drawn log)).2 = Some r →
  let header name := Mime.get_header name (Mime.headers (Mime.info msg)) in
  message_id r = default (generate_id env drawn) (header "Message-ID") ∧
  in_reply_to r = header "In-Reply-To" ∧
  references r = default "" (header "References").
Proof.
  intros Hr.
  destruct (stored_of_message env msg sender recipients drawn log r Hr)
    as (row_id & b & ct & Hsame).
  by destruct Hsame as (_ & -> & -> & -> & _).
Qed.

(** A message without a Message-ID header. *)
Lemma X15_stored_threading_fields_witness :
  ∃ r,
    stored (Processor.process_email Fixtures.calm
              (Fixtures.simple_message (Some "Test Subject")
                 "This is a test email body")
              "test@example.com" ["recipient@example.com"]
              (new_session 0 [])).2 = Some r ∧
    message_id r = "id" ∧ in_reply_to r = None.
Proof.
  eexists. split; [vm_compute; reflexivity|].
  destruct (X15_stored_threading_fields Fixtures.calm
              (Fixtures.simple_message (Some "Test Subject")
                 "This is a test email body")
              "test@example.com" ["recipient@example.com"] 0 [] _
              ltac:(vm_compute; reflexivity)) as (Hid & Hreply & _).
  split; [exact Hid | exact Hreply].
Defined.

(* ================================================================== *)
(** * The listener: sessions and authentication *)
(* ================================================================== *)

Section ListenerFacts.
Import Monitor.
Variable env : Env.

(** [handle_DATA] when the message is parsed and the session opens. *)
Lemma handle_DATA_processes (envelope : Envelope) (w : World) (msg : Mime.Message) :
  parse_outcome env (original_content envelope) = Ok msg →
  session_outcome env = Ok tt →
  handle_DATA env envelope w =
    (Ok reply_accepted,
     (Processor.process_email env msg (mail_from envelope) (rcpt_tos envelope) w).2).
Proof.
  intros Hparse Hsession.
  unfold handle_DATA, try_except, bind, lift. rewrite Hparse, Hsession.
  destruct (process_email_never_raises env msg (mail_from envelope)
              (rcpt_tos envelope) w) as (a & w' & ->).
  reflexivity.
Qed.

(** [handle_DATA] when the message is not parsed or no session opens. *)
Lemma handle_DATA_local_error (envelope : Envelope) (w : World) :
  (∃ text, parse_outcome env (original_content envelope) = Raise text) ∨
  (∃ text, session_outcome env = Raise text) →
  handle_DATA env envelope w = (Ok reply_local_error, w).
Proof.
  unfold handle_DATA, try_except, bind, lift.
  intros [[text ->] | [text ->]]; [done|].
  by destruct (parse_outcome env (original_content envelope)).
Qed.

Lemma run_app (s : Session) (cs cs' : list Command) :
  run env s (cs ++ cs') =
    (let '(replies, s') := run env s cs in
     let '(replies', s'') := run env s' cs' in
     ((replies ++ replies')%list, s'')).
Proof.
  revert s. induction cs as [|c cs IH]; intros s; simpl.
  - by destruct (run env s cs') as [replies' s''].
  - destruct (step env s c) as [reply s']. rewrite IH.
    destruct (run env s' cs) as [replies s''].
    by destruct (run env s'' cs') as [replies' s'''].
Qed.

End ListenerFacts.

(** X16. The reply to DATA is the temporary failure 451 exactly when
    the message cannot be parsed or the database session cannot be
    opened; [process_email] is then not called and the world is as it
    was. In every other case the reply is 250. *)
Theorem X16_data_reply (env : Env) (envelope : Monitor.Envelope) (w : World) :
  match parse_outcome env (Monitor.original_content envelope),
        session_outcome env with
  | Ok msg, Ok _ =>
      Monitor.handle_DATA env envelope w =
        (Ok Monitor.reply_accepted,
         (Processor.process_email env msg (Monitor.mail_from envelope)
            (Monitor.rcpt_tos envelope) w).2)
  | _, _ => Monitor.handle_DATA env envelope w = (Ok Monitor.reply_local_error, w)
  end ∧
  Monitor.reply_class Monitor.reply_local_error = Some "4"%char.
Proof.
  split; [|reflexivity].
  destruct (parse_outcome env (Monitor.original_content envelope))
    as [msg|text] eqn:Hparse.
  - destruct (session_outcome env) as [[]|text] eqn:Hsession.
    + by apply handle_DATA_processes.
    + apply handle_DATA_local_error. right. by exists text.
  - apply handle_DATA_local_error. left. by exists text.
Qed.

(** X17. In a session, the record stored for the message has as
    recipients exactly the addresses that RCPT accepted, in the order
    given and joined by ",", and as sender the envelope sender: an
    address that was rejected is not among them. *)
Theorem X17_session_recipients
    (env : Env) (envelope : Monitor.Envelope) (addresses : list string)
    (drawn : nat) (log : list Event) (msg : Mime.Message) (r : Email) :
  parse_outcome env (Monitor.original_content envelope) = Ok msg →
  session_outcome env = Ok tt →
  stored
    (Monitor.run env (envelope, new_session drawn log)
       ((Monitor.RCPT <$> addresses) ++ [Monitor.DATA])).2.2 = Some r →
  recipients r =
    PyStr.join ","
      (Monitor.rcpt_tos envelope ++
       List.filter (PyStr.endswith ("@" +:+ settings_EMAIL_DOMAIN env)) addresses) ∧
  sender r = Monitor.mail_from envelope.
Proof.
  intros Hparse Hsession. rewrite run_app.
  pose proof (run_RCPT env addresses envelope (new_session drawn log)) as Hrcpt.
  cbn zeta in Hrcpt.
  destruct (Monitor.run env _ (Monitor.RCPT <$> addresses))
    as [replies [envelope' w']].
  cbn [fst snd] in Hrcpt. destruct Hrcpt as (-> & Hfrom & Hcontent & Hto & _).
  cbn [Monitor.run Monitor.step].
  rewrite (handle_DATA_processes env envelope' _ msg) by congruence.
  cbn [fst snd]. intros Hr.
  apply stored_of_message in Hr as (row_id & b & ct & Hsame).
  destruct Hsame as (_ & _ & _ & _ & Hsender & Hrecipients & _).
  rewrite Hsender, Hrecipients. unfold Rows.created, Processor.new_email.
  simpl. by rewrite Hto, Hfrom.
Qed.

(** An envelope with one recipient; then one address of the domain and one
    of another, then the message. *)
Lemma X17_session_recipients_witness :
  ∃ r,
    stored
      (Monitor.run Samples.calm_listener
         (Fixtures.an_envelope, new_session 0 [])
         ((Monitor.RCPT <$> ["infra@example.com"; "other@example.org"])
          ++ [Monitor.DATA])).2.2 = Some r ∧
    recipients r = "recipient@example.com,infra@example.com".
Proof.
  eexists. split; [vm_compute; reflexivity|].
  eapply (X17_session_recipients Samples.calm_listener Fixtures.an_envelope
            ["infra@example.com"; "other@example.org"] 0 []).
  - vm_compute. reflexivity.
  - reflexivity.
  - vm_compute. reflexivity.
Defined.

(** X18. The authenticator reports success exactly when it is given a
    login and a password that decode to the configured pair. Without
    such data it declines without handling; with a pair that decodes
    but differs it answers "535 Invalid credentials" and logs one
    warning, which names the attempted user and not the password. *)
Theorem X18_authentication
    (decode : Mime.bytes → Result string) (username password : string)
    (auth_data : Auth.AuthData) :
  let outcome := Auth.EmailAuthChecker_call decode username password auth_data in
  ((∃ result, outcome.1 = Ok result ∧ Auth.success result = true) ↔
   ∃ login secret,
     auth_data = Auth.LoginPassword login secret ∧
     decode login = Ok username ∧ decode secret = Ok password) ∧
  (∀ result, outcome.1 = Ok result → Auth.success result = false →
     (Auth.handled result = false ∧ Auth.message result = None ∧
      outcome.2 = [] ∧
      (auth_data = Auth.NoData ∨ auth_data = Auth.OtherData)) ∨
     (Auth.handled result = true ∧
      Auth.message result = Some "535 Invalid credentials" ∧
      ∃ login secret user,
        auth_data = Auth.LoginPassword login secret ∧
        decode login = Ok user ∧
        outcome.2 = ["Failed authentication attempt for user: " +:+ user])).
Proof.
  cbn zeta. unfold Auth.EmailAuthChecker_call.
  destruct auth_data as [| |login secret].
  - split.
    + split; [by intros (? & [= <-] & ?) | by intros (? & ? & ? & _)].
    + intros result [= <-] _. left. repeat split. by left.
  - split.
    + split; [by intros (? & [= <-] & ?) | by intros (? & ? & ? & _)].
    + intros result [= <-] _. left. repeat split. by right.
  - destruct (decode login) as [user|t] eqn:Hlogin.
    2:{ split; [|done]. split; [by intros (? & ? & _)|].
        intros (? & ? & [= <- <-] & ? & _). congruence. }
    destruct (decode secret) as [pw|t] eqn:Hsecret.
    2:{ split; [|done]. split; [by intros (? & ? & _)|].
        intros (? & ? & [= <- <-] & _ & ?). congruence. }
    destruct (String.eqb user username) eqn:Huser;
      destruct (String.eqb pw password) eqn:Hpw; simpl.
    + apply String.eqb_eq in Huser, Hpw. subst. split.
      * split; [intros _; by exists login, secret | intros _; by eexists].
      * by intros result [= <-].
    + apply String.eqb_neq in Hpw. split.
      * split; [by intros (? & [= <-] & ?)|].
        intros (? & ? & [= <- <-] & ? & ?). congruence.
      * intros result [= <-] _. right. repeat split. by exists login, secret, user.
    + apply String.eqb_neq in Huser. split.
      * split; [by intros (? & [= <-] & ?)|].
        intros (? & ? & [= <- <-] & ? & ?). congruence.
      * intros result [= <-] _. right. repeat split. by exists login, secret, user.
    + apply String.eqb_neq in Huser. split.
      * split; [by intros (? & [= <-] & ?)|].
        intros (? & ? & [= <- <-] & ? & ?). congruence.
      * intros result [= <-] _. right. repeat split. by exists login, secret, user.
Qed.

(* ================================================================== *)
(** * Terms that contain other terms *)
(* ================================================================== *)

Section TermFacts.
Import PyStr Phrase.

Lemma append_assoc (a b c : string) : (a +:+ b) +:+ c = a +:+ (b +:+ c).
Proof.
  induction a as [|x a IH]; [done|].
  by rewrite !append_String, IH.
Qed.

(** A text that has [p] has every segment [q] of [p]. *)
Lemma contains_trans (q p s : string) :
  contains q p = true → contains p s = true → contains q s = true.
Proof.
  rewrite !contains_spec. intros (a & b & ->) (pre & post & ->).
  exists (pre +:+ a), (b +:+ post). by rewrite !append_assoc.
Qed.

(** An occurrence stays when text is put around. *)
Lemma contains_around (p pre s post : string) :
  contains p s = true → contains p (pre +:+ s +:+ post) = true.
Proof.
  rewrite !contains_spec. intros (a & b & ->).
  exists (pre +:+ a), (b +:+ post). by rewrite !append_assoc.
Qed.

Lemma occurs_ci_segment (q p text : string) :
  contains q p = true → occurs_ci p text → occurs_ci q text.
Proof.
  intros Hq Hp. apply contains_lower. apply contains_lower in Hp.
  by apply (contains_trans q p).
Qed.

Lemma occurs_ci_around (p pre text post : string) :
  occurs_ci p text → occurs_ci p (pre +:+ text +:+ post).
Proof.
  intros Hp. apply contains_lower. apply contains_lower in Hp.
  rewrite !lower_app. by apply contains_around.
Qed.

Lemma mentions_around (terms : list string) (pre text post : string) :
  mentions terms text → mentions terms (pre +:+ text +:+ post).
Proof.
  intros (p & Hp & H). exists p. split; [done|]. by apply occurs_ci_around.
Qed.

Lemma mentions_covered (terms' terms : list string) (text : string) :
  Terms.covered_by terms' terms = true → mentions terms text → mentions terms' text.
Proof.
  unfold Terms.covered_by. rewrite forallb_forall. intros Hall (p & Hp & H).
  specialize (Hall p ltac:(by apply list_elem_of_In)).
  apply any_spec in Hall as (q & Hq & Hqp).
  exists q. split; [done|]. by apply (occurs_ci_segment q p).
Qed.

Lemma either_mentions_covered (terms' terms : list string) (subject body : string) :
  Terms.covered_by terms' terms = true →
  RequestParser.either_mentions terms subject body →
  RequestParser.either_mentions terms' subject body.
Proof.
  intros Hc [H | H]; [left | right]; by apply (mentions_covered terms' terms).
Qed.

Lemma either_mentions_app (l1 l2 : list string) (subject body : string) :
  RequestParser.either_mentions (l1 ++ l2) subject body ↔
  RequestParser.either_mentions l1 subject body ∨
  RequestParser.either_mentions l2 subject body.
Proof.
  unfold RequestParser.either_mentions, mentions. split.
  - intros [(p & Hp & H) | (p & Hp & H)]; apply elem_of_app in Hp as [Hp | Hp];
      [left; left | right; left | left; right | right; right]; by exists p.
  - intros [[(p & Hp & H) | (p & Hp & H)] | [(p & Hp & H) | (p & Hp & H)]];
      [left | right | left | right]; exists p; split; try done;
      apply elem_of_app; auto.
Qed.

End TermFacts.

Section ParserTermFacts.
Import PyStr Phrase RequestParser.

Lemma priority_cases (subject body : string) :
  let p := bucket_loop priority_terms subject body "normal" in
  (p = "high" ∧
   either_mentions ["urgent"; "asap"; "high priority"; "blocking"] subject body) ∨
  (p = "low" ∧
   ¬ either_mentions ["urgent"; "asap"; "high priority"; "blocking"] subject body ∧
   either_mentions ["low priority"; "when you can"; "not urgent"] subject body) ∨
  (p = "normal" ∧
   ¬ either_mentions ["urgent"; "asap"; "high priority"; "blocking"] subject body ∧
   ¬ either_mentions ["low priority"; "when you can"; "not urgent"] subject body).
Proof.
  cbn zeta. destruct (priority_follows_rule subject body); tauto.
Qed.

Lemma environment_cases (subject body : string) :
  let e := bucket_loop env_terms subject body "development" in
  (e = "production" ∧
   either_mentions ["prod"; "production"; "live"] subject body) ∨
  (e = "staging" ∧
   ¬ either_mentions ["prod"; "production"; "live"] subject body ∧
   either_mentions ["staging"; "pre-prod"; "preprod"] subject body) ∨
  (e = "development" ∧
   ¬ either_mentions ["prod"; "production"; "live"] subject body ∧
   ¬ either_mentions ["staging"; "pre-prod"; "preprod"] subject body).
Proof.
  cbn zeta. destruct (environment_follows_rule subject body); tauto.
Qed.

End ParserTermFacts.

(** X19. A request that says "not urgent" gets the priority "high",
    since the text then has "urgent": the low-priority term "not urgent"
    never decides. The priority is "low" exactly when subject and body
    have none of the high-priority terms and one of them has
    "low priority" or "when you can". Subject and body are taken to be
    ASCII text, on which [PyStr.lower] is [str.lower()]. *)
Theorem X19_not_urgent_is_high (subject body sender : string) :
  PyStr.is_ascii subject = true → PyStr.is_ascii body = true →
  let request := RequestParser._parse_infra_request subject body sender in
  (RequestParser.either_mentions ["not urgent"] subject body →
   RequestParser.priority request = "high") ∧
  (RequestParser.priority request = "low" ↔
   ¬ RequestParser.either_mentions
       ["urgent"; "asap"; "high priority"; "blocking"] subject body ∧
   RequestParser.either_mentions ["low priority"; "when you can"] subject body).
Proof.
  intros _ _.
  cbn zeta. cbn [RequestParser._parse_infra_request RequestParser.priority].
  pose proof (either_mentions_covered
                ["urgent"; "asap"; "high priority"; "blocking"] ["not urgent"]
                subject body eq_refl) as Hnot.
  pose proof (either_mentions_app ["low priority"; "when you can"] ["not urgent"]
                subject body) as Hlow.
  cbn [app] in Hlow.
  destruct (priority_cases subject body) as [[-> H] | [[-> H] | [-> H]]];
    cbn zeta in *; (split; [|split]); try done; try tauto.
Qed.

(** A request that is said not to be urgent. *)
Lemma X19_not_urgent_is_high_witness :
  RequestParser.priority
    (RequestParser._parse_infra_request "Infra request: test database"
       "This is not urgent, do it when you can" "test@example.com") = "high".
Proof.
  destruct (X19_not_urgent_is_high "Infra request: test database"
              "This is not urgent, do it when you can" "test@example.com"
              eq_refl eq_refl) as [Hhigh _].
  apply Hhigh. right. apply any_contains_lower. reflexivity.
Defined.

(** X20. A request that says "pre-prod", "preprod" or "production" gets
    the environment "production", since the text then has "prod": of the
    staging terms only "staging" decides. The environment is "staging"
    exactly when subject and body have neither "prod" nor "live" and one
    of them has "staging". *)
Theorem X20_pre_prod_is_production (subject body sender : string) :
  let request := RequestParser._parse_infra_request subject body sender in
  (RequestParser.either_mentions ["pre-prod"; "preprod"; "production"] subject body →
   RequestParser.environment request = "production") ∧
  (RequestParser.environment request = "staging" ↔
   ¬ RequestParser.either_mentions ["prod"; "live"] subject body ∧
   RequestParser.either_mentions ["staging"] subject body).
Proof.
  cbn zeta. cbn [RequestParser._parse_infra_request RequestParser.environment].
  pose proof (either_mentions_covered
                ["prod"; "live"] ["pre-prod"; "preprod"; "production"]
                subject body eq_refl) as Hpre.
  pose proof (either_mentions_covered
                ["prod"; "live"] ["prod"; "production"; "live"]
                subject body eq_refl) as Hprod.
  pose proof (either_mentions_covered
                ["prod"; "production"; "live"] ["prod"; "live"]
                subject body eq_refl) as Hprod'.
  pose proof (either_mentions_covered
                ["pre-prod"; "preprod"; "production"] ["pre-prod"; "preprod"]
                subject body eq_refl) as Hpre'.
  pose proof (either_mentions_app ["staging"] ["pre-prod"; "preprod"]
                subject body) as Hstaging.
  cbn [app] in Hstaging.
  destruct (environment_cases subject body) as [[-> H] | [[-> H] | [-> H]]];
    cbn zeta in *; (split; [|split]); try done; try tauto.
Qed.

(** X21. An auto-reply stays an auto-reply when text is put before and
    after its subject and its body, as a reply or a forward that quotes
    it does, whoever sends it to whomever. *)
Theorem X21_auto_reply_survives_quoting
    (subject body sender : string) (recipients : list string) :
  Classifier._determine_email_type subject body sender recipients = AUTO_REPLY →
  ∀ pre post pre' post' sender' recipients',
    Classifier._determine_email_type
      (pre +:+ subject +:+ post) (pre' +:+ body +:+ post') sender' recipients'
    = AUTO_REPLY.
Proof.
  intros Hauto pre post pre' post' sender' recipients'.
  pose proof (determine_classified subject body sender recipients) as Hc.
  rewrite Hauto in Hc. inversion Hc as [Hm| | | |].
  apply (classified_functional (pre +:+ subject +:+ post) (pre' +:+ body +:+ post'));
    [apply determine_classified|].
  apply Phrase.rule_auto_reply.
  destruct Hm as [Hm | Hm]; [left | right]; by apply mentions_around.
Qed.

(** The reply to an out-of-office notice, with the notice quoted. *)
Lemma X21_auto_reply_survives_quoting_witness :
  Classifier._determine_email_type
    ("Re: " +:+ "Out of office" +:+ "")
    ("Thanks. " +:+ "I am away until Monday" +:+ " -- sent from my phone")
    "someone@example.com" []
  = AUTO_REPLY.
Proof.
  apply (X21_auto_reply_survives_quoting
           "Out of office" "I am away until Monday" "test@example.com" []).
  vm_compute. reflexivity.
Defined.

(* ================================================================== *)
(** * The calls [process_email] makes *)
(* ================================================================== *)

Section StepSummaries.
Variable env : Env.

(** The routing handler from a world that holds the record. *)
Lemma route_email_summary (email_type : EmailType) (body : string)
    (w : World) (e : Email) :
  db_email w = Some e →
  ∃ e' new,
    db_email (Processor._route_email env email_type body w).2 = Some e' ∧
    Rows.same_message e e' ∧
    events (Processor._route_email env email_type body w).2 =
      (events w ++ new)%list ∧
    match route_commit env with
    | Ok _ =>
        (Processor._route_email env email_type body w).1 = Ok tt ∧
        stored (Processor._route_email env email_type body w).2 = Some e'
    | Raise text =>
        (Processor._route_email env email_type body w).1 = Raise text ∧
        stored (Processor._route_email env email_type body w).2 = stored w
    end.
Proof.
  destruct w as [d row added kept drawn log]. simpl. intros ->.
  destruct (route_commit env) as [[]|text] eqn:Hcommit;
    destruct email_type; unfold_coroutines; rewrite ?Hcommit; split_outcomes;
    rewrite ?Hcommit; rewrite <- ?app_assoc;
    do 2 eexists; (split; [reflexivity|]); (split; [by repeat split|]);
    (split; [reflexivity|]); by split.
Qed.

(** The [except] block from a world that holds the record. *)
Lemma process_email_except_summary (text : string) (w : World) (e : Email) :
  db_email w = Some e →
  ∃ w', Processor.process_email_except env text w = (Ok None, w') ∧
        events w' = (events w ++ [EvCommit])%list ∧
        (stored w' = stored w ∨
         stored w' = Some (set_error text (set_status FAILED e))).
Proof.
  destruct w as [d row added kept drawn log]. simpl. intros ->.
  unfold Processor.process_email_except, try_except, bind, gets, commit,
    update_email, bind, log_event, modify, lift, ret. simpl.
  destruct (error_commit env) as [[]|t]; simpl; eexists;
    (split; [reflexivity|]); simpl; split; auto.
Qed.

(** [_process_attachments] from any world. *)
Lemma process_attachments_summary (email_id : string)
    (attachments : list Attachment) (w : World) :
  let result := Processor._process_attachments env email_id attachments w in
  db_email result.2 = db_email w ∧
  events result.2 = (events w ++ [EvCommit])%list ∧
  match attachments_commit env with
  | Ok _ => result.1 = Ok tt ∧ stored result.2 = db_email w
  | Raise text => result.1 = Raise text ∧ stored result.2 = stored w
  end.
Proof.
  cbn zeta. unfold Processor._process_attachments, commit, bind, log_event,
    modify, lift.
  rewrite for_attachments_rows. simpl.
  by destruct (attachments_commit env) as [[]|text].
Qed.

(** What the routing handler logs. *)
Lemma route_email_log (email_type : EmailType) (body : string)
    (w : World) (e : Email) :
  db_email w = Some e →
  let new := logged_by (Processor._route_email env email_type body) w in
  List.filter is_api_call new =
    match email_type with
    | INFRA_REQUEST =>
        [EvApiCall (RequestParser._parse_infra_request (subject e) body (sender e))
           (sender e)]
    | _ => []
    end ∧
  List.filter Calls.is_creation new = [] ∧
  last new = Some EvCommit ∧
  (email_type ≠ INFRA_REQUEST → email_type ≠ UNSUBSCRIBE → new = [EvCommit]).
Proof.
  intros Hd.
  assert (∃ new,
    events (Processor._route_email env email_type body w).2 =
      (events w ++ new)%list ∧
    List.filter is_api_call new =
      match email_type with
      | INFRA_REQUEST =>
          [EvApiCall (RequestParser._parse_infra_request (subject e) body (sender e))
             (sender e)]
      | _ => []
      end ∧
    List.filter Calls.is_creation new = [] ∧
    last new = Some EvCommit ∧
    (email_type ≠ INFRA_REQUEST → email_type ≠ UNSUBSCRIBE → new = [EvCommit]))
    as (new & Hev & Hnew).
  { destruct w as [d row added kept drawn log]. simpl in Hd. subst d.
    destruct email_type; unfold_coroutines; split_outcomes;
      rewrite <- ?app_assoc; eexists; (split; [reflexivity|]);
      by repeat split. }
  cbn zeta. by rewrite (logged_by_app _ _ _ Hev).
Qed.

End StepSummaries.

Lemma only_commits (l : list Event) (ev : Event) :
  l = [] ∨ l = [EvCommit] → ev ∈ l → ev = EvCommit.
Proof.
  intros [-> | ->] Hev; [by apply elem_of_nil in Hev|].
  by apply list_elem_of_singleton in Hev.
Qed.

Section ProcessCalls.
Variable env : Env.
Variable msg : Mime.Message.
Variables (sender : string) (recipients : list string).
Variables (drawn : nat) (log : list Event).

Lemma same_message_failed (e e' : Email) (text : string) :
  Rows.same_message e e' →
  Rows.same_message e (set_error text (set_status FAILED e')).
Proof. intros H. exact H. Qed.

Lemma same_message_refl (e : Email) : Rows.same_message e e.
Proof. by repeat split. Qed.

Lemma route_calls (e : Email) (body : string) (pre : list Event) (w3 : World) :
  db_email w3 = Some e → stored w3 = Some e →
  events w3 = (log ++ EvCreateRecord :: pre)%list →
  pre = [] ∨ pre = [EvCommit] →
  Calls.after_creation env log e body
    (try_except
       (bind (Processor._route_email env (email_type e) body)
             (fun _ => bind read_email (fun email => ret (Some email))))
       (Processor.process_email_except env) w3).2.
Proof.
  intros Hd Hs Hev Hpre. unfold try_except, bind at 1.
  destruct (route_email_summary env (email_type e) body w3 e Hd)
    as (e' & new & Hd' & Hsame & Hev' & Hcommit).
  pose proof (logged_by_app _ _ _ Hev') as Hnew.
  destruct (Processor._route_email env (email_type e) body w3) as [[[]|text] w4];
    cbn [fst snd] in *.
  - destruct (route_commit env); [|by destruct Hcommit].
    destruct Hcommit as [_ Hs']. unfold bind, read_email, ret. rewrite Hd'.
    cbn [snd]. split; [by exists e'|]. right. exists pre, w3, [].
    rewrite Hev', Hev, Hnew, app_nil_r, <- app_assoc. by repeat split; auto.
  - destruct (route_commit env); [by destruct Hcommit|].
    destruct Hcommit as [_ Hs'].
    destruct (process_email_except_summary env text w4 e' Hd')
      as (w' & -> & Hev'' & Hstored).
    cbn [snd]. split.
    + destruct Hstored as [-> | ->].
      * rewrite Hs', Hs. exists e. split; [done | apply same_message_refl].
      * eexists. split; [done|]. by apply same_message_failed.
    + right. exists pre, w3, [EvCommit].
      rewrite Hev'', Hev', Hev, Hnew, <- !app_assoc. by repeat split; auto.
Qed.

(** The worlds [process_email] ends in, by what it logged: nothing
    stored and at most the attempt to create the record; the row stored
    as it was made and no object bound, after a refresh that raised; or
    the record created and bound, and then what [Calls.after_creation]
    says. *)
Lemma process_email_calls (P : World → Prop) :
  (∀ w, stored w = None →
        events w = log ∨ events w = (log ++ [EvCreateRecord])%list → P w) →
  (∀ w row_id body ct text,
     refresh_outcome env = Raise text →
     db_email w = None →
     stored w = Some (Rows.created env msg sender recipients drawn row_id body ct) →
     events w = (log ++ [EvCreateRecord])%list → P w) →
  (∀ w row_id body ct,
     Calls.after_creation env log
       (Rows.created env msg sender recipients drawn row_id body ct) body w →
     P w) →
  P (Processor.process_email env msg sender recipients (new_session drawn log)).2.
Proof.
  intros Hnone Hrefresh Hsome.
  unfold Processor.process_email, bind at 1, try_except.
  change (Processor.unbind_db_email (new_session drawn log))
    with (Ok tt, new_session drawn log).
  cbv iota. unfold Processor.process_email_body, bind at 1.
  change (draw_id env (new_session drawn log))
    with (Ok (generate_id env drawn), Parts.after_ids 1 (new_session drawn log)).
  cbv iota. unfold bind at 1.
  destruct (extract_frame env msg (Parts.after_ids 1 (new_session drawn log)))
    as (n & Hframe & _).
  destruct (Extractor._extract_email_content env msg _)
    as [[[[body ct] atts]|text] w1]; cbn [snd] in Hframe; subst w1.
  2:{ destruct (process_email_except_result env text
                  (Parts.after_ids n (Parts.after_ids 1 (new_session drawn log))))
        as (w' & -> & Hw'). simpl in Hw'. subst w'. apply Hnone; simpl; auto. }
  unfold Processor._save_email, Processor.assign_db_email, log_event,
    modify, lift, ret. unfold bind.
  destruct (save_outcome env) as [row_id|text]; cbv beta iota.
  2:{ match goal with
      | |- context [Processor.process_email_except env text ?w] =>
          destruct (process_email_except_result env text w) as (w' & -> & Hw')
      end.
      simpl in Hw'. subst w'. apply Hnone; simpl; auto. }
  fold (Rows.created env msg sender recipients drawn row_id body ct).
  set (e := Rows.created env msg sender recipients drawn row_id body ct).
  destruct (refresh_outcome env) as [[]|text] eqn:Hrefreshed; cbv beta iota.
  2:{ match goal with
      | |- context [Processor.process_email_except env text ?w] =>
          destruct (process_email_except_result env text w) as (w' & -> & Hw')
      end.
      simpl in Hw'. subst w'.
      by apply (Hrefresh _ row_id body ct text). }
  cbn [events stored db_email added_attachments stored_attachments ids_drawn
       Parts.after_ids new_session].
  apply (Hsome _ row_id body ct). fold e.
  destruct atts as [|a atts].
  - exact (route_calls e body []
             {| db_email := Some e; stored := Some e; added_attachments := [];
                stored_attachments := []; ids_drawn := n + (1 + drawn);
                events := log ++ [EvCreateRecord] |}
             eq_refl eq_refl eq_refl (or_introl eq_refl)).
  - match goal with
    | |- context [Processor._process_attachments env (id e) ?l ?w] =>
        pose proof (process_attachments_summary env (id e) l w)
          as (Hd & Hev & Hcommit);
        destruct (Processor._process_attachments env (id e) l w)
          as [[[]|text] w3]
    end; cbn [fst snd events stored db_email] in *.
    + destruct (attachments_commit env); [|by destruct Hcommit].
      destruct Hcommit as [_ Hs].
      refine (route_calls e body [EvCommit] w3 Hd Hs _ (or_intror eq_refl)).
      by rewrite Hev, <- app_assoc.
    + destruct (attachments_commit env); [by destruct Hcommit|].
      destruct Hcommit as [_ Hs].
      destruct (process_email_except_summary env text w3 e Hd)
        as (w' & -> & Hev' & Hstored).
      cbn [snd]. split.
      * destruct Hstored as [-> | ->]; rewrite ?Hs; eexists;
          (split; [done|]);
          [apply same_message_refl | apply same_message_failed, same_message_refl].
      * left. by rewrite Hev', Hev, <- !app_assoc.
Qed.

End ProcessCalls.

Section ProcessEnds.
Variable env : Env.
Variable msg : Mime.Message.
Variables (sender : string) (recipients : list string).
Variables (drawn : nat) (log : list Event).

#[local] Abbreviation run := (Processor.process_email env msg sender recipients).
#[local] Abbreviation w0 := (new_session drawn log).

Lemma process_email_ends :
  (stored (run w0).2 = None ∧
   (logged_by run w0 = [] ∨ logged_by run w0 = [EvCreateRecord])) ∨
  (∃ row_id body ct text,
     refresh_outcome env = Raise text ∧ db_email (run w0).2 = None ∧
     stored (run w0).2 =
       Some (Rows.created env msg sender recipients drawn row_id body ct) ∧
     logged_by run w0 = [EvCreateRecord]) ∨
  ∃ row_id body ct r pre,
    let e := Rows.created env msg sender recipients drawn row_id body ct in
    stored (run w0).2 = Some r ∧ Rows.same_message e r ∧
    (pre = [] ∨ pre = [EvCommit]) ∧
    (logged_by run w0 = EvCreateRecord :: EvCommit :: [EvCommit] ∨
     ∃ w3 post,
       db_email w3 = Some e ∧ (post = [] ∨ post = [EvCommit]) ∧
       logged_by run w0 =
         (EvCreateRecord :: pre ++
          logged_by (Processor._route_email env (email_type e) body) w3 ++
          post)%list).
Proof.
  unfold logged_by at 1 2 3 4 5. cbn [events new_session].
  apply (process_email_calls env msg sender recipients drawn log
           (fun w =>
              (stored w = None ∧
               (drop (List.length log) (events w) = [] ∨
                drop (List.length log) (events w) = [EvCreateRecord])) ∨
              (∃ row_id body ct text,
                 refresh_outcome env = Raise text ∧ db_email w = None ∧
                 stored w =
                   Some (Rows.created env msg sender recipients drawn
                           row_id body ct) ∧
                 drop (List.length log) (events w) = [EvCreateRecord]) ∨
              ∃ row_id body ct r pre,
                let e := Rows.created env msg sender recipients drawn row_id body ct in
                stored w = Some r ∧ Rows.same_message e r ∧
                (pre = [] ∨ pre = [EvCommit]) ∧
                (drop (List.length log) (events w) =
                   EvCreateRecord :: EvCommit :: [EvCommit] ∨
                 ∃ w3 post,
                   db_email w3 = Some e ∧ (post = [] ∨ post = [EvCommit]) ∧
                   drop (List.length log) (events w) =
                     (EvCreateRecord :: pre ++
                      logged_by (Processor._route_email env (email_type e) body) w3 ++
                      post)%list))).
  - intros w Hs [Hev | Hev]; left; (split; [done|]); rewrite Hev.
    + left. by rewrite drop_all.
    + right. by rewrite drop_app_length.
  - intros w row_id body ct text Hrefresh Hd Hs Hev. right. left.
    exists row_id, body, ct, text. repeat split; try done.
    by rewrite Hev, drop_app_length.
  - intros w row_id body ct [(r & Hs & Hsame) Hev]. right. right.
    destruct Hev as [Hev | (pre & w3 & post & Hd & Hev & Hpre & Hpost)].
    + exists row_id, body, ct, r, []. cbn zeta.
      split; [done|]. split; [done|]. split; [by left|].
      left. by rewrite Hev, drop_app_length.
    + exists row_id, body, ct, r, pre. cbn zeta.
      split; [done|]. split; [done|]. split; [done|].
      right. exists w3, post. split; [done|]. split; [done|].
      by rewrite Hev, drop_app_length.
Qed.

End ProcessEnds.

(** X22. In a call of [process_email] the infrastructure API is called
    at most once, and only for a message of which a record is stored
    with the category INFRA_REQUEST; the request is then the one parsed
    from the stored subject, body and sender, made in the sender's
    name. *)
Theorem X22_api_called_at_most_once
    (env : Env) (msg : Mime.Message) (sender_address : string)
    (recipients_list : list string) (drawn : nat) (log : list Event) :
  let run := Processor.process_email env msg sender_address recipients_list in
  let calls := List.filter is_api_call (logged_by run (new_session drawn log)) in
  calls = [] ∨
  ∃ r, stored (run (new_session drawn log)).2 = Some r ∧
       email_type r = INFRA_REQUEST ∧
       calls =
         [EvApiCall
            (RequestParser._parse_infra_request (subject r) (body r) (sender r))
            (sender r)].
Proof.
  cbn zeta.
  destruct (process_email_ends env msg sender_address recipients_list drawn log)
    as [[_ [-> | ->]]
       | [(row_id & b & ct & text & _ & _ & _ & ->)
         | (row_id & b & ct & r & pre & Hs & Hsame & Hpre & Hlog)]];
    [by left | by left | by left |].
  cbn zeta in *.
  set (e := Rows.created env msg sender_address recipients_list drawn row_id b ct)
    in *.
  destruct Hlog as [-> | (w3 & post & Hd & Hpost & ->)]; [by left|].
  pose proof (route_email_log env (email_type e) b w3 e Hd) as (Hcalls & _).
  cbn zeta in Hcalls.
  assert (List.filter is_api_call pre = []) as Hpre'
    by by destruct Hpre as [-> | ->].
  assert (List.filter is_api_call post = []) as Hpost'
    by by destruct Hpost as [-> | ->].
  cbn [List.filter is_api_call].
  rewrite !List.filter_app, Hpre', Hpost', Hcalls, app_nil_r. cbn [app].
  destruct Hsame as (_ & _ & _ & _ & Hsender & _ & Hsubject & Hbody & _ & Htype).
  destruct (email_type e) eqn:Ht; try by left.
  right. exists r. split; [done|]. split; [congruence|].
  by rewrite Hsender, Hsubject, Hbody.
Qed.

(** X23. Whenever a call of [process_email] calls anything but the
    store (the API or the template service), a record of the message is
    stored and its category is INFRA_REQUEST or UNSUBSCRIBE: standard
    mail, auto-replies and bounces cause no call beyond the store. *)
Theorem X23_calls_beyond_the_store
    (env : Env) (msg : Mime.Message) (sender_address : string)
    (recipients_list : list string) (drawn : nat) (log : list Event)
    (ev : Event) :
  let run := Processor.process_email env msg sender_address recipients_list in
  ev ∈ logged_by run (new_session drawn log) →
  ev ≠ EvCreateRecord → ev ≠ EvCommit →
  ∃ r, stored (run (new_session drawn log)).2 = Some r ∧
       (email_type r = INFRA_REQUEST ∨ email_type r = UNSUBSCRIBE).
Proof.
  cbn zeta. intros Hev Hcreate Hcommit.
  destruct (process_email_ends env msg sender_address recipients_list drawn log)
    as [[_ [H | H]]
       | [(row_id & b & ct & text & _ & _ & _ & H)
         | (row_id & b & ct & r & pre & Hs & Hsame & Hpre & Hlog)]];
    rewrite ?H in Hev.
  { by apply elem_of_nil in Hev. }
  { by apply list_elem_of_singleton in Hev. }
  { by apply list_elem_of_singleton in Hev. }
  cbn zeta in *. exists r. split; [done|].
  set (e := Rows.created env msg sender_address recipients_list drawn row_id b ct)
    in *.
  destruct Hsame as (_ & _ & _ & _ & _ & _ & _ & _ & _ & ->).
  destruct Hlog as [H | (w3 & post & Hd & Hpost & H)]; rewrite H in Hev.
  { repeat (apply elem_of_cons in Hev as [? | Hev]; [done|]).
    by apply elem_of_nil in Hev. }
  pose proof (route_email_log env (email_type e) b w3 e Hd) as (_ & _ & _ & Hplain).
  cbn zeta in Hplain.
  assert (email_type e = INFRA_REQUEST ∨ email_type e = UNSUBSCRIBE ∨
          (email_type e ≠ INFRA_REQUEST ∧ email_type e ≠ UNSUBSCRIBE))
    as [Ht | [Ht | [Hi Hu]]] by (destruct (email_type e); auto);
    [by left | by right |].
  rewrite (Hplain Hi Hu) in Hev.
  apply elem_of_cons in Hev as [? | Hev]; [done|].
  apply elem_of_app in Hev as [Hev | Hev];
    [by apply (only_commits pre) in Hev|].
  apply elem_of_cons in Hev as [? | Hev]; [done|].
  by apply (only_commits post) in Hev.
Qed.

(** X24. The creation of the record is attempted at most once and
    before every other call. When no record of the message is stored,
    the call made no call beyond that attempt. When a record is stored,
    either the call ends with a commit, or the refresh that follows the
    commit of the create raised: the call then made no call beyond the
    create, and the row stays as it was made, RECEIVED and with no
    error, bound to no record object. *)
Theorem X24_creation_first_and_once
    (env : Env) (msg : Mime.Message) (sender_address : string)
    (recipients_list : list string) (drawn : nat) (log : list Event) :
  let run := Processor.process_email env msg sender_address recipients_list in
  let new := logged_by run (new_session drawn log) in
  (new = [] ∨
   ∃ rest, new = EvCreateRecord :: rest ∧ List.filter Calls.is_creation rest = []) ∧
  (stored (run (new_session drawn log)).2 = None →
   new = [] ∨ new = [EvCreateRecord]) ∧
  (∀ r, stored (run (new_session drawn log)).2 = Some r →
     last new = Some EvCommit ∨
     (new = [EvCreateRecord] ∧
      (∃ text, refresh_outcome env = Raise text) ∧
      db_email (run (new_session drawn log)).2 = None ∧
      status r = RECEIVED ∧ error r = None)).
Proof.
  cbn zeta.
  destruct (process_email_ends env msg sender_address recipients_list drawn log)
    as [[Hs [-> | ->]]
       | [(row_id & b & ct & text & Hrefresh & Hd & Hs & ->)
         | (row_id & b & ct & r & pre & Hs & Hsame & Hpre & Hlog)]].
  { split; [by left|]. split; [auto|]. intros r Hr. congruence. }
  { split; [right; by exists []|]. split; [auto|]. intros r Hr. congruence. }
  { split; [right; by exists []|]. split; [auto|].
    intros r Hr. right. rewrite Hs in Hr. injection Hr as <-.
    split; [done|]. split; [by exists text|]. by repeat split. }
  cbn zeta in *. rewrite Hs.
  set (e := Rows.created env msg sender_address recipients_list drawn row_id b ct)
    in *.
  destruct Hlog as [-> | (w3 & post & Hd & Hpost & ->)].
  { split; [right; by eexists|]. split; [done|]. intros ? _. by left. }
  pose proof (route_email_log env (email_type e) b w3 e Hd)
    as (_ & Hcreate & Hlast & _).
  cbn zeta in Hlast, Hcreate.
  destruct (logged_by _ w3) as [|ev rest] eqn:Hroute using rev_ind; [done|].
  clear IHrest. rewrite last_snoc in Hlast. injection Hlast as ->.
  split; [|split].
  - right. eexists. split; [done|].
    rewrite List.filter_app in Hcreate.
    rewrite !List.filter_app, Hcreate.
    by destruct Hpre as [-> | ->], Hpost as [-> | ->].
  - done.
  - intros ? _. left. destruct Hpost as [-> | ->].
    + rewrite app_nil_r, app_assoc, app_comm_cons. apply last_snoc.
    + rewrite !app_assoc, app_comm_cons. apply last_snoc.
Qed.

(** A request to unsubscribe, with collaborators that all succeed. *)
Lemma X23_calls_beyond_the_store_witness :
  ∃ r,
    stored
      (Processor.process_email Fixtures.calm
         (Fixtures.simple_message (Some "Newsletter") "please unsubscribe me")
         "test@example.com" ["news@example.com"] (new_session 0 [])).2 = Some r ∧
    (email_type r = INFRA_REQUEST ∨ email_type r = UNSUBSCRIBE).
Proof.
  apply (X23_calls_beyond_the_store Fixtures.calm
           (Fixtures.simple_message (Some "Newsletter") "please unsubscribe me")
           "test@example.com" ["news@example.com"] 0 []
           (EvGetTemplate "unsubscribe_confirmation")).
  - vm_compute. apply list_elem_of_further, list_elem_of_here.
  - discriminate.
  - discriminate.
Defined.

(* ================================================================== *)
(** * The body of a multipart message *)
(* ================================================================== *)

Section BodyFacts.
Import Extractor.
Variable env : Env.

(** A candidate that does not decode leaves an empty body empty. *)
Lemma extract_part_undecoded (part : Mime.Message) (ct0 : string)
    (atts0 : list Attachment) (w w' : World) (b ct : string)
    (atts : list Attachment) :
  body_candidate part = true →
  decoded_body env part = None →
  extract_part env part ("", ct0, atts0) w = (Ok (b, ct, atts), w') →
  b = "".
Proof.
  unfold body_candidate, decoded_body. intros Hc Hd.
  apply andb_true_iff in Hc as [Hc Htext].
  apply andb_true_iff in Hc as [Hcontainer Hattachment].
  apply negb_true_iff in Hcontainer, Hattachment.
  unfold extract_part. rewrite Hcontainer, Hattachment, Htext. simpl.
  destruct part as [i payload|]; [|by intros [= <- _ _ _]].
  simpl in *. destruct (decode env _ payload); [done|].
  by intros [= <- _ _ _].
Qed.

Lemma is_empty_true (s : string) : is_empty s = true → s = "".
Proof. by destruct s. Qed.

Lemma for_parts_body (parts : list Mime.Message) (acc : Extracted)
    (w w' : World) (b ct : string) (atts : list Attachment) :
  for_parts env parts acc w = (Ok (b, ct, atts), w') →
  b = if is_empty acc.1.1 then Bodies.first_text env parts else acc.1.1.
Proof.
  revert acc w. induction parts as [|part rest IH]; intros [[b0 ct0] atts0] w.
  - simpl. unfold ret. intros [= -> _ _ _].
    destruct (is_empty b) eqn:Hb; [by apply is_empty_true in Hb | done].
  - cbn [for_parts fst]. unfold bind at 1.
    destruct (extract_part env part (b0, ct0, atts0) w)
      as [[[[b1 ct1] atts1]|t] w1] eqn:Hpart; [|done].
    intros Hrest. apply IH in Hrest. cbn [fst] in Hrest.
    destruct (is_empty b0) eqn:Hb0.
    2:{ apply extract_part_keeps_body in Hpart; [|done]. simpl in Hpart.
        subst b1. by rewrite Hb0 in Hrest. }
    apply is_empty_true in Hb0 as ->.
    unfold Bodies.first_text, Bodies.texts. cbn [List.filter].
    destruct (body_candidate part) eqn:Hc.
    2:{ apply extract_part_skips in Hpart; [|done]. simpl in Hpart. subst b1.
        exact Hrest. }
    cbn [omap list_omap].
    destruct (decoded_body env part) as [chosen|] eqn:Hd.
    + apply (extract_part_selects _ _ _ _ _ _ _ _ _ chosen) in Hpart; [|done..].
      subst b1. cbn [List.filter].
      destruct (is_empty chosen); [exact Hrest | done].
    + apply extract_part_undecoded in Hpart; [|done..]. subst b1. exact Hrest.
Qed.

End BodyFacts.

(** X25. The body extracted from a multipart message is the text of
    the first part in document order that is no container and no
    attachment, has the type text/plain or text/html, decodes, and gives
    a text that is not empty (for HTML after the conversion); a part
    that does not decode or gives the empty text is passed over, and
    with no such part the body is the empty string. *)
Theorem X25_multipart_body
    (env : Env) (i : Mime.PartInfo) (parts : list Mime.Message)
    (w w' : World) (b ct : string) (atts : list Attachment) :
  Extractor._extract_email_content env (Mime.Multi i parts) w
    = (Ok (b, ct, atts), w') →
  b = Bodies.first_text env (Mime.walk (Mime.Multi i parts)).
Proof.
  unfold Extractor._extract_email_content. intros H.
  by apply for_parts_body in H.
Qed.

(** The multipart message of the test suite, with a decoder that knows
    its character set. *)
Lemma X25_multipart_body_witness :
  Fixtures.plain_text =
    Bodies.first_text Fixtures.calm (Mime.walk Fixtures.multipart_email_message).
Proof.
  apply (X25_multipart_body Fixtures.calm _ _ (new_session 0 []) (new_session 0 [])
           Fixtures.plain_text "text/html" []).
  vm_compute. reflexivity.
Defined.
